(** * RelayNetwork: a shallow embedding of [packages/relay-runtime/network/RelayNetwork.js]

    The module builds a network layer from a caller-supplied [fetch]
    function (and an optional [subscribe] function).  It offers a one-shot
    [request], an observed [requestStream] and interval polling
    ([doFetchWithPolling]); every path goes through [normalizePayload].

    The JavaScript is effectful: closures share the mutable variables
    [isDisposed] and [timeout], promise reactions run in a later turn, timers
    fire later still, and the observer is foreign code that may throw or call
    [dispose] from inside a callback.  The embedding keeps all of this as an
    explicit state, a small state-and-exception monad [M], and a deterministic
    machine that is driven by the inputs of the environment (the caller
    disposing the handle, a promise reaction job running, a timer firing). *)

From Stdlib Require Import String Ascii List ZArith Bool Lia DecimalString.
Import ListNotations.
Local Open Scope string_scope.
Local Open Scope list_scope.

(** ** JavaScript values that the module inspects *)

(** A property that may be missing ([undefined]), [null], or hold a value. *)
Inductive Nullable (A : Type) : Type :=
| Undefined
| Null
| Defined (a : A).
Arguments Undefined {A}.
Arguments Null {A}.
Arguments Defined {A} a.

(** The line feed used by [join('\n')] and inside the message format. *)
Definition LF : string := String (ascii_of_nat 10) EmptyString.

(** [array.join(sep)] on an array of strings. *)
Fixpoint join (sep : string) (parts : list string) : string :=
  match parts with
  | [] => EmptyString
  | [p] => p
  | p :: rest => (p ++ sep ++ join sep rest)%string
  end.

(** Modelled from the spec: the [%s] substitution performed by
    [RelayError.create] and by [invariant], neither of which is part of the
    sources at hand.  Each [%s] of the format is replaced, in one pass from
    left to right, by the next argument; a missing argument prints as
    [undefined]. *)
Fixpoint sprintf (format : string) (args : list string) : string :=
  match format with
  | String "%" (String "s" rest) =>
      (hd "undefined" args ++ sprintf rest (tl args))%string
  | String c rest => String c (sprintf rest args)
  | EmptyString => EmptyString
  end.

(** [Number.MIN_SAFE_INTEGER]: from it up to its opposite every integer is a
    number of its own, and [String(n)] prints its digits. *)
Definition MIN_SAFE_INTEGER : Z := -9007199254740991.

(** [String(n)] for a safe integer [n].  (Beyond the safe integers
    JavaScript rounds, and from [1e21] on it prints an exponent; nothing is
    stated about this function there.) *)
Definition string_of_number (n : Z) : string :=
  NilZero.string_of_int (Z.to_int n).

(** [haystack] has [needle] as a contiguous part. *)
Definition Contains (needle haystack : string) : Prop :=
  exists before after, haystack = (before ++ needle ++ after)%string.

(** [haystack.includes(needle)], the executable counterpart of [Contains]. *)
Fixpoint includes (needle haystack : string) : bool :=
  if prefix needle haystack then true
  else match haystack with
       | EmptyString => false
       | String _ rest => includes needle rest
       end.

(** ** Operations, payloads, errors *)

(** [operation.query]; only the operation kind is inspected here. *)
Record ConcreteQuery : Type := {
  query_operation : string
}.

(** [ConcreteBatch] *)
Record ConcreteBatch : Type := {
  batch_name : string;
  query : ConcreteQuery
}.

(** One entry of the server's [errors] array. *)
Record PayloadError : Type := {
  message : string
}.

Section RelayNetwork.

(** Opaque data that the module only passes around. *)
Context {PayloadData Variables UploadableMap Metadata RelayResponsePayload
         SubscriptionHandle : Type}.

(** [CacheConfig], all fields optional. *)
Record CacheConfig : Type := {
  force : option bool;
  cacheConfig_poll : option Z;
  liveConfigId : option string;
  metadata : option Metadata;
  transactionId : option string
}.

(** [cacheConfig && cacheConfig.poll], as tested by [pollInterval != null]. *)
Definition pollInterval_of (cacheConfig : option CacheConfig) : option Z :=
  match cacheConfig with
  | Some config => cacheConfig_poll config
  | None => None
  end.

(** The object literal [{force: true}]. *)
Definition force_true : CacheConfig :=
  {| force := Some true; cacheConfig_poll := None; liveConfigId := None;
     metadata := None; transactionId := None |}.

(** [QueryPayload]: the raw server response object. *)
Record QueryPayload : Type := {
  data : Nullable PayloadData;
  errors : Nullable (list PayloadError)
}.

(** What a [data] envelope or a resolved fetch promise may carry: by its type
    a [QueryPayload] object, but the code also tests it for truthiness, so the
    falsy and the primitive values are kept. *)
Inductive RawValue : Type :=
| RawNull
| RawUndefined
| RawBoolean (b : bool)
| RawNumber (n : Z)
| RawString (s : string)
| RawObject (payload : QueryPayload).

(** JavaScript truthiness of a raw value. *)
Definition truthy (v : RawValue) : bool :=
  match v with
  | RawNull | RawUndefined => false
  | RawBoolean b => b
  | RawNumber n => negb (Z.eqb n 0)
  | RawString s => negb (String.eqb s EmptyString)
  | RawObject _ => true
  end.

(** The [source] property attached to the synthesized error. *)
Record ErrorSource : Type := {
  source_errors : Nullable (list PayloadError);
  source_operation : ConcreteBatch;
  source_variables : Variables
}.

(** The error object built by [RelayError.create], with its [source]. *)
Record RelayError : Type := {
  error_name : string;
  error_message : string;
  error_source : option ErrorSource
}.

(** Everything that is thrown or used as a rejection reason. *)
Inductive JsError : Type :=
| InvariantViolation (msg : string)
| TypeError (msg : string)
| RelayErr (error : RelayError)
| OtherError (description : string).

(** The completion of a JavaScript computation: a value or a thrown error. *)
Inductive Completion (A : Type) : Type :=
| Normal (value : A)
| Throw (error : JsError).
Arguments Normal {A} value.
Arguments Throw {A} error.

(** A settled promise. *)
Inductive Settled (A : Type) : Type :=
| Fulfilled (value : A)
| Rejected (reason : JsError).
Arguments Fulfilled {A} value.
Arguments Rejected {A} reason.

(** The error thrown by a failing [invariant(condition, format, ...args)]. *)
Definition invariant_violation (format : string) (args : list string) : JsError :=
  InvariantViolation (sprintf format args).

(** Modelled from the spec: [RelayError.create(name, format, ...args)], which
    is not part of the sources at hand; it builds an error with the given name
    whose message is the format with its [%s] filled in. *)
Definition RelayError_create (name format : string) (args : list string)
  : RelayError :=
  {| error_name := name;
     error_message := sprintf format args;
     error_source := None |}.

(** ** [normalizePayload] *)

(** The selector handed to the normalizer. *)
Record Selector : Type := {
  dataID : string;
  node : ConcreteQuery;
  selector_variables : Variables
}.

Record NormalizeOptions : Type := {
  handleStrippedNulls : bool
}.

(** The external collaborators: [ROOT_ID] of [RelayStoreUtils] and
    [normalizeRelayPayload], a function that may throw and that returns an
    object (hence a truthy value) otherwise. *)
Variable ROOT_ID : string.
Variable normalizeRelayPayload :
  Selector -> PayloadData -> Nullable (list PayloadError) -> NormalizeOptions ->
  Completion RelayResponsePayload.

Definition no_data_format : string :=
  ("No data returned for operation `%s`, got error(s):" ++ LF ++ "%s" ++ LF ++ LF
   ++ "See the error `source` property for more information.")%string.

(** The second argument of the format:
    [errors ? errors.map(({message}) => message).join('\n') : '(No errors)'] *)
Definition errors_text (errors : Nullable (list PayloadError)) : string :=
  match errors with
  | Defined errs => join LF (map message errs)
  | _ => "(No errors)"
  end.

(** The tail of [normalizePayload], reached when [data != null] fails. *)
Definition no_data_error (operation : ConcreteBatch) (variables : Variables)
  (errs : Nullable (list PayloadError)) : RelayError :=
  let error :=
    RelayError_create "RelayNetwork" no_data_format
      [batch_name operation; errors_text errs] in
  {| error_name := error_name error;
     error_message := error_message error;
     error_source :=
       Some {| source_errors := errs;
               source_operation := operation;
               source_variables := variables |} |}.

(** [const {data, errors} = payload]: a [null] or [undefined] payload cannot
    be destructured; a primitive has neither property. *)
Definition destructure (payload : RawValue)
  : Completion (Nullable PayloadData * Nullable (list PayloadError)) :=
  match payload with
  | RawNull => Throw (TypeError "Cannot destructure property `data` of null")
  | RawUndefined =>
      Throw (TypeError "Cannot destructure property `data` of undefined")
  | RawObject p => Normal (data p, errors p)
  | _ => Normal (Undefined, Undefined)
  end.

Definition normalizePayload (operation : ConcreteBatch) (variables : Variables)
  (payload : RawValue) : Completion RelayResponsePayload :=
  match destructure payload with
  | Throw e => Throw e
  | Normal (data, errors) =>
      match data with
      | Defined d =>
          normalizeRelayPayload
            {| dataID := ROOT_ID; node := query operation;
               selector_variables := variables |}
            d errors {| handleStrippedNulls := true |}
      | _ => Throw (RelayErr (no_data_error operation variables errors))
      end
  end.

(** ** Response envelopes *)

(** The tagged result of a fetch ([D] is what a [data] envelope carries, [P]
    the promise of a [promise] envelope).  [KindOther] stands for an object
    whose [kind] is none of the three tags. *)
Inductive Response (D P : Type) : Type :=
| KindData (data : D)
| KindError (error : JsError)
| KindPromise (promise : P)
| KindOther (kind : string).
Arguments KindData {D P} data.
Arguments KindError {D P} error.
Arguments KindPromise {D P} promise.
Arguments KindOther {D P} kind.

(** [response.kind] *)
Definition kind {D P : Type} (response : Response D P) : string :=
  match response with
  | KindData _ => "data"
  | KindError _ => "error"
  | KindPromise _ => "promise"
  | KindOther k => k
  end.

(** The promise of a fetch response.  It is settled by the environment, at
    most once, with a raw value or a rejection reason. *)
Inductive FetchPromise : Type :=
| fetch_promise.

(** [promise.then(onFulfilled)] for a fetch promise and a handler that has no
    effect on the closures of this module (it returns or throws). *)
Inductive Promise (A : Type) : Type :=
| promise_then (promise : FetchPromise) (onFulfilled : RawValue -> Completion A).
Arguments promise_then {A} promise onFulfilled.

(** How [promise.then(onFulfilled)] settles once [promise] has settled: the
    handler's result fulfils it, the handler's exception or the original
    rejection rejects it. *)
Definition settle {A : Type} (p : Promise A) (original : Settled RawValue)
  : Settled A :=
  match p, original with
  | promise_then _ onFulfilled, Fulfilled value =>
      match onFulfilled value with
      | Normal result => Fulfilled result
      | Throw error => Rejected error
      end
  | promise_then _ _, Rejected reason => Rejected reason
  end.

Definition FetchResponse : Type := Response RawValue FetchPromise.

(** What [request] returns; the data of a [data] envelope may be [null]. *)
Definition RequestResponse : Type :=
  Response (option RelayResponsePayload) (Promise RelayResponsePayload).

(** ** What can be observed of an execution *)

(** The log of an execution: the calls of the fetch and subscribe primitives
    and of the observer's callbacks, in the order in which they happen.
    [EvDispose] records a call of the handle's [dispose()] by the caller or by
    the observer; [EvUncaught] an exception or a rejection that nothing
    handles and that the host reports. *)
Inductive Event : Type :=
| EvFetch (operation : ConcreteBatch) (variables : Variables)
    (cacheConfig : option CacheConfig) (uploadables : option UploadableMap)
| EvSubscribe (operation : ConcreteBatch) (variables : Variables)
| EvOnNext (payload : option RelayResponsePayload)
| EvOnError (error : JsError)
| EvOnCompleted
| EvDispose
| EvUncaught (error : JsError).

Definition is_callback (ev : Event) : bool :=
  match ev with
  | EvOnNext _ | EvOnError _ | EvOnCompleted => true
  | _ => false
  end.

Definition is_fetch (ev : Event) : bool :=
  match ev with
  | EvFetch _ _ _ _ => true
  | _ => false
  end.

(** The observer callbacks that fired, in order. *)
Definition callbacks (log : list Event) : list Event := filter is_callback log.

(** The calls of the fetch primitive, in order. *)
Definition fetches (log : list Event) : list Event := filter is_fetch log.

(** What a callback of the observer does to this module: it may call the
    handle's [dispose()], and it may throw. *)
Record Reaction : Type := {
  disposes : bool;
  throws : option JsError
}.

(** [Observer]: each handler may be absent.  A handler sees its argument and
    everything that happened so far. *)
Record Observer : Type := {
  onCompleted : option (list Event -> Reaction);
  onError : option (JsError -> list Event -> Reaction);
  onNext : option (option RelayResponsePayload -> list Event -> Reaction)
}.

(** The closure given to [setTimeout]: [poll] (which captured its
    [pollInterval]), or the thrower built by [rethrow]. *)
Inductive TimerCallback : Type :=
| TimerPoll (pollInterval : Z)
| TimerThrow (err : JsError).

Record Timer : Type := {
  timer_id : nat;
  timer_callback : TimerCallback;
  timer_delay : Z
}.

(** The promise awaited inside [poll]. *)
Inductive PollPromise : Type :=
| Promise_resolve (data : option RelayResponsePayload)
| Promise_reject (error : JsError)
| RequestPromise (promise : Promise RelayResponsePayload).

(** How the promise awaited inside [poll] settles, given how the promise of
    the fetch response settled (which matters for [RequestPromise] only). *)
Definition settle_poll (promise : PollPromise) (original : Settled RawValue)
  : Settled (option RelayResponsePayload) :=
  match promise with
  | Promise_resolve data => Fulfilled data
  | Promise_reject error => Rejected error
  | RequestPromise q =>
      match settle q original with
      | Fulfilled payload => Fulfilled (Some payload)
      | Rejected reason => Rejected reason
      end
  end.

(** A registered promise reaction that has not run yet, one constructor for
    each place where the source attaches handlers:
    - [Promise.resolve(requestResponse.data).then(onRequestSuccess)]
    - [Promise.reject(requestResponse.error).then(onRequestError)]
    - [requestResponse.promise.then(onRequestSuccess, onRequestError)]
    - [promise.then(payload => {...}, onRequestError).catch(rethrow)] *)
Inductive Pending : Type :=
| StreamData (data : RawValue)
| StreamError (error : JsError)
| StreamPromise (promise : FetchPromise)
| PollReaction (pollInterval : Z) (promise : PollPromise).

(** The variables shared by the closures of one execution, and the host's
    pending reaction, timers and log. *)
Record State : Type := {
  isDisposed : bool;
  timeout : option nat;
  pending : option Pending;
  timers : list Timer;
  nextTimerId : nat;
  log : list Event
}.

Definition init : State :=
  {| isDisposed := false; timeout := None; pending := None; timers := [];
     nextTimerId := 1; log := [] |}.

(** ** The monad of effectful JavaScript: state and exceptions

    The state survives an exception, as it does in JavaScript. *)
Definition M (A : Type) : Type := State -> Completion A * State.

Definition ret {A : Type} (a : A) : M A := fun s => (Normal a, s).

Definition throw {A : Type} (e : JsError) : M A := fun s => (Throw e, s).

Definition bind {A B : Type} (m : M A) (k : A -> M B) : M B :=
  fun s =>
    match m s with
    | (Normal a, s') => k a s'
    | (Throw e, s') => (Throw e, s')
    end.

Definition lift {A : Type} (c : Completion A) : M A := fun s => (c, s).

Notation "x <- m ;; k" := (bind m (fun x => k))
  (at level 61, m at next level, right associativity).
Notation "m ;; k" := (bind m (fun _ => k))
  (at level 61, right associativity).

Definition get_isDisposed : M bool := fun s => (Normal (isDisposed s), s).

Definition set_isDisposed (b : bool) : M unit := fun s =>
  (Normal tt,
   {| isDisposed := b; timeout := timeout s; pending := pending s;
      timers := timers s; nextTimerId := nextTimerId s; log := log s |}).

Definition get_timeout : M (option nat) := fun s => (Normal (timeout s), s).

Definition set_timeout (t : option nat) : M unit := fun s =>
  (Normal tt,
   {| isDisposed := isDisposed s; timeout := t; pending := pending s;
      timers := timers s; nextTimerId := nextTimerId s; log := log s |}).

Definition get_log : M (list Event) := fun s => (Normal (log s), s).

Definition emit (ev : Event) : M unit := fun s =>
  (Normal tt,
   {| isDisposed := isDisposed s; timeout := timeout s; pending := pending s;
      timers := timers s; nextTimerId := nextTimerId s;
      log := log s ++ [ev] |}).

(** Attaching handlers to a promise leaves a reaction with the host. *)
Definition register (p : Pending) : M unit := fun s =>
  (Normal tt,
   {| isDisposed := isDisposed s; timeout := timeout s; pending := Some p;
      timers := timers s; nextTimerId := nextTimerId s; log := log s |}).

Definition take_pending : M (option Pending) := fun s =>
  (Normal (pending s),
   {| isDisposed := isDisposed s; timeout := timeout s; pending := None;
      timers := timers s; nextTimerId := nextTimerId s; log := log s |}).

(** [setTimeout(callback, delay)] returns a fresh, truthy identifier. *)
Definition setTimeout (callback : TimerCallback) (delay : Z) : M nat := fun s =>
  (Normal (nextTimerId s),
   {| isDisposed := isDisposed s; timeout := timeout s; pending := pending s;
      timers := timers s ++
        [{| timer_id := nextTimerId s; timer_callback := callback;
            timer_delay := delay |}];
      nextTimerId := S (nextTimerId s); log := log s |}).

Definition without_timer (id : nat) (ts : list Timer) : list Timer :=
  filter (fun t => negb (Nat.eqb (timer_id t) id)) ts.

(** [clearTimeout(id)]: without effect when the timer has fired already. *)
Definition clearTimeout (id : nat) : M unit := fun s =>
  (Normal tt,
   {| isDisposed := isDisposed s; timeout := timeout s; pending := pending s;
      timers := without_timer id (timers s);
      nextTimerId := nextTimerId s; log := log s |}).

(** The host picks the timer [id] to fire it. *)
Definition take_timer (id : nat) : M (option TimerCallback) := fun s =>
  (Normal (option_map timer_callback
             (find (fun t => Nat.eqb (timer_id t) id) (timers s))),
   {| isDisposed := isDisposed s; timeout := timeout s; pending := pending s;
      timers := without_timer id (timers s);
      nextTimerId := nextTimerId s; log := log s |}).

(** [invariant(condition, format, ...args)] *)
Definition invariant (condition : bool) (format : string) (args : list string)
  : M unit :=
  if condition then ret tt else throw (invariant_violation format args).

(** ** Promise reactions *)

(** A handler run as a promise reaction: what it returns fulfils the derived
    promise, what it throws rejects it. *)
Definition reaction_of {A : Type} (m : M A) : M (Settled A) := fun s =>
  match m s with
  | (Normal a, s') => (Normal (Fulfilled a), s')
  | (Throw e, s') => (Normal (Rejected e), s')
  end.

(** [promise.then(onFulfilled, onRejected)], once [promise] has settled.  With
    no [onRejected], a rejection passes through to the derived promise. *)
Definition then_ {A B : Type} (promise : Settled A) (onFulfilled : A -> M B)
  (onRejected : option (JsError -> M B)) : M (Settled B) :=
  match promise with
  | Fulfilled value => reaction_of (onFulfilled value)
  | Rejected reason =>
      match onRejected with
      | Some handler => reaction_of (handler reason)
      | None => ret (Rejected reason)
      end
  end.

(** [promise.catch(onRejected)], once [promise] has settled. *)
Definition catch_ {A : Type} (promise : Settled A) (onRejected : JsError -> M A)
  : M (Settled A) :=
  match promise with
  | Fulfilled value => ret (Fulfilled value)
  | Rejected reason => reaction_of (onRejected reason)
  end.

(** The last promise of a chain has no handler: the host reports its
    rejection. *)
Definition unhandled {A : Type} (promise : Settled A) : M unit :=
  match promise with
  | Fulfilled _ => ret tt
  | Rejected reason => emit (EvUncaught reason)
  end.

(** ** Handles and observers *)

(** The [Disposable] that [requestStream] returns: the object literal of the
    one-shot path, [{dispose}] of the poller, or whatever [subscribe]
    returned. *)
Inductive Disposable : Type :=
| RequestStreamHandle
| PollingHandle
| SubscriptionDisposable (d : SubscriptionHandle).

(** [dispose() { isDisposed = true; }] of the one-shot path. *)
Definition requestStream_dispose : M unit := set_isDisposed true.

(** [dispose] of [doFetchWithPolling]. *)
Definition dispose : M unit :=
  d <- get_isDisposed ;;
  if negb d then
    set_isDisposed true ;;
    t <- get_timeout ;;
    match t with
    | Some id => clearTimeout id
    | None => ret tt
    end
  else ret tt.

(** [handle.dispose()], called from outside the module.  The handle of a
    subscription is the object that the subscribe primitive returned: its
    [dispose] is not code of this module, and nothing of this module's state
    is touched by it. *)
Definition handle_dispose (handle : Disposable) : M unit :=
  emit EvDispose ;;
  match handle with
  | RequestStreamHandle => requestStream_dispose
  | PollingHandle => dispose
  | SubscriptionDisposable _ => ret tt
  end.

(** [callback && callback(...)]: the call is logged, then the observer's code
    runs, which may dispose the handle and may throw. *)
Definition invoke (handle : Disposable) (ev : Event)
  (callback : option (list Event -> Reaction)) : M unit :=
  match callback with
  | None => ret tt
  | Some f =>
      history <- get_log ;;
      emit ev ;;
      (if disposes (f history) then handle_dispose handle else ret tt) ;;
      match throws (f history) with
      | Some e => throw e
      | None => ret tt
      end
  end.

Definition call_onNext (handle : Disposable) (observer : Observer)
  (payload : option RelayResponsePayload) : M unit :=
  invoke handle (EvOnNext payload) (option_map (fun f => f payload) (onNext observer)).

Definition call_onError (handle : Disposable) (observer : Observer)
  (error : JsError) : M unit :=
  invoke handle (EvOnError error) (option_map (fun f => f error) (onError observer)).

Definition call_onCompleted (handle : Disposable) (observer : Observer) : M unit :=
  invoke handle EvOnCompleted (onCompleted observer).

(** ** The closures of [requestStream] *)

(** The wrapped [onNext] handed to [subscribe]. *)
Definition subscribe_onNext (handle : Disposable) (operation : ConcreteBatch)
  (variables : Variables) (observer : Observer) (payload : RawValue) : M unit :=
  match normalizePayload operation variables payload with
  | Throw err => call_onError handle observer err
  | Normal relayPayload => call_onNext handle observer (Some relayPayload)
  end.

Definition requestStream_onRequestSuccess (operation : ConcreteBatch)
  (variables : Variables) (observer : Observer) (payload : RawValue) : M unit :=
  d <- get_isDisposed ;;
  if d then ret tt
  else
    match normalizePayload operation variables payload with
    | Throw err => call_onError RequestStreamHandle observer err
    | Normal relayPayload =>
        call_onNext RequestStreamHandle observer (Some relayPayload) ;;
        call_onCompleted RequestStreamHandle observer
    end.

Definition requestStream_onRequestError (observer : Observer) (error : JsError)
  : M unit :=
  d <- get_isDisposed ;;
  if d then ret tt
  else call_onError RequestStreamHandle observer error.

(** ** [doFetchWithPolling] *)

Section doFetchWithPolling.

Variable request :
  ConcreteBatch -> Variables -> option CacheConfig -> option UploadableMap ->
  M RequestResponse.
Variable operation : ConcreteBatch.
Variable variables : Variables.
Variable observer : Observer.
Variable pollInterval : Z.

Definition poll_onRequestSuccess (payload : option RelayResponsePayload)
  : M unit :=
  call_onNext PollingHandle observer payload ;;
  id <- setTimeout (TimerPoll pollInterval) pollInterval ;;
  set_timeout (Some id).

Definition poll_onRequestError (error : JsError) : M unit :=
  dispose ;;
  call_onError PollingHandle observer error.

(** [rethrow(err)]: throw from a timer, outside the promise chain. *)
Definition rethrow (err : JsError) : M unit :=
  _ <- setTimeout (TimerThrow err) 0 ;;
  ret tt.

(** The body of [poll]: the request, the choice of [promise], and the
    registration of the reaction.  An unknown kind leaves [promise]
    undefined, and [promise && ...] then does nothing. *)
Definition poll : M unit :=
  requestResponse <- request operation variables (Some force_true) None ;;
  let promise :=
    match requestResponse with
    | KindData data => Some (Promise_resolve data)
    | KindError error => Some (Promise_reject error)
    | KindPromise promise => Some (RequestPromise promise)
    | KindOther _ => None
    end in
  match promise with
  | Some p => register (PollReaction pollInterval p)
  | None => ret tt
  end.

(** [promise.then(payload => { onRequestSuccess(payload); }, onRequestError)
    .catch(rethrow)], once [promise] has settled. *)
Definition poll_reaction (promise : Settled (option RelayResponsePayload))
  : M unit :=
  handled <- then_ promise (fun payload => poll_onRequestSuccess payload)
               (Some poll_onRequestError) ;;
  caught <- catch_ handled rethrow ;;
  unhandled caught.

Definition doFetchWithPolling : M Disposable :=
  invariant (0 <? pollInterval)%Z
    "RelayNetwork: Expected pollInterval to be positive, got `%s`."
    [string_of_number pollInterval] ;;
  set_isDisposed false ;;
  set_timeout None ;;
  poll ;;
  ret PollingHandle.

End doFetchWithPolling.

(** ** [create(fetch, subscribe)] *)

Section create.

(** The fetch primitive is foreign and may answer differently each time: it
    sees what happened so far. *)
Variable fetch :
  list Event -> ConcreteBatch -> Variables -> option CacheConfig ->
  option UploadableMap -> FetchResponse.
Variable subscribe :
  option (ConcreteBatch -> Variables -> option CacheConfig -> SubscriptionHandle).

Definition call_fetch (operation : ConcreteBatch) (variables : Variables)
  (cacheConfig : option CacheConfig) (uploadables : option UploadableMap)
  : M FetchResponse :=
  history <- get_log ;;
  emit (EvFetch operation variables cacheConfig uploadables) ;;
  ret (fetch history operation variables cacheConfig uploadables).

Definition request (operation : ConcreteBatch) (variables : Variables)
  (cacheConfig : option CacheConfig) (uploadables : option UploadableMap)
  : M RequestResponse :=
  let onSuccess := fun payload => normalizePayload operation variables payload in
  response <- call_fetch operation variables cacheConfig uploadables ;;
  match response with
  | KindPromise promise => ret (KindPromise (promise_then promise onSuccess))
  | KindData data =>
      (* (response.data && onSuccess(response.data)) || null *)
      normalized <- (if truthy data
                     then r <- lift (onSuccess data) ;; ret (Some r)
                     else ret None) ;;
      ret (KindData normalized)
  | KindError error => ret (KindError error)
  | KindOther k =>
      throw (invariant_violation
               "RelayNetwork: unsupported response kind `%s`" [k])
  end.

Definition subscriptions_unsupported : string :=
  ("The default network layer does not support GraphQL Subscriptions. To use "
   ++ "Subscriptions, provide a custom network layer.")%string.

Definition requestStream (operation : ConcreteBatch) (variables : Variables)
  (cacheConfig : option CacheConfig) (observer : Observer) : M Disposable :=
  if String.eqb (query_operation (query operation)) "subscription" then
    match subscribe with
    | None => throw (invariant_violation subscriptions_unsupported [])
    | Some subscribe_fn =>
        emit (EvSubscribe operation variables) ;;
        ret (SubscriptionDisposable (subscribe_fn operation variables None))
    end
  else
    let pollInterval := pollInterval_of cacheConfig in
    match pollInterval with
    | Some interval =>
        doFetchWithPolling request operation variables interval
    | None =>
        set_isDisposed false ;;
        requestResponse <- call_fetch operation variables cacheConfig None ;;
        match requestResponse with
        | KindData data => register (StreamData data)
        | KindError error => register (StreamError error)
        | KindPromise promise => register (StreamPromise promise)
        | KindOther _ => ret tt
        end ;;
        ret RequestStreamHandle
    end.

(** ** The host: running reactions and timers, disposing the handle *)

Section Execution.

Variable operation : ConcreteBatch.
Variable variables : Variables.
Variable observer : Observer.

(** The reaction [p] runs; [original] is how the promise of the fetch
    response settled (unused where the awaited promise was created settled). *)
Definition deliver (p : Pending) (original : Settled RawValue) : M unit :=
  match p with
  | StreamData data =>
      derived <- then_ (Fulfilled data)
                   (requestStream_onRequestSuccess operation variables observer)
                   None ;;
      unhandled derived
  | StreamError error =>
      derived <- then_ (Rejected error)
                   (requestStream_onRequestError observer) None ;;
      unhandled derived
  | StreamPromise _ =>
      derived <- then_ original
                   (requestStream_onRequestSuccess operation variables observer)
                   (Some (requestStream_onRequestError observer)) ;;
      unhandled derived
  | PollReaction pollInterval promise =>
      poll_reaction observer pollInterval (settle_poll promise original)
  end.

(** What the environment can do between two turns of the module. *)
Inductive Input : Type :=
| Dispose
| Settle (original : Settled RawValue)
| Fire (id : nat).

Definition turn (handle : Disposable) (i : Input) : M unit :=
  match i with
  | Dispose => handle_dispose handle
  | Settle original =>
      p <- take_pending ;;
      match p with
      | Some reaction => deliver reaction original
      | None => ret tt
      end
  | Fire id =>
      callback <- take_timer id ;;
      match callback with
      | Some (TimerPoll pollInterval) =>
          poll request operation variables pollInterval
      | Some (TimerThrow err) => throw err
      | None => ret tt
      end
  end.

(** One turn; an exception that escapes the turn is reported by the host. *)
Definition step (handle : Disposable) (i : Input) (s : State) : State :=
  match turn handle i s with
  | (Normal _, s') => s'
  | (Throw e, s') => snd (emit (EvUncaught e) s')
  end.

Fixpoint run (handle : Disposable) (inputs : list Input) (s : State) : State :=
  match inputs with
  | [] => s
  | i :: rest => run handle rest (step handle i s)
  end.

End Execution.

End create.

(** ** Observations on states and logs *)

Definition is_poll_timer (t : Timer) : bool :=
  match timer_callback t with
  | TimerPoll _ => true
  | TimerThrow _ => false
  end.

(** The timers that will start a poll tick when they fire. *)
Definition poll_timers (s : State) : list Timer :=
  filter is_poll_timer (timers s).

Definition is_onError (ev : Event) : bool :=
  match ev with
  | EvOnError _ => true
  | _ => false
  end.

(** The calls of [onError], in order. *)
Definition onError_calls (log : list Event) : list Event := filter is_onError log.

(** An event that is neither a call of the fetch primitive nor a callback of
    the observer. *)
Definition is_silent (ev : Event) : bool :=
  negb (is_fetch ev) && negb (is_callback ev).

(** A call of the fetch primitive, if [ev] is one, is a call made by [poll]:
    for this operation and these variables, with the cache configuration
    [{force: true}] and without uploadables. *)
Definition tick_fetch (operation : ConcreteBatch) (variables : Variables)
  (ev : Event) : Prop :=
  match ev with
  | EvFetch o v c u =>
      o = operation /\ v = variables /\ c = Some force_true /\ u = None
  | _ => True
  end.

(** The callbacks a one-shot stream may have made: none, [onNext] alone,
    [onNext] then [onCompleted], [onCompleted] alone, or [onError] alone. *)
Definition one_shot_callbacks (cbs : list Event) : Prop :=
  cbs = []
  \/ (exists r, cbs = [EvOnNext (Some r)])
  \/ (exists r, cbs = [EvOnNext (Some r); EvOnCompleted])
  \/ cbs = [EvOnCompleted]
  \/ (exists e, cbs = [EvOnError e]).

(** The state of a polling execution between two turns: while a reaction is
    pending no timer is, at most one poll timer is pending otherwise, and as
    long as either is pending [onError] has not been called. *)
Definition polling (s : State) : Prop :=
  match pending s with
  | Some (PollReaction _ _) => poll_timers s = [] /\ onError_calls (log s) = []
  | Some _ => False
  | None =>
      length (poll_timers s) <= 1
      /\ (poll_timers s <> [] -> onError_calls (log s) = [])
  end.

(** [ts'] is [ts] with some timers cleared. *)
Definition shrinks (ts' ts : list Timer) : Prop :=
  exists keep, ts' = filter keep ts.

(** A polling execution that has stopped: nothing is pending. *)
Definition stopped (s : State) : Prop :=
  pending s = None /\ poll_timers s = [].

(** The state of a one-shot stream between two turns. *)
Definition one_shot (s : State) : Prop :=
  timers s = []
  /\ match pending s with
     | Some (PollReaction _ _) => False
     | Some _ => callbacks (log s) = []
     | None => one_shot_callbacks (callbacks (log s))
     end.

(** ** Further observations, for polling executions *)

Definition is_onNext (ev : Event) : bool :=
  match ev with
  | EvOnNext _ => true
  | _ => false
  end.

(** The calls of [onNext], in order. *)
Definition onNext_calls (log : list Event) : list Event := filter is_onNext log.

(** An event a poller can cause: anything but a call of [onCompleted] or of
    the subscribe primitive. *)
Definition poller_event (ev : Event) : bool :=
  match ev with
  | EvOnCompleted | EvSubscribe _ _ => false
  | _ => true
  end.

(** The bookkeeping of a polling execution with poll interval [interval]:
    timer identifiers are fresh, a pending poll timer is the one whose
    identifier [timeout] holds and it waits for [interval], and a pending
    reaction is that of a tick of this execution. *)
Definition poll_schedule (interval : Z) (s : State) : Prop :=
  Forall (fun t => timer_id t < nextTimerId s) (timers s)
  /\ Forall (fun t => is_poll_timer t = true ->
                      timeout s = Some (timer_id t)
                      /\ timer_callback t = TimerPoll interval
                      /\ timer_delay t = interval) (timers s)
  /\ forall i p, pending s = Some (PollReaction i p) -> i = interval.

(** Ticks against deliveries: while a reaction is pending its tick's fetch is
    the one call not yet answered by [onNext]; while a poll timer is pending
    every fetch has been answered. *)
Definition poll_progress (s : State) : Prop :=
  match pending s with
  | Some _ => length (fetches (log s)) = length (onNext_calls (log s)) + 1
  | None => length (fetches (log s)) <= length (onNext_calls (log s)) + 1
  end
  /\ (poll_timers s <> [] ->
      length (fetches (log s)) = length (onNext_calls (log s))).

(** The reaction pending in a polling execution is that of the last call of
    the fetch primitive: the call was made by [poll], and the reaction awaits
    the promise that [poll] chose for the answer ([request] has normalized a
    truthy payload of a [data] envelope by then, and has derived its own
    promise from that of a [promise] envelope). *)
Definition awaits_last_fetch
  (fetch : list Event -> ConcreteBatch -> Variables -> option CacheConfig ->
           option UploadableMap -> FetchResponse)
  (operation : ConcreteBatch) (variables : Variables) (s : State) : Prop :=
  forall pollInterval promise,
    pending s = Some (PollReaction pollInterval promise) ->
    exists history rest,
      log s = history ++ EvFetch operation variables (Some force_true) None :: rest
      /\ fetches rest = []
      /\ match fetch history operation variables (Some force_true) None with
         | KindData raw =>
             if truthy raw
             then exists r, normalizePayload operation variables raw = Normal r
                            /\ promise = Promise_resolve (Some r)
             else promise = Promise_resolve None
         | KindError error => promise = Promise_reject error
         | KindPromise q =>
             promise = RequestPromise
                         (promise_then q (normalizePayload operation variables))
         | KindOther _ => False
         end.

(** The event of a callback, when the observer has the handler. *)
Definition called {A : Type} (handler : option A) (ev : Event) : list Event :=
  match handler with
  | Some _ => [ev]
  | None => []
  end.

(** The callbacks of a one-shot stream for a payload, at the moment
    [history]: [onError] when the payload does not normalize; otherwise
    [onNext] and then, unless [onNext] threw, [onCompleted]. *)
Definition one_shot_delivery (observer : Observer) (history : list Event)
  (normalized : Completion RelayResponsePayload) : list Event :=
  match normalized with
  | Throw err => called (onError observer) (EvOnError err)
  | Normal r =>
      called (onNext observer) (EvOnNext (Some r))
      ++ match option_map (fun f => throws (f (Some r) history))
                 (onNext observer) with
         | Some (Some _) => []
         | _ => called (onCompleted observer) EvOnCompleted
         end
  end.

(** The callback of a poller for the outcome of a tick. *)
Definition delivered (observer : Observer)
  (outcome : Settled (option RelayResponsePayload)) : list Event :=
  match outcome with
  | Fulfilled payload => called (onNext observer) (EvOnNext payload)
  | Rejected error => called (onError observer) (EvOnError error)
  end.

End RelayNetwork.

Arguments Normal {Variables A} value.
Arguments Throw {Variables A} error.
Arguments Fulfilled {Variables A} value.
Arguments Rejected {Variables A} reason.
Arguments KindData {Variables D P} data.
Arguments KindError {Variables D P} error.
Arguments KindPromise {Variables D P} promise.
Arguments KindOther {Variables D P} kind.
Arguments promise_then {PayloadData Variables A} promise onFulfilled.

(** The spec's reading of a poll tick's cache configuration: the original
    configuration with [force] set to [true], every other field kept. *)
Definition merge_force_true {Metadata : Type} (config : @CacheConfig Metadata)
  : @CacheConfig Metadata :=
  {| force := Some true;
     cacheConfig_poll := cacheConfig_poll config;
     liveConfigId := liveConfigId config;
     metadata := metadata config;
     transactionId := transactionId config |}.

(** ** A concrete network, for the executable scenarios *)

Module Scenario.

Definition ROOT_ID : string := "client:root".

(** Payload data, variables, metadata and normalized payloads are pieces of
    text here; there are no uploadables; a subscription handle is a number. *)
Definition Ev : Type :=
  @Event string unit string string.

Definition normalizeRelayPayload (selector : @Selector string) (d : string)
  (errs : Nullable (list PayloadError)) (options : NormalizeOptions)
  : @Completion string string :=
  Normal ("normalized " ++ d)%string.

Definition Q : ConcreteBatch :=
  {| batch_name := "Q"; query := {| query_operation := "query" |} |}.

Definition Sub : ConcreteBatch :=
  {| batch_name := "S"; query := {| query_operation := "subscription" |} |}.

Definition vars : string := "{id: 1}".

Definition poll_1000 : @CacheConfig string :=
  {| force := None; cacheConfig_poll := Some 1000%Z; liveConfigId := None;
     metadata := Some "meta"; transactionId := None |}.

Definition quiet : @Reaction string := {| disposes := false; throws := None |}.

Definition disposing : @Reaction string := {| disposes := true; throws := None |}.

(** An observer with all three handlers, none of which does anything. *)
Definition listener : @Observer string unit string string :=
  {| onCompleted := Some (fun _ => quiet);
     onError := Some (fun _ _ => quiet);
     onNext := Some (fun _ _ => quiet) |}.

(** An observer whose [onNext] disposes the handle. *)
Definition one_and_done : @Observer string unit string string :=
  {| onCompleted := Some (fun _ => quiet);
     onError := Some (fun _ _ => quiet);
     onNext := Some (fun _ _ => disposing) |}.

(** [{data: "A"}] *)
Definition payload_A : @RawValue string :=
  RawObject {| data := Defined "A"; errors := Undefined |}.

(** [{errors: [{message: "boom"}]}] *)
Definition payload_boom : @RawValue string :=
  RawObject {| data := Undefined; errors := Defined [{| message := "boom" |}] |}.

Definition Fetch : Type :=
  list Ev -> ConcreteBatch -> string -> option (@CacheConfig string) ->
  option unit -> @FetchResponse string string.

Definition fetch_deferred : Fetch := fun _ _ _ _ _ => KindPromise fetch_promise.

Definition fetch_data (raw : @RawValue string) : Fetch :=
  fun _ _ _ _ _ => KindData raw.

Definition fetch_error : Fetch :=
  fun _ _ _ _ _ => KindError (OtherError "offline").

Definition fetch_bogus : Fetch := fun _ _ _ _ _ => KindOther "stream".

Definition subscribe_fn (operation : ConcreteBatch) (variables : string)
  (cacheConfig : option (@CacheConfig string)) : nat := 7.

Definition request (fetch : Fetch) :=
  request ROOT_ID normalizeRelayPayload fetch.

Definition requestStream (fetch : Fetch)
  (subscribe : option (ConcreteBatch -> string -> option (@CacheConfig string) -> nat)) :=
  requestStream ROOT_ID normalizeRelayPayload fetch subscribe.

Definition run (fetch : Fetch) :=
  run (SubscriptionHandle := nat) ROOT_ID normalizeRelayPayload fetch.

Definition offline : @JsError string := OtherError "offline".

(** Polling [Q] every second against a fetch primitive that answers with a
    promise: the state when [requestStream] has returned. *)
Definition polling_start : @State string string unit string string :=
  snd (requestStream fetch_deferred None Q vars (Some poll_1000) listener init).

(** A one-shot stream of [Q] against the same fetch primitive: the state when
    [requestStream] has returned. *)
Definition one_shot_start (observer : @Observer string unit string string)
  : @State string string unit string string :=
  snd (requestStream fetch_deferred None Q vars None observer init).

(** [{poll: 0}] *)
Definition poll_0 : @CacheConfig string :=
  {| force := None; cacheConfig_poll := Some 0%Z; liveConfigId := None;
     metadata := None; transactionId := None |}.

Definition handler_error : @JsError string := OtherError "handler".

Definition throwing : @Reaction string :=
  {| disposes := false; throws := Some handler_error |}.

(** An observer whose [onNext] throws. *)
Definition thrower : @Observer string unit string string :=
  {| onCompleted := Some (fun _ => quiet);
     onError := Some (fun _ _ => quiet);
     onNext := Some (fun _ _ => throwing) |}.

(** An observer that only listens to [onNext]. *)
Definition next_only : @Observer string unit string string :=
  {| onCompleted := None; onError := None; onNext := Some (fun _ _ => quiet) |}.

(** Polling [Q] every second with the given observer, against a fetch
    primitive that answers with a promise: the state when [requestStream] has
    returned. *)
Definition polling_from (observer : @Observer string unit string string)
  : @State string string unit string string :=
  snd (requestStream fetch_deferred None Q vars (Some poll_1000) observer init).

(** The same execution after its first tick has delivered [{data: "A"}]: the
    timer of the second tick is set. *)
Definition between_ticks : @State string string unit string string :=
  run fetch_deferred Q vars listener PollingHandle
    [Settle (Fulfilled payload_A)] polling_start.

(** The promise that [request] derives from the promise of the fetch. *)
Definition request_promise : @Promise string string string :=
  promise_then fetch_promise (normalizePayload ROOT_ID normalizeRelayPayload Q vars).

(** A fetch primitive that answers its first call with [{data: "A"}] in a
    [data] envelope and every later call with an [error] envelope. *)
Definition fetch_flaky : Fetch :=
  fun history _ _ _ _ =>
    match history with
    | [] => KindData payload_A
    | _ => KindError (OtherError "offline")
    end.

(** Polling [Q] every second against it: the first tick is delivered, the
    timer fires, and the handle is disposed while the reaction of the second
    tick is pending. *)
Definition second_tick_pending : @State string string unit string string :=
  run fetch_flaky Q vars listener PollingHandle
    [Settle (Fulfilled RawNull); Fire 1; Dispose]
    (snd (requestStream fetch_flaky None Q vars (Some poll_1000) listener init)).

End Scenario.

(** * Properties *)

(** ** Strings *)

Lemma append_assoc (a b c : string) :
  ((a ++ b) ++ c = a ++ (b ++ c))%string.
Proof.
  induction a as [|ch a IH]; simpl.
  - reflexivity.
  - now rewrite IH.
Qed.

Lemma append_empty_r (a : string) : (a ++ EmptyString = a)%string.
Proof.
  induction a as [|ch a IH]; simpl; [reflexivity | now rewrite IH].
Qed.

Lemma Contains_refl (x : string) : Contains x x.
Proof.
  exists EmptyString, EmptyString. simpl. now rewrite append_empty_r.
Qed.

Lemma Contains_append_l (x a b : string) :
  Contains x b -> Contains x (a ++ b)%string.
Proof.
  intros (before & after & ->).
  exists (a ++ before)%string, after. now rewrite append_assoc.
Qed.

Lemma Contains_append_r (x a b : string) :
  Contains x a -> Contains x (a ++ b)%string.
Proof.
  intros (before & after & ->).
  exists before, (after ++ b)%string. now rewrite !append_assoc.
Qed.

Lemma prefix_split (p s : string) :
  prefix p s = true -> exists rest, s = (p ++ rest)%string.
Proof.
  revert s. induction p as [|c p IH]; intros s H.
  - exists s. reflexivity.
  - destruct s as [|d s]; simpl in H; [discriminate|].
    destruct (ascii_dec c d) as [->|]; [|discriminate].
    destruct (IH s H) as [rest ->]. now exists rest.
Qed.

Lemma includes_Contains (needle haystack : string) :
  includes needle haystack = true -> Contains needle haystack.
Proof.
  induction haystack as [|c h IH]; cbn [includes].
  - destruct (prefix needle EmptyString) eqn:E; intros H; [|discriminate H].
    destruct (prefix_split _ _ E) as [rest Hrest].
    exists EmptyString, rest. exact Hrest.
  - destruct (prefix needle (String c h)) eqn:E; intros H.
    + destruct (prefix_split _ _ E) as [rest Hrest].
      exists EmptyString, rest. exact Hrest.
    + destruct (IH H) as (before & after & ->).
      exists (String c before), after. reflexivity.
Qed.

Lemma join_Contains (sep : string) (parts : list string) (p : string) :
  In p parts -> Contains p (join sep parts).
Proof.
  induction parts as [|q rest IH]; intros Hin; [contradiction|].
  destruct Hin as [->|Hin].
  - destruct rest as [|r rest]; simpl.
    + apply Contains_refl.
    + apply Contains_append_r, Contains_refl.
  - destruct rest as [|r rest]; [contradiction|].
    change (join sep (q :: r :: rest))
      with (q ++ sep ++ join sep (r :: rest))%string.
    now apply Contains_append_l, Contains_append_l, IH.
Qed.

Section Properties.

Context {PayloadData Variables UploadableMap Metadata RelayResponsePayload
         SubscriptionHandle : Type}.

Variable ROOT_ID : string.
Variable normalizeRelayPayload :
  @Selector Variables -> PayloadData -> Nullable (list PayloadError) ->
  NormalizeOptions -> @Completion Variables RelayResponsePayload.

Local Abbreviation Fetch :=
  (list (@Event Variables UploadableMap Metadata RelayResponsePayload) ->
   ConcreteBatch -> Variables -> option (@CacheConfig Metadata) ->
   option UploadableMap -> @FetchResponse PayloadData Variables).
Local Abbreviation Subscribe :=
  (ConcreteBatch -> Variables -> option (@CacheConfig Metadata) ->
   SubscriptionHandle).
Local Abbreviation Event' :=
  (@Event Variables UploadableMap Metadata RelayResponsePayload).
Local Abbreviation State' :=
  (@State PayloadData Variables UploadableMap Metadata RelayResponsePayload).
Local Abbreviation normalize' := (normalizePayload ROOT_ID normalizeRelayPayload).
Local Abbreviation request' := (request ROOT_ID normalizeRelayPayload).
Local Abbreviation requestStream' :=
  (requestStream (SubscriptionHandle := SubscriptionHandle)
     ROOT_ID normalizeRelayPayload).
Local Abbreviation poll_reaction' :=
  (poll_reaction (SubscriptionHandle := SubscriptionHandle)).
Local Abbreviation doFetchWithPolling' :=
  (doFetchWithPolling (SubscriptionHandle := SubscriptionHandle)).
Local Abbreviation onRequestSuccess' :=
  (requestStream_onRequestSuccess (SubscriptionHandle := SubscriptionHandle)
     ROOT_ID normalizeRelayPayload).
Local Abbreviation onRequestError' :=
  (requestStream_onRequestError (SubscriptionHandle := SubscriptionHandle)
     (PayloadData := PayloadData)).
Local Abbreviation deliver' :=
  (deliver (SubscriptionHandle := SubscriptionHandle)
     ROOT_ID normalizeRelayPayload).
Local Abbreviation step' :=
  (step (SubscriptionHandle := SubscriptionHandle)
     ROOT_ID normalizeRelayPayload).
Local Abbreviation run' :=
  (run (SubscriptionHandle := SubscriptionHandle)
     ROOT_ID normalizeRelayPayload).

(** Unfolding the monad and its primitive operations. *)
Ltac unfold_M :=
  unfold bind, ret, throw, lift, get_isDisposed, set_isDisposed, get_timeout,
    set_timeout, get_log, emit, register, take_pending, setTimeout,
    clearTimeout, take_timer, invariant, reaction_of, then_, catch_, unhandled
    in *.

(** ** [normalizePayload] on a payload without data *)

Lemma no_data_message (operation : ConcreteBatch) (variables : Variables)
  (errs : Nullable (list PayloadError)) :
  error_message (no_data_error operation variables errs) =
  ("No data returned for operation `" ++ batch_name operation
   ++ "`, got error(s):" ++ LF ++ errors_text errs ++ LF ++ LF
   ++ "See the error `source` property for more information.")%string.
Proof. reflexivity. Qed.

Lemma no_data_message_Contains (operation : ConcreteBatch)
  (variables : Variables) (errs : Nullable (list PayloadError)) :
  Contains (errors_text errs)
    (error_message (no_data_error operation variables errs)).
Proof.
  rewrite no_data_message.
  do 4 apply Contains_append_l.
  apply Contains_append_r, Contains_refl.
Qed.

Lemma Contains_trans (x y z : string) :
  Contains x y -> Contains y z -> Contains x z.
Proof.
  intros (b1 & a1 & ->) (b2 & a2 & ->).
  exists (b2 ++ b1)%string, (a1 ++ a2)%string.
  now rewrite !append_assoc.
Qed.

(** C6. For a raw payload object whose [data] is absent or null,
    [normalizePayload] throws the synthesized error: its message is the fixed
    text around the operation name and the server's error messages joined by
    line feeds (so it contains each of them), or around the marker
    [(No errors)] when there is no [errors] array; its [source] holds the raw
    errors, the operation and the variables.  [request] fails with that very
    error when the fetch answers with such a payload in a [data] envelope. *)
Theorem normalizePayload_without_data :
  forall (operation : ConcreteBatch) (variables : Variables)
         (payload : QueryPayload),
    data payload = Undefined \/ data payload = Null ->
    exists error : RelayError,
      normalize' operation variables (RawObject payload) = Throw (RelayErr error)
      /\ error_message error =
         ("No data returned for operation `" ++ batch_name operation
          ++ "`, got error(s):" ++ LF ++ errors_text (errors payload) ++ LF ++ LF
          ++ "See the error `source` property for more information.")%string
      /\ (forall errs, errors payload = Defined errs ->
            errors_text (errors payload) = join LF (map message errs)
            /\ forall e, In e errs -> Contains (message e) (error_message error))
      /\ (errors payload = Undefined \/ errors payload = Null ->
            Contains "(No errors)" (error_message error))
      /\ error_source error =
         Some {| source_errors := errors payload;
                 source_operation := operation;
                 source_variables := variables |}
      /\ (forall (fetch : Fetch) cacheConfig uploadables (s : State'),
            fetch (log s) operation variables cacheConfig uploadables
            = KindData (RawObject payload) ->
            fst (request' fetch operation variables cacheConfig uploadables s)
            = Throw (RelayErr error)).
Proof.
  intros operation variables payload Hdata.
  exists (no_data_error operation variables (errors payload)).
  assert (Hnorm : normalize' operation variables (RawObject payload)
                  = Throw (RelayErr (no_data_error operation variables
                                       (errors payload)))).
  { unfold normalizePayload; simpl. destruct Hdata as [-> | ->]; reflexivity. }
  split; [exact Hnorm|].
  split; [apply no_data_message|].
  split.
  { intros errs Herrs. split; [now rewrite Herrs|].
    intros e Hin.
    apply Contains_trans with (y := errors_text (errors payload)).
    - rewrite Herrs. simpl. apply join_Contains, in_map, Hin.
    - apply no_data_message_Contains. }
  split.
  { intros Hnone.
    replace "(No errors)" with (errors_text (errors payload))
      by (destruct Hnone as [-> | ->]; reflexivity).
    apply no_data_message_Contains. }
  split; [reflexivity|].
  intros fetch cacheConfig uploadables s Hfetch.
  unfold request, call_fetch, bind, get_log, emit, ret, lift.
  simpl. rewrite Hfetch. simpl. rewrite Hnorm. reflexivity.
Qed.

(** ** [request] *)

Lemma request_unfold (fetch : Fetch) operation variables cacheConfig uploadables
  (s : State') :
  request' fetch operation variables cacheConfig uploadables s
  = let s1 := snd (emit (EvFetch operation variables cacheConfig uploadables) s) in
    match fetch (log s) operation variables cacheConfig uploadables with
    | KindPromise promise =>
        (Normal (KindPromise (promise_then promise (normalize' operation variables))), s1)
    | KindData raw =>
        if truthy raw then
          match normalize' operation variables raw with
          | Normal r => (Normal (KindData (Some r)), s1)
          | Throw e => (Throw e, s1)
          end
        else (Normal (KindData None), s1)
    | KindError error => (Normal (KindError error), s1)
    | KindOther k =>
        (Throw (invariant_violation
                  "RelayNetwork: unsupported response kind `%s`" [k]), s1)
    end.
Proof.
  unfold request, call_fetch. unfold_M. simpl.
  destruct (fetch (log s) operation variables cacheConfig uploadables)
    as [raw | error | promise | k]; try reflexivity.
  destruct (truthy raw); [|reflexivity].
  destruct (normalizePayload ROOT_ID normalizeRelayPayload operation variables raw);
    reflexivity.
Qed.

Lemma falsy_never_normalizes operation variables (raw : @RawValue PayloadData) :
  truthy raw = false -> forall r, normalize' operation variables raw <> Normal r.
Proof.
  intros Hfalsy r. unfold normalizePayload.
  destruct raw; simpl in *; try discriminate.
Qed.

(** C10. When the fetch answers with a [data] envelope whose payload is
    [null] or otherwise falsy, [request] returns a [data] envelope holding
    [null], whatever the normalizer is; [normalizePayload] was not applied to
    that payload, on which it can only throw.  Conversely an error thrown by
    [request] on a [data] envelope comes from [normalizePayload] applied to a
    truthy payload. *)
Theorem request_falsy_data_is_null :
  forall (fetch : Fetch) operation variables cacheConfig uploadables
         (s : State') (raw : RawValue),
    fetch (log s) operation variables cacheConfig uploadables = KindData raw ->
    (truthy raw = false ->
       fst (request' fetch operation variables cacheConfig uploadables s)
       = Normal (KindData None)
       /\ forall r, normalize' operation variables raw <> Normal r)
    /\ (forall e,
          fst (request' fetch operation variables cacheConfig uploadables s)
          = Throw e ->
          truthy raw = true /\ normalize' operation variables raw = Throw e).
Proof.
  intros fetch operation variables cacheConfig uploadables s raw Hfetch.
  rewrite request_unfold, Hfetch. cbv zeta. split.
  - intros Hfalsy. rewrite Hfalsy. split; [reflexivity|].
    now apply falsy_never_normalizes.
  - intros e. destruct (truthy raw); [|discriminate].
    destruct (normalizePayload ROOT_ID normalizeRelayPayload operation variables raw);
      simpl; [discriminate|].
    intros [= ->]. split; reflexivity.
Qed.

(** C2, as the code has it.  [request] keeps the variant of the envelope when
    it returns: a [data] envelope with a truthy payload that normalizes gives
    a [data] envelope of the normalized payload, one with a falsy payload
    gives a [data] envelope of [null]; an [error] envelope comes back with the
    same error; a [promise] envelope gives a [promise] envelope whose promise
    is fulfilled with the normalized payload when the original is fulfilled and
    the normalizer succeeds, and is rejected when the original is rejected or
    the normalizer throws.  A [data] envelope whose payload fails to normalize
    makes [request] throw the normalizer's error instead of returning. *)
Theorem request_maps_envelope :
  forall (fetch : Fetch) operation variables cacheConfig uploadables (s : State'),
    (forall raw r,
       fetch (log s) operation variables cacheConfig uploadables = KindData raw ->
       truthy raw = true -> normalize' operation variables raw = Normal r ->
       fst (request' fetch operation variables cacheConfig uploadables s)
       = Normal (KindData (Some r)))
    /\ (forall raw,
          fetch (log s) operation variables cacheConfig uploadables = KindData raw ->
          truthy raw = false ->
          fst (request' fetch operation variables cacheConfig uploadables s)
          = Normal (KindData None))
    /\ (forall raw e,
          fetch (log s) operation variables cacheConfig uploadables = KindData raw ->
          truthy raw = true -> normalize' operation variables raw = Throw e ->
          fst (request' fetch operation variables cacheConfig uploadables s)
          = Throw e)
    /\ (forall error,
          fetch (log s) operation variables cacheConfig uploadables = KindError error ->
          fst (request' fetch operation variables cacheConfig uploadables s)
          = Normal (KindError error))
    /\ (forall promise,
          fetch (log s) operation variables cacheConfig uploadables
          = KindPromise promise ->
          exists q,
            fst (request' fetch operation variables cacheConfig uploadables s)
            = Normal (KindPromise q)
            /\ (forall raw r, normalize' operation variables raw = Normal r ->
                  settle q (Fulfilled raw) = Fulfilled r)
            /\ (forall raw e, normalize' operation variables raw = Throw e ->
                  settle q (Fulfilled raw) = Rejected e)
            /\ (forall reason, settle q (Rejected reason) = Rejected reason)).
Proof.
  intros fetch operation variables cacheConfig uploadables s.
  rewrite request_unfold. cbv zeta.
  repeat split.
  - intros raw r -> -> ->. reflexivity.
  - intros raw -> ->. reflexivity.
  - intros raw e -> -> ->. reflexivity.
  - intros error ->. reflexivity.
  - intros promise ->.
    exists (promise_then promise (normalizePayload ROOT_ID normalizeRelayPayload
                                    operation variables)).
    repeat split; simpl.
    + intros raw r ->. reflexivity.
    + intros raw e ->. reflexivity.
Qed.

(** ** Unknown response kinds *)

Lemma other_kind (D P : Type) (response : @Response Variables D P) :
  kind response <> "data" -> kind response <> "error" ->
  kind response <> "promise" -> response = KindOther (kind response).
Proof.
  destruct response; simpl; intros Hd He Hp; congruence.
Qed.

(** C4. A fetch response whose [kind] is none of [data], [error] and
    [promise] makes [request] throw an invariant violation that names the
    kind, and makes a poll tick throw the same violation (out of the
    [request] that starts the tick); when the tick was started by its timer,
    the host reports the violation as an uncaught exception. *)
Theorem unknown_kind_fails_loudly :
  forall (response : FetchResponse),
    kind response <> "data" ->
    kind response <> "error" ->
    kind response <> "promise" ->
    (forall (fetch : Fetch) operation variables cacheConfig uploadables (s : State'),
       fetch (log s) operation variables cacheConfig uploadables = response ->
       fst (request' fetch operation variables cacheConfig uploadables s)
       = Throw (invariant_violation
                  "RelayNetwork: unsupported response kind `%s`" [kind response]))
    /\ (forall (fetch : Fetch) operation variables pollInterval (s : State'),
          fetch (log s) operation variables (Some force_true) None = response ->
          fst (poll (request' fetch) operation variables pollInterval s)
          = Throw (invariant_violation
                     "RelayNetwork: unsupported response kind `%s`" [kind response]))
    /\ (forall (fetch : Fetch) operation variables observer handle id
               pollInterval (s : State'),
          option_map timer_callback
            (find (fun t => Nat.eqb (timer_id t) id) (timers s))
          = Some (TimerPoll pollInterval) ->
          fetch (log s) operation variables (Some force_true) None = response ->
          log (step' fetch operation variables observer handle (Fire id) s)
          = log s ++ [EvFetch operation variables (Some force_true) None;
                      EvUncaught (invariant_violation
                        "RelayNetwork: unsupported response kind `%s`"
                        [kind response])]).
Proof.
  intros response Hd He Hp.
  rewrite (other_kind _ _ response Hd He Hp). simpl.
  repeat split.
  - intros fetch operation variables cacheConfig uploadables s Hfetch.
    rewrite request_unfold, Hfetch. reflexivity.
  - intros fetch operation variables pollInterval s Hfetch.
    unfold poll, bind. rewrite request_unfold, Hfetch. reflexivity.
  - intros fetch operation variables observer handle id pollInterval s
      Htimer Hfetch.
    unfold step, turn, poll, bind, take_timer. simpl. rewrite Htimer.
    rewrite request_unfold. simpl. rewrite Hfetch. simpl.
    now rewrite <- app_assoc.
Qed.

(** ** Classification in [requestStream] *)

(** C7. For a subscription operation, [requestStream] without a [subscribe]
    primitive throws an invariant violation at once and leaves the state as it
    was, so the fetch primitive has not been called; with a [subscribe]
    primitive it returns what that primitive returns, having called it and not
    the fetch primitive. *)
Theorem subscription_needs_subscribe :
  forall (fetch : Fetch) operation variables cacheConfig observer (s : State'),
    query_operation (query operation) = "subscription" ->
    requestStream' fetch None operation variables cacheConfig observer s
    = (Throw (invariant_violation subscriptions_unsupported []), s)
    /\ forall subscribe_fn : Subscribe,
         fst (requestStream' fetch (Some subscribe_fn) operation variables
                cacheConfig observer s)
         = Normal (SubscriptionDisposable (subscribe_fn operation variables None))
         /\ log (snd (requestStream' fetch (Some subscribe_fn) operation variables
                        cacheConfig observer s))
            = log s ++ [EvSubscribe operation variables]
         /\ fetches (log (snd (requestStream' fetch (Some subscribe_fn) operation
                                 variables cacheConfig observer s)))
            = fetches (log s).
Proof.
  intros fetch operation variables cacheConfig observer s Hkind.
  unfold requestStream. rewrite Hkind. simpl. split; [reflexivity|].
  intros subscribe_fn. unfold_M. simpl. repeat split.
  unfold fetches. rewrite filter_app. simpl. apply app_nil_r.
Qed.

(** ** The closures, one at a time *)

Lemma shrinks_refl (ts : list (@Timer Variables)) : shrinks ts ts.
Proof.
  exists (fun _ => true). induction ts as [|t ts IH]; simpl; congruence.
Qed.

Lemma shrinks_trans (a b c : list (@Timer Variables)) :
  shrinks a b -> shrinks b c -> shrinks a c.
Proof.
  intros [k1 ->] [k2 ->]. exists (fun t => k2 t && k1 t).
  induction c as [|t c IH]; simpl; [reflexivity|].
  destruct (k2 t); simpl; [destruct (k1 t)|]; simpl; congruence.
Qed.

Lemma shrinks_nil (ts : list (@Timer Variables)) : shrinks ts [] -> ts = [].
Proof. intros [keep ->]. reflexivity. Qed.

Lemma shrinks_poll_timers (ts' ts : list (@Timer Variables)) :
  shrinks ts' ts ->
  length (filter is_poll_timer ts') <= length (filter is_poll_timer ts).
Proof.
  intros [keep ->]. induction ts as [|t ts IH]; simpl; [lia|].
  destruct (keep t); simpl; destruct (is_poll_timer t); simpl; lia.
Qed.

Lemma dispose_spec (s : State') :
  exists s', dispose s = (Normal tt, s')
    /\ pending s' = pending s /\ log s' = log s
    /\ shrinks (timers s') (timers s) /\ isDisposed s' = true.
Proof.
  unfold dispose. unfold_M. destruct s as [dis tmo pend tms nxt lg]; simpl.
  destruct dis; simpl.
  - eexists; repeat split; simpl; auto using shrinks_refl.
  - destruct tmo as [id|]; eexists; repeat split; simpl;
      auto using shrinks_refl.
    now exists (fun t => negb (Nat.eqb (timer_id t) id)).
Qed.

Lemma handle_dispose_spec (handle : @Disposable SubscriptionHandle) (s : State') :
  exists s', handle_dispose handle s = (Normal tt, s')
    /\ pending s' = pending s /\ log s' = log s ++ [EvDispose]
    /\ shrinks (timers s') (timers s)
    /\ (isDisposed s = true -> isDisposed s' = true)
    /\ (handle = RequestStreamHandle \/ handle = PollingHandle ->
        isDisposed s' = true).
Proof.
  unfold handle_dispose, bind at 1, emit.
  destruct handle as [| |d].
  - unfold requestStream_dispose, set_isDisposed. simpl.
    eexists; repeat split; simpl; auto using shrinks_refl.
  - destruct (dispose_spec
                {| isDisposed := isDisposed s; timeout := timeout s;
                   pending := pending s; timers := timers s;
                   nextTimerId := nextTimerId s; log := log s ++ [EvDispose] |})
      as (s' & -> & Hp & Hl & Ht & Hd).
    exists s'. simpl in *. repeat split; auto.
  - unfold ret. eexists; repeat split; simpl; auto using shrinks_refl.
    intros [H|H]; discriminate H.
Qed.

(** What a call of the observer does: the event is logged, the handle is
    disposed if the observer's code does so, and the call throws if that code
    throws. *)
Lemma invoke_spec (handle : @Disposable SubscriptionHandle) (ev : Event)
  (callback : option (list Event -> Reaction)) (s : State') :
  exists c s', invoke handle ev callback s = (c, s')
    /\ pending s' = pending s
    /\ shrinks (timers s') (timers s)
    /\ (isDisposed s = true -> isDisposed s' = true)
    /\ match callback with
       | None => c = Normal tt /\ log s' = log s
       | Some f =>
           c = match throws (f (log s)) with
               | Some e => Throw e
               | None => Normal tt
               end
           /\ log s' = log s ++ ev :: (if disposes (f (log s)) then [EvDispose] else [])
       end.
Proof.
  unfold invoke. destruct callback as [f|].
  2:{ exists (Normal tt), s. unfold ret. repeat split; auto using shrinks_refl. }
  unfold bind, get_log, emit. simpl.
  destruct (disposes (f (log s))).
  - match goal with |- context [handle_dispose handle ?s1] =>
      destruct (handle_dispose_spec handle s1) as (s' & -> & Hp & Hl & Ht & Hd & _)
    end.
    simpl in *.
    destruct (throws (f (log s))) as [e|]; unfold throw, ret;
      eexists _, s'; (split; [reflexivity|]); repeat split; auto;
      rewrite Hl, <- app_assoc; reflexivity.
  - unfold ret at 1.
    destruct (throws (f (log s))) as [e|]; unfold throw, ret;
      eexists _, _; (split; [reflexivity|]); simpl; repeat split;
      auto using shrinks_refl.
Qed.

(** ** The poller's reaction *)

Lemma poll_reaction_fulfilled (observer : Observer) pollInterval payload
  (s : State') :
  exists s', poll_reaction' observer pollInterval (Fulfilled payload) s
             = (Normal tt, s')
    /\ pending s' = pending s
    /\ (isDisposed s = true -> isDisposed s' = true)
    /\ length (poll_timers s') <= length (poll_timers s) + 1
    /\ exists new, log s' = log s ++ new
         /\ (new = [] \/ new = [EvOnNext payload]
             \/ new = [EvOnNext payload; EvDispose]).
Proof.
  unfold poll_reaction, then_, poll_onRequestSuccess, call_onNext.
  destruct (invoke_spec PollingHandle (EvOnNext payload)
              (option_map (fun f => f payload) (onNext observer)) s)
    as (c & s1 & Hinvoke & Hp & Ht & Hd & Hlog).
  assert (Hnew : exists new, log s1 = log s ++ new
                   /\ (new = [] \/ new = [EvOnNext payload]
                       \/ new = [EvOnNext payload; EvDispose])).
  { destruct (option_map (fun f => f payload) (onNext observer)) as [f|].
    - destruct Hlog as [_ ->].
      destruct (disposes (f (log s))); eexists; split; eauto.
    - destruct Hlog as [_ ->]. exists []. rewrite app_nil_r. auto. }
  apply shrinks_poll_timers in Ht.
  unfold bind at 1, reaction_of, bind at 1. rewrite Hinvoke.
  destruct c as [[]|e]; unfold_M; unfold rethrow, poll_timers; unfold_M; simpl;
    eexists; (split; [reflexivity|]); simpl; rewrite filter_app, length_app;
    simpl; unfold poll_timers in Ht; repeat split; auto; lia.
Qed.

Lemma poll_reaction_rejected (observer : Observer) pollInterval reason
  (s : State') :
  exists s', poll_reaction' observer pollInterval (Rejected reason) s
             = (Normal tt, s')
    /\ pending s' = pending s
    /\ isDisposed s' = true
    /\ length (poll_timers s') <= length (poll_timers s)
    /\ log s' = log s ++
         match onError observer with
         | Some f => EvOnError reason ::
                     (if disposes (f reason (log s)) then [EvDispose] else [])
         | None => []
         end.
Proof.
  unfold poll_reaction, then_, poll_onRequestError, call_onError.
  destruct (dispose_spec s) as (s0 & Hdispose & Hp0 & Hl0 & Ht0 & Hd0).
  destruct (invoke_spec PollingHandle (EvOnError reason)
              (option_map (fun f => f reason) (onError observer)) s0)
    as (c & s1 & Hinvoke & Hp & Ht & Hd & Hlog).
  assert (Hnew : log s1 = log s ++
            match onError observer with
            | Some f => EvOnError reason ::
                        (if disposes (f reason (log s)) then [EvDispose] else [])
            | None => []
            end).
  { destruct (onError observer) as [f|]; simpl in Hlog.
    - destruct Hlog as [_ ->]. now rewrite Hl0.
    - destruct Hlog as [_ ->]. now rewrite Hl0, app_nil_r. }
  pose proof (shrinks_poll_timers _ _ (shrinks_trans _ _ _ Ht Ht0)) as Hlen.
  unfold bind at 1, reaction_of, bind at 1. rewrite Hdispose, Hinvoke.
  destruct c as [[]|e]; unfold_M; unfold rethrow, poll_timers; unfold_M; simpl;
    eexists; (split; [reflexivity|]); simpl;
    rewrite ?filter_app, ?length_app; simpl; unfold poll_timers in Hlen;
    repeat split; auto; try congruence; lia.
Qed.

(** A poll tick: one call of the fetch primitive, then either the reaction is
    registered or [request] has thrown. *)
Lemma poll_spec (fetch : Fetch) operation variables pollInterval (s : State') :
  exists c s', poll (request' fetch) operation variables pollInterval s = (c, s')
    /\ log s' = log s ++ [EvFetch operation variables (Some force_true) None]
    /\ timers s' = timers s
    /\ isDisposed s' = isDisposed s
    /\ ((exists e, c = Throw e /\ pending s' = pending s)
        \/ (exists promise, c = Normal tt
              /\ pending s' = Some (PollReaction pollInterval promise))).
Proof.
  unfold poll, bind. rewrite request_unfold. cbv zeta.
  destruct (fetch (log s) operation variables (Some force_true) None)
    as [raw | error | promise | k].
  - destruct (truthy raw).
    + destruct (normalizePayload ROOT_ID normalizeRelayPayload operation variables raw);
        unfold register, emit; simpl; eexists _, _; (split; [reflexivity|]);
        simpl; repeat split; eauto.
    + unfold register, emit; simpl; eexists _, _; (split; [reflexivity|]);
        simpl; repeat split; eauto.
  - unfold register, emit; simpl; eexists _, _; (split; [reflexivity|]);
      simpl; repeat split; eauto.
  - unfold register, emit; simpl; eexists _, _; (split; [reflexivity|]);
      simpl; repeat split; eauto.
  - unfold emit; simpl; eexists _, _; (split; [reflexivity|]);
      simpl; repeat split; eauto.
Qed.

(** ** Invariants of a polling execution *)

Lemma onError_calls_app (l1 l2 : list (@Event Variables UploadableMap Metadata
                                          RelayResponsePayload)) :
  onError_calls (l1 ++ l2) = onError_calls l1 ++ onError_calls l2.
Proof. apply filter_app. Qed.

Lemma callbacks_app (l1 l2 : list (@Event Variables UploadableMap Metadata
                                      RelayResponsePayload)) :
  callbacks (l1 ++ l2) = callbacks l1 ++ callbacks l2.
Proof. apply filter_app. Qed.

Lemma fetches_app (l1 l2 : list (@Event Variables UploadableMap Metadata
                                    RelayResponsePayload)) :
  fetches (l1 ++ l2) = fetches l1 ++ fetches l2.
Proof. apply filter_app. Qed.

Lemma poll_timers_without (id : nat) (ts : list (@Timer Variables)) :
  length (filter is_poll_timer (without_timer id ts))
  <= length (filter is_poll_timer ts).
Proof.
  apply shrinks_poll_timers.
  now exists (fun t => negb (Nat.eqb (timer_id t) id)).
Qed.

Lemma fired_poll_timer (id : nat) (ts : list (@Timer Variables)) (t : Timer) :
  find (fun t => Nat.eqb (timer_id t) id) ts = Some t ->
  is_poll_timer t = true ->
  length (filter is_poll_timer (without_timer id ts))
  < length (filter is_poll_timer ts).
Proof.
  unfold without_timer.
  induction ts as [|a ts IH]; simpl; [discriminate|].
  destruct (Nat.eqb (timer_id a) id) eqn:E; simpl.
  - intros [= ->] Hpoll. rewrite Hpoll. simpl.
    pose proof (poll_timers_without id ts) as Hle.
    unfold without_timer in Hle. lia.
  - intros Hfind Hpoll. specialize (IH Hfind Hpoll).
    destruct (is_poll_timer a); simpl; lia.
Qed.

(** A turn that keeps the reaction, clears at most some timers and calls no
    [onError] keeps the invariant. *)
Lemma polling_frame (s s' : State') :
  polling s ->
  pending s' = pending s ->
  length (poll_timers s') <= length (poll_timers s) ->
  onError_calls (log s') = onError_calls (log s) ->
  polling s'.
Proof.
  unfold polling. intros H Hp Hlen Hlog. rewrite Hp, Hlog.
  destruct (pending s) as [[]|]; auto.
  - destruct H as [Hnil Herr]. rewrite Hnil in Hlen. split; [|exact Herr].
    apply length_zero_iff_nil. simpl in Hlen. lia.
  - destruct H as [Hle Herr]. split; [lia|].
    intros Hne. apply Herr. intros Hnil. rewrite Hnil in Hlen.
    apply Hne, length_zero_iff_nil. simpl in Hlen. lia.
Qed.

Lemma step_polling (fetch : Fetch) operation variables observer i (s : State') :
  polling s ->
  polling (step' fetch operation variables observer PollingHandle i s).
Proof.
  intros H. unfold step, turn. destruct i as [|original|id].
  - destruct (handle_dispose_spec PollingHandle s)
      as (s' & -> & Hp & Hl & Ht & _).
    apply polling_frame with (s := s); auto.
    + now apply shrinks_poll_timers.
    + rewrite Hl, onError_calls_app. simpl. apply app_nil_r.
  - unfold bind, take_pending.
    destruct (pending s) as [reaction|] eqn:Hpending.
    2:{ unfold ret. apply polling_frame with (s := s); simpl; auto. }
    unfold polling in H. rewrite Hpending in H.
    destruct reaction as [| | |pollInterval promise]; try contradiction.
    destruct H as [Hnil Herr].
    unfold deliver.
    match goal with |- context [poll_reaction _ _ _ ?s1] => set (s1' := s1) end.
    assert (Ht1 : poll_timers s1' = []) by exact Hnil.
    assert (Hl1 : log s1' = log s) by reflexivity.
    assert (Hp1 : pending s1' = None) by reflexivity.
    destruct (settle_poll promise original) as [payload|reason].
    + destruct (poll_reaction_fulfilled observer pollInterval payload s1')
        as (s' & -> & Hp & _ & Hlen & new & Hlog & Hnew).
      unfold polling. rewrite Hp, Hp1, Hlog, Hl1, onError_calls_app, Herr.
      rewrite Ht1 in Hlen. simpl in Hlen. split; [lia|]. intros _.
      destruct Hnew as [-> | [-> | ->]]; reflexivity.
    + destruct (poll_reaction_rejected observer pollInterval reason s1')
        as (s' & -> & Hp & _ & Hlen & _).
      unfold polling. rewrite Hp, Hp1.
      rewrite Ht1 in Hlen. simpl in Hlen.
      assert (Hnone : poll_timers s' = [])
        by (apply length_zero_iff_nil; lia).
      rewrite Hnone. split; [simpl; lia|]. intros Hne. now elim Hne.
  - unfold bind, take_timer.
    match goal with |- context [without_timer id (timers s)] =>
      set (s1 := {| isDisposed := isDisposed s; timeout := timeout s;
                    pending := pending s;
                    timers := without_timer id (timers s);
                    nextTimerId := nextTimerId s; log := log s |})
    end.
    assert (Hle : length (poll_timers s1) <= length (poll_timers s))
      by apply poll_timers_without.
    assert (H1 : polling s1) by (apply polling_frame with (s := s); auto).
    destruct (find (fun t => Nat.eqb (timer_id t) id) (timers s))
      as [t|] eqn:Hfind; simpl; [|exact H1].
    destruct (timer_callback t) as [pollInterval|err] eqn:Hcallback.
    + assert (Hpoll : is_poll_timer t = true)
        by (unfold is_poll_timer; now rewrite Hcallback).
      pose proof (fired_poll_timer id (timers s) t Hfind Hpoll) as Hlt.
      change (length (poll_timers s1) < length (poll_timers s)) in Hlt.
      unfold polling in H.
      destruct (pending s) as [[]|] eqn:Hpending; try contradiction.
      { destruct H as [Hnil _]. rewrite Hnil in Hlt. simpl in Hlt. lia. }
      destruct H as [Hone Herr].
      assert (Herr0 : onError_calls (log s) = []).
      { apply Herr. intros Hnil. rewrite Hnil in Hlt. simpl in Hlt. lia. }
      assert (Hnil1 : poll_timers s1 = [])
        by (apply length_zero_iff_nil; lia).
      destruct (poll_spec fetch operation variables pollInterval s1)
        as (c & s' & -> & Hlog & Htimers & _ & Hcases).
      assert (Hnil' : poll_timers s' = [])
        by (unfold poll_timers; rewrite Htimers; exact Hnil1).
      assert (Herr' : onError_calls (log s') = []).
      { rewrite Hlog, onError_calls_app. simpl. now rewrite Herr0. }
      destruct Hcases as [(e & -> & Hp) | (promise & -> & Hp)].
      * unfold polling, emit. simpl. rewrite Hp.
        unfold poll_timers in *. subst s1. simpl. rewrite Hnil'. simpl.
        split; [lia|]. intros Hne. now elim Hne.
      * unfold polling. rewrite Hp. auto.
    + unfold throw, emit. simpl.
      apply polling_frame with (s := s1); auto.
      simpl. rewrite onError_calls_app. simpl. apply app_nil_r.
Qed.

Lemma run_polling (fetch : Fetch) operation variables observer inputs
  (s : State') :
  polling s ->
  polling (run' fetch operation variables observer PollingHandle inputs s).
Proof.
  revert s. induction inputs as [|i inputs IH]; intros s H; simpl; [exact H|].
  now apply IH, step_polling.
Qed.

Lemma doFetchWithPolling_polling (fetch : Fetch) operation variables interval :
  polling (snd (doFetchWithPolling' (request' fetch) operation variables
                  interval init)).
Proof.
  unfold doFetchWithPolling, invariant, bind at 1.
  destruct (0 <? interval)%Z; [|unfold polling, throw; simpl; auto].
  unfold ret at 1, bind at 1, set_isDisposed at 1, bind at 1, set_timeout at 1, bind.
  match goal with |- context [poll _ _ _ _ ?s0] =>
    destruct (poll_spec fetch operation variables interval s0)
      as (c & s' & -> & Hlog & Htimers & _ & Hcases)
  end.
  simpl in *.
  destruct Hcases as [(e & -> & Hp) | (promise & -> & Hp)]; simpl;
    unfold polling, poll_timers; rewrite Hp, Htimers, Hlog; simpl; auto.
Qed.

Lemma silent_events (new : list (@Event Variables UploadableMap Metadata
                                   RelayResponsePayload)) :
  forallb is_silent new = true ->
  fetches new = [] /\ callbacks new = [] /\ onError_calls new = [].
Proof.
  induction new as [|ev new IH]; simpl; [auto|].
  intros H. apply andb_true_iff in H. destruct H as [Hev Hnew].
  destruct (IH Hnew) as (Hf & Hc & He).
  unfold fetches, callbacks, onError_calls in *. simpl.
  destruct ev; simpl in *; try discriminate; auto.
Qed.

Lemma step_stopped (fetch : Fetch) operation variables observer i (s : State') :
  stopped s ->
  stopped (step' fetch operation variables observer PollingHandle i s)
  /\ (isDisposed s = true ->
      isDisposed (step' fetch operation variables observer PollingHandle i s)
      = true)
  /\ exists new,
       log (step' fetch operation variables observer PollingHandle i s)
       = log s ++ new
       /\ forallb is_silent new = true.
Proof.
  intros [Hpending Htimers]. unfold step, turn. destruct i as [|original|id].
  - destruct (handle_dispose_spec PollingHandle s)
      as (s' & -> & Hp & Hl & Ht & Hd & _).
    apply shrinks_poll_timers in Ht. fold (poll_timers s') in Ht.
    fold (poll_timers s) in Ht. rewrite Htimers in Ht. simpl in Ht.
    split; [split; [congruence | apply length_zero_iff_nil; lia]|].
    split; [exact Hd|]. exists [EvDispose]. auto.
  - unfold bind, take_pending. rewrite Hpending. unfold ret.
    split; [split; [reflexivity | exact Htimers]|].
    split; [auto|]. exists []. now rewrite app_nil_r.
  - unfold bind, take_timer.
    pose proof (poll_timers_without id (timers s)) as Hle.
    fold (poll_timers s) in Hle. rewrite Htimers in Hle. simpl in Hle.
    apply Nat.le_0_r, length_zero_iff_nil in Hle.
    destruct (find (fun t => Nat.eqb (timer_id t) id) (timers s))
      as [t|] eqn:Hfind; simpl.
    2:{ unfold stopped, poll_timers. simpl.
        split; [split; [exact Hpending | exact Hle]|].
        split; [auto|]. exists []. now rewrite app_nil_r. }
    destruct (timer_callback t) as [pollInterval|err] eqn:Hcallback.
    + assert (Hpoll : is_poll_timer t = true)
        by (unfold is_poll_timer; now rewrite Hcallback).
      pose proof (fired_poll_timer id (timers s) t Hfind Hpoll) as Hlt.
      fold (poll_timers s) in Hlt. rewrite Htimers in Hlt. simpl in Hlt. lia.
    + unfold throw, emit, stopped, poll_timers. simpl.
      split; [split; [exact Hpending | exact Hle]|].
      split; [auto|]. exists [EvUncaught err]. auto.
Qed.

Lemma run_stopped (fetch : Fetch) operation variables observer inputs
  (s : State') :
  stopped s ->
  stopped (run' fetch operation variables observer PollingHandle inputs s)
  /\ (isDisposed s = true ->
      isDisposed (run' fetch operation variables observer PollingHandle inputs s)
      = true)
  /\ exists new,
       log (run' fetch operation variables observer PollingHandle inputs s)
       = log s ++ new
       /\ forallb is_silent new = true.
Proof.
  revert s. induction inputs as [|i inputs IH]; intros s H; simpl.
  - split; [exact H|]. split; [auto|]. exists []. now rewrite app_nil_r.
  - destruct (step_stopped fetch operation variables observer i s H)
      as (H1 & Hd1 & new1 & Hl1 & Hs1).
    destruct (IH _ H1) as (H2 & Hd2 & new2 & Hl2 & Hs2).
    split; [exact H2|]. split; [auto|].
    exists (new1 ++ new2). rewrite Hl2, Hl1, <- app_assoc. split; [reflexivity|].
    rewrite forallb_app, Hs1, Hs2. reflexivity.
Qed.

(** Every call of the fetch primitive made during a turn of a polling
    execution is the call of a poll tick. *)
Lemma step_tick_fetch (fetch : Fetch) operation variables observer i
  (s : State') :
  polling s ->
  exists new,
    log (step' fetch operation variables observer PollingHandle i s)
    = log s ++ new
    /\ Forall (tick_fetch operation variables) new.
Proof.
  intros H. unfold step, turn. destruct i as [|original|id].
  - destruct (handle_dispose_spec PollingHandle s) as (s' & -> & _ & Hl & _).
    exists [EvDispose]. split; [exact Hl|]. repeat constructor.
  - unfold bind, take_pending.
    destruct (pending s) as [reaction|] eqn:Hpending.
    2:{ exists []. simpl. rewrite app_nil_r. split; [reflexivity|constructor]. }
    unfold polling in H. rewrite Hpending in H.
    destruct reaction as [| | |pollInterval promise]; try contradiction.
    unfold deliver.
    destruct (settle_poll promise original) as [payload|reason].
    + match goal with |- context [poll_reaction _ _ _ ?s1] =>
        destruct (poll_reaction_fulfilled observer pollInterval payload s1)
          as (s' & -> & _ & _ & _ & new & Hlog & Hnew)
      end.
      exists new. split; [exact Hlog|].
      destruct Hnew as [-> | [-> | ->]]; repeat constructor.
    + match goal with |- context [poll_reaction _ _ _ ?s1] =>
        destruct (poll_reaction_rejected observer pollInterval reason s1)
          as (s' & -> & _ & _ & _ & Hlog)
      end.
      eexists. split; [exact Hlog|].
      destruct (onError observer) as [f|]; [|constructor].
      destruct (disposes _); repeat constructor.
  - unfold bind, take_timer.
    destruct (find (fun t => Nat.eqb (timer_id t) id) (timers s))
      as [t|] eqn:Hfind; simpl.
    2:{ exists []. rewrite app_nil_r. split; [reflexivity|constructor]. }
    destruct (timer_callback t) as [pollInterval|err].
    + match goal with |- context [poll _ _ _ _ ?s1] =>
        destruct (poll_spec fetch operation variables pollInterval s1)
          as (c & s' & -> & Hlog & _ & _ & Hcases)
      end.
      simpl in Hlog.
      destruct Hcases as [(e & -> & _) | (promise & -> & _)].
      * exists [EvFetch operation variables (Some force_true) None; EvUncaught e].
        unfold emit. simpl. rewrite Hlog, <- app_assoc. split; [reflexivity|].
        repeat constructor.
      * exists [EvFetch operation variables (Some force_true) None].
        split; [exact Hlog|]. repeat constructor.
    + exists [EvUncaught err]. unfold throw, emit. simpl.
      split; [reflexivity|]. repeat constructor.
Qed.

Lemma run_tick_fetch (fetch : Fetch) operation variables observer inputs
  (s : State') :
  polling s ->
  Forall (tick_fetch operation variables) (log s) ->
  Forall (tick_fetch operation variables)
    (log (run' fetch operation variables observer PollingHandle inputs s)).
Proof.
  revert s. induction inputs as [|i inputs IH]; intros s H Hlog; simpl; auto.
  apply IH; [now apply step_polling|].
  destruct (step_tick_fetch fetch operation variables observer i s H)
    as (new & -> & Hnew).
  apply Forall_app. auto.
Qed.

Lemma requestStream_polls (fetch : Fetch) (subscribe : option Subscribe)
  operation variables cacheConfig observer interval (s : State') :
  query_operation (query operation) <> "subscription" ->
  pollInterval_of cacheConfig = Some interval ->
  requestStream' fetch subscribe operation variables cacheConfig observer s
  = doFetchWithPolling' (request' fetch) operation variables interval s.
Proof.
  intros Hkind Hpoll. unfold requestStream.
  destruct (String.eqb_spec (query_operation (query operation)) "subscription");
    [contradiction|].
  now rewrite Hpoll.
Qed.

Lemma doFetchWithPolling_tick_fetch (fetch : Fetch) operation variables interval :
  Forall (tick_fetch operation variables)
    (log (snd (doFetchWithPolling' (request' fetch) operation variables
                 interval init))).
Proof.
  unfold doFetchWithPolling, invariant, bind at 1.
  destruct (0 <? interval)%Z; [|unfold throw; simpl; constructor].
  unfold ret at 1, bind at 1, set_isDisposed at 1, bind at 1, set_timeout at 1, bind.
  match goal with |- context [poll _ _ _ _ ?s0] =>
    destruct (poll_spec fetch operation variables interval s0)
      as (c & s' & -> & Hlog & _ & _ & Hcases)
  end.
  simpl in Hlog.
  destruct Hcases as [(e & -> & _) | (promise & -> & _)]; simpl;
    rewrite Hlog; repeat constructor.
Qed.

(** C3, as the code has it.  In a polling execution every call of the fetch
    primitive, on the first tick and on every later one, is made for the
    operation and the variables of the execution with the cache configuration
    [{force: true}] and nothing else: the fields of the caller's cache
    configuration are not carried over. *)
Theorem poll_tick_forces_fetch :
  forall (fetch : Fetch) (subscribe : option Subscribe) operation variables
         cacheConfig observer interval inputs,
    query_operation (query operation) <> "subscription" ->
    pollInterval_of cacheConfig = Some interval ->
    Forall (tick_fetch operation variables)
      (log (run' fetch operation variables observer PollingHandle inputs
              (snd (requestStream' fetch subscribe operation variables
                      cacheConfig observer init)))).
Proof.
  intros fetch subscribe operation variables cacheConfig observer interval
    inputs Hkind Hpoll.
  rewrite (requestStream_polls fetch subscribe operation variables cacheConfig
             observer interval init Hkind Hpoll).
  apply run_tick_fetch.
  - apply doFetchWithPolling_polling.
  - apply doFetchWithPolling_tick_fetch.
Qed.

(** What a tick leaves behind, by the answer of the fetch primitive: the
    reaction that awaits the promise chosen in [poll], or the exception of
    [request] and nothing registered. *)
Lemma poll_answer (fetch : Fetch) operation variables pollInterval (s : State') :
  exists c s', poll (request' fetch) operation variables pollInterval s = (c, s')
    /\ log s' = log s ++ [EvFetch operation variables (Some force_true) None]
    /\ timers s' = timers s
    /\ isDisposed s' = isDisposed s
    /\ match fetch (log s) operation variables (Some force_true) None with
       | KindData raw =>
           if truthy raw then
             match normalize' operation variables raw with
             | Normal r =>
                 c = Normal tt
                 /\ pending s'
                    = Some (PollReaction pollInterval (Promise_resolve (Some r)))
             | Throw e => c = Throw e /\ pending s' = pending s
             end
           else
             c = Normal tt
             /\ pending s' = Some (PollReaction pollInterval (Promise_resolve None))
       | KindError error =>
           c = Normal tt
           /\ pending s' = Some (PollReaction pollInterval (Promise_reject error))
       | KindPromise q =>
           c = Normal tt
           /\ pending s'
              = Some (PollReaction pollInterval
                        (RequestPromise
                           (promise_then q (normalize' operation variables))))
       | KindOther k =>
           c = Throw (invariant_violation
                        "RelayNetwork: unsupported response kind `%s`" [k])
           /\ pending s' = pending s
       end.
Proof.
  unfold poll, bind. rewrite request_unfold. cbv zeta.
  destruct (fetch (log s) operation variables (Some force_true) None)
    as [raw | error | promise | k].
  - destruct (truthy raw).
    + destruct (normalizePayload ROOT_ID normalizeRelayPayload operation variables raw);
        unfold register, emit; simpl; eexists _, _; (split; [reflexivity|]);
        simpl; repeat split; eauto.
    + unfold register, emit; simpl; eexists _, _; (split; [reflexivity|]);
        simpl; repeat split; eauto.
  - unfold register, emit; simpl; eexists _, _; (split; [reflexivity|]);
      simpl; repeat split; eauto.
  - unfold register, emit; simpl; eexists _, _; (split; [reflexivity|]);
      simpl; repeat split; eauto.
  - unfold emit; simpl; eexists _, _; (split; [reflexivity|]);
      simpl; repeat split; eauto.
Qed.

(** The last call of the fetch primitive in a log is found in one way only. *)
Lemma last_fetch_unique (h1 h2 r1 r2 : list Event') (e1 e2 : Event') :
  is_fetch e1 = true -> is_fetch e2 = true ->
  fetches r1 = [] -> fetches r2 = [] ->
  h1 ++ e1 :: r1 = h2 ++ e2 :: r2 ->
  h1 = h2 /\ e1 = e2 /\ r1 = r2.
Proof.
  intros He1 He2 Hr1 Hr2. revert h2.
  induction h1 as [|a h1 IH]; intros [|b h2] Heq; simpl in Heq.
  - injection Heq as -> ->. auto.
  - injection Heq as -> ->.
    rewrite fetches_app in Hr1. unfold fetches at 2 in Hr1. simpl in Hr1.
    rewrite He2 in Hr1. now apply app_eq_nil in Hr1.
  - injection Heq as -> <-.
    rewrite fetches_app in Hr2. unfold fetches at 2 in Hr2. simpl in Hr2.
    rewrite He1 in Hr2. now apply app_eq_nil in Hr2.
  - injection Heq as -> Heq. destruct (IH _ Heq) as (-> & -> & ->). auto.
Qed.

(** A turn that keeps the reaction and adds no call of the fetch primitive
    keeps the reaction tied to the last call. *)
Lemma awaits_last_fetch_frame (fetch : Fetch) operation variables
  (s s' : State') new :
  awaits_last_fetch ROOT_ID normalizeRelayPayload fetch operation variables s ->
  pending s' = pending s ->
  log s' = log s ++ new ->
  fetches new = [] ->
  awaits_last_fetch ROOT_ID normalizeRelayPayload fetch operation variables s'.
Proof.
  intros H Hp Hl Hnew pollInterval promise Hpending.
  rewrite Hp in Hpending.
  destruct (H pollInterval promise Hpending) as (history & rest & Hlog & Hrest & Hanswer).
  exists history, (rest ++ new). split; [|split; [|exact Hanswer]].
  - rewrite Hl, Hlog, <- app_assoc. reflexivity.
  - now rewrite fetches_app, Hrest, Hnew.
Qed.

Lemma step_awaits_last_fetch (fetch : Fetch) operation variables observer i
  (s : State') :
  polling s ->
  awaits_last_fetch ROOT_ID normalizeRelayPayload fetch operation variables s ->
  awaits_last_fetch ROOT_ID normalizeRelayPayload fetch operation variables
    (step' fetch operation variables observer PollingHandle i s).
Proof.
  intros Hinv H. unfold step, turn. destruct i as [|original|id].
  - destruct (handle_dispose_spec PollingHandle s)
      as (s' & -> & Hp & Hl & _).
    now apply (awaits_last_fetch_frame fetch operation variables s s' [EvDispose]).
  - unfold bind, take_pending.
    destruct (pending s) as [reaction|] eqn:Hpending.
    2:{ unfold ret. intros pollInterval promise Hp. discriminate Hp. }
    unfold polling in Hinv. rewrite Hpending in Hinv.
    destruct reaction as [| | |pollInterval promise]; try contradiction.
    unfold deliver.
    destruct (settle_poll promise original) as [payload|reason].
    + match goal with |- context [poll_reaction _ _ _ ?s1] =>
        destruct (poll_reaction_fulfilled observer pollInterval payload s1)
          as (s' & -> & Hp & _)
      end.
      intros i p Hsome. rewrite Hp in Hsome. discriminate Hsome.
    + match goal with |- context [poll_reaction _ _ _ ?s1] =>
        destruct (poll_reaction_rejected observer pollInterval reason s1)
          as (s' & -> & Hp & _)
      end.
      intros i p Hsome. rewrite Hp in Hsome. discriminate Hsome.
  - unfold bind, take_timer.
    match goal with |- context [without_timer id (timers s)] =>
      set (s1 := {| isDisposed := isDisposed s; timeout := timeout s;
                    pending := pending s;
                    timers := without_timer id (timers s);
                    nextTimerId := nextTimerId s; log := log s |})
    end.
    assert (H1 : awaits_last_fetch ROOT_ID normalizeRelayPayload fetch operation
                   variables s1).
    { apply (awaits_last_fetch_frame fetch operation variables s s1 []); auto.
      simpl. now rewrite app_nil_r. }
    destruct (find (fun t => Nat.eqb (timer_id t) id) (timers s))
      as [t|] eqn:Hfind; simpl; [|exact H1].
    destruct (timer_callback t) as [pollInterval|err] eqn:Hcallback.
    + assert (Hpoll : is_poll_timer t = true)
        by (unfold is_poll_timer; now rewrite Hcallback).
      pose proof (fired_poll_timer id (timers s) t Hfind Hpoll) as Hlt.
      unfold polling in Hinv.
      destruct (pending s) as [[]|] eqn:Hpending; try contradiction.
      { destruct Hinv as [Hnil _]. unfold poll_timers in Hnil.
        rewrite Hnil in Hlt. simpl in Hlt. lia. }
      destruct (poll_answer fetch operation variables pollInterval s1)
        as (c & s' & -> & Hlog & _ & _ & Hanswer).
      assert (Hnone : pending s1 = None)
        by (unfold s1; simpl; first [reflexivity | exact Hpending]).
      assert (Hlog1 : log s1 = log s) by reflexivity.
      rewrite Hnone, Hlog1 in Hanswer. rewrite Hlog1 in Hlog.
      assert (Hthrown : forall e, c = Throw e -> pending s' = None ->
                awaits_last_fetch ROOT_ID normalizeRelayPayload fetch operation
                  variables (snd (emit (EvUncaught e) s'))).
      { intros e _ Hp i p Hsome. simpl in Hsome. rewrite Hp in Hsome.
        discriminate Hsome. }
      assert (Hregistered : forall p,
                c = Normal tt ->
                pending s' = Some (PollReaction pollInterval p) ->
                match fetch (log s) operation variables (Some force_true) None with
                | KindData raw =>
                    if truthy raw
                    then exists r, normalize' operation variables raw = Normal r
                                   /\ p = Promise_resolve (Some r)
                    else p = Promise_resolve None
                | KindError error => p = Promise_reject error
                | KindPromise q =>
                    p = RequestPromise
                          (promise_then q (normalize' operation variables))
                | KindOther _ => False
                end ->
                awaits_last_fetch ROOT_ID normalizeRelayPayload fetch operation
                  variables s').
      { intros p _ Hp Hmatch i p' Hsome. rewrite Hp in Hsome.
        injection Hsome as <- <-.
        exists (log s), []. split; [exact Hlog|]. split; [reflexivity|].
        exact Hmatch. }
      destruct (fetch (log s) operation variables (Some force_true) None)
        as [raw | error | q | k] eqn:Hfetch.
      * destruct (truthy raw) eqn:Htruthy.
        -- destruct (normalize' operation variables raw) as [r|e] eqn:Hnormalize.
           ++ destruct Hanswer as [-> Hp]. eapply Hregistered; eauto.
           ++ destruct Hanswer as [-> Hp]. now apply Hthrown with (e := e).
        -- destruct Hanswer as [-> Hp]. eapply Hregistered; eauto.
      * destruct Hanswer as [-> Hp]. eapply Hregistered; eauto.
      * destruct Hanswer as [-> Hp]. eapply Hregistered; eauto.
      * destruct Hanswer as [-> Hp]. now eapply Hthrown.
    + unfold throw.
      apply (awaits_last_fetch_frame fetch operation variables s1 _ [EvUncaught err]);
        auto.
Qed.

Lemma run_awaits_last_fetch (fetch : Fetch) operation variables observer inputs
  (s : State') :
  polling s ->
  awaits_last_fetch ROOT_ID normalizeRelayPayload fetch operation variables s ->
  awaits_last_fetch ROOT_ID normalizeRelayPayload fetch operation variables
    (run' fetch operation variables observer PollingHandle inputs s).
Proof.
  revert s. induction inputs as [|i inputs IH]; intros s Hinv H; simpl;
    [exact H|].
  apply IH; [now apply step_polling | now apply step_awaits_last_fetch].
Qed.

Lemma doFetchWithPolling_awaits_last_fetch (fetch : Fetch) operation variables
  interval :
  awaits_last_fetch ROOT_ID normalizeRelayPayload fetch operation variables
    (snd (doFetchWithPolling' (request' fetch) operation variables interval
            init)).
Proof.
  unfold doFetchWithPolling, invariant, bind at 1.
  destruct (0 <? interval)%Z.
  2:{ unfold throw. intros i p Hsome. discriminate Hsome. }
  unfold ret at 1, bind at 1, set_isDisposed at 1, bind at 1, set_timeout at 1, bind.
  match goal with |- context [poll _ _ _ _ ?s0] =>
    destruct (poll_answer fetch operation variables interval s0)
      as (c & s' & -> & Hlog & _ & _ & Hanswer)
  end.
  simpl in Hlog, Hanswer.
  intros i p Hsome.
  exists [], []. split.
  { destruct c as [[]|e]; simpl; exact Hlog. }
  split; [reflexivity|].
  destruct (fetch [] operation variables (Some force_true) None)
    as [raw | error | q | k].
  - destruct (truthy raw).
    + destruct (normalize' operation variables raw) as [r|e].
      * destruct Hanswer as [-> Hp]. simpl in Hsome. rewrite Hp in Hsome.
        injection Hsome as <- <-. eauto.
      * destruct Hanswer as [-> Hp]. simpl in Hsome. rewrite Hp in Hsome.
        discriminate Hsome.
    + destruct Hanswer as [-> Hp]. simpl in Hsome. rewrite Hp in Hsome.
      now injection Hsome as <- <-.
  - destruct Hanswer as [-> Hp]. simpl in Hsome. rewrite Hp in Hsome.
    now injection Hsome as <- <-.
  - destruct Hanswer as [-> Hp]. simpl in Hsome. rewrite Hp in Hsome.
    now injection Hsome as <- <-.
  - destruct Hanswer as [-> Hp]. simpl in Hsome. rewrite Hp in Hsome.
    discriminate Hsome.
Qed.

(** A tick's reaction that runs on a rejected promise ends the polling. *)
Lemma poll_rejection_stops_polling (fetch : Fetch) operation variables observer
  (s : State') pollInterval promise original error handler after :
  polling s ->
  pending s = Some (PollReaction pollInterval promise) ->
  settle_poll promise original = Rejected error ->
  onError observer = Some handler ->
  onError_calls
    (log (run' fetch operation variables observer PollingHandle
            (Settle original :: after) s))
  = [EvOnError error]
  /\ callbacks
       (log (run' fetch operation variables observer PollingHandle
               (Settle original :: after) s))
     = callbacks (log s) ++ [EvOnError error]
  /\ fetches
       (log (run' fetch operation variables observer PollingHandle
               (Settle original :: after) s))
     = fetches (log s)
  /\ isDisposed (run' fetch operation variables observer PollingHandle
                   (Settle original :: after) s) = true
  /\ stopped (run' fetch operation variables observer PollingHandle
                (Settle original :: after) s).
Proof.
  intros Hinv Hpending Hsettle HonError.
  unfold polling in Hinv. rewrite Hpending in Hinv.
  destruct Hinv as [Hnil Hnone].
  simpl run.
  assert (Hstep : exists s1,
            step' fetch operation variables observer PollingHandle
              (Settle original) s = s1
            /\ pending s1 = None /\ isDisposed s1 = true
            /\ poll_timers s1 = []
            /\ log s1 = log s ++ EvOnError error ::
                 (if disposes (handler error (log s)) then [EvDispose] else [])).
  { unfold step, turn, bind, take_pending. rewrite Hpending.
    unfold deliver. rewrite Hsettle.
    match goal with |- context [poll_reaction _ _ _ ?s1] =>
      destruct (poll_reaction_rejected observer pollInterval error s1)
        as (s' & -> & Hp & Hd & Hlen & Hlog)
    end.
    simpl in Hp, Hlen, Hlog. rewrite HonError in Hlog.
    exists s'. repeat split; auto.
    change (length (poll_timers s') <= length (poll_timers s)) in Hlen.
    rewrite Hnil in Hlen. apply length_zero_iff_nil. simpl in Hlen. lia. }
  destruct Hstep as (s1 & -> & Hp1 & Hd1 & Ht1 & Hl1).
  destruct (run_stopped fetch operation variables observer after s1
              (conj Hp1 Ht1)) as (Hstopped & Hdisposed & new & Hlog & Hsilent).
  destruct (silent_events new Hsilent) as (Hf & Hc & He).
  rewrite Hlog, Hl1.
  rewrite !onError_calls_app, !callbacks_app, !fetches_app, Hnone, Hf, Hc, He.
  split; [destruct (disposes _); reflexivity|].
  split; [destruct (disposes _); simpl; now rewrite app_nil_r|].
  split; [destruct (disposes _); simpl; now rewrite !app_nil_r|].
  split; [auto | exact Hstopped].
Qed.

(** C5. In a polling execution, take any moment at which the reaction of a
    tick is pending, and the last call of the fetch primitive in the log,
    which is the call of that tick.  When the fetch primitive answered that
    call with an [error] envelope, or with a promise that is then rejected,
    the turn that delivers this calls [onError] with that error; it is the
    only call of [onError] in the whole execution, whatever happens
    afterwards; the handle is disposed from then on; nothing is pending and
    no poll timer is set any more, and the fetch primitive is never called
    again. *)
Theorem poll_error_stops_polling :
  forall (fetch : Fetch) (subscribe : option Subscribe) operation variables
         cacheConfig observer interval before (s : State') reaction history o v
         c u rest original error handler,
    query_operation (query operation) <> "subscription" ->
    pollInterval_of cacheConfig = Some interval ->
    s = run' fetch operation variables observer PollingHandle before
          (snd (requestStream' fetch subscribe operation variables cacheConfig
                  observer init)) ->
    pending s = Some reaction ->
    log s = history ++ EvFetch o v c u :: rest ->
    fetches rest = [] ->
    fetch history o v c u = KindError error
    \/ (exists promise, fetch history o v c u = KindPromise promise
                        /\ original = Rejected error) ->
    onError observer = Some handler ->
    forall after,
      onError_calls
        (log (run' fetch operation variables observer PollingHandle
                (Settle original :: after) s))
      = [EvOnError error]
      /\ callbacks
           (log (run' fetch operation variables observer PollingHandle
                   (Settle original :: after) s))
         = callbacks (log s) ++ [EvOnError error]
      /\ fetches
           (log (run' fetch operation variables observer PollingHandle
                   (Settle original :: after) s))
         = fetches (log s)
      /\ isDisposed (run' fetch operation variables observer PollingHandle
                       (Settle original :: after) s) = true
      /\ stopped (run' fetch operation variables observer PollingHandle
                    (Settle original :: after) s).
Proof.
  intros fetch subscribe operation variables cacheConfig observer interval
    before s reaction history o v c u rest original error handler Hkind Hpoll
    Hs Hpending Hlog Hrest Herror HonError after.
  assert (Hinv : polling s
                 /\ awaits_last_fetch ROOT_ID normalizeRelayPayload fetch
                      operation variables s).
  { rewrite Hs, (requestStream_polls fetch subscribe operation variables
                   cacheConfig observer interval init Hkind Hpoll).
    split.
    - apply run_polling, doFetchWithPolling_polling.
    - apply run_awaits_last_fetch.
      + apply doFetchWithPolling_polling.
      + apply doFetchWithPolling_awaits_last_fetch. }
  clear Hs. destruct Hinv as [Hinv Hawaits].
  assert (Hreaction : exists pollInterval promise,
            reaction = PollReaction pollInterval promise).
  { unfold polling in Hinv. rewrite Hpending in Hinv.
    destruct reaction; try contradiction. eauto. }
  destruct Hreaction as (pollInterval & promise & ->).
  destruct (Hawaits pollInterval promise Hpending)
    as (history' & rest' & Hlog' & Hrest' & Hanswer).
  rewrite Hlog in Hlog'.
  destruct (last_fetch_unique history history' rest rest' (EvFetch o v c u)
              (EvFetch operation variables (Some force_true) None)
              eq_refl eq_refl Hrest Hrest' Hlog')
    as (<- & Hev & _).
  injection Hev as -> -> -> ->.
  apply (poll_rejection_stops_polling fetch operation variables observer s
           pollInterval promise original error handler after Hinv Hpending);
    [|exact HonError].
  destruct Herror as [Hfetch | (q & Hfetch & ->)]; rewrite Hfetch in Hanswer;
    rewrite Hanswer; reflexivity.
Qed.

(** ** The one-shot stream *)

(** A call of the observer for a callback event [ev], seen through the
    callbacks it adds to the log. *)
Lemma invoke_callbacks (handle : @Disposable SubscriptionHandle) (ev : Event)
  (callback : option (list Event -> Reaction)) (s : State') :
  is_callback ev = true ->
  exists c s', invoke handle ev callback s = (c, s')
    /\ pending s' = pending s
    /\ shrinks (timers s') (timers s)
    /\ (isDisposed s = true -> isDisposed s' = true)
    /\ exists new, log s' = log s ++ new
         /\ fetches new = []
         /\ callbacks new = match callback with Some _ => [ev] | None => [] end.
Proof.
  intros Hev.
  destruct (invoke_spec handle ev callback s)
    as (c & s' & Hinvoke & Hp & Ht & Hd & Hlog).
  exists c, s'. repeat split; auto.
  destruct callback as [f|].
  - destruct Hlog as [_ ->]. eexists. split; [reflexivity|].
    unfold fetches, callbacks. simpl. rewrite Hev.
    destruct ev; try discriminate; destruct (disposes _); auto.
  - destruct Hlog as [_ ->]. exists []. rewrite app_nil_r. auto.
Qed.

Lemma one_shot_after_onNext (r : RelayResponsePayload)
  (a b : option (list Event' -> @Reaction Variables)) :
  one_shot_callbacks
    ((match a with Some _ => [EvOnNext (Some r)] | None => [] end : list Event')
     ++ match b with Some _ => [EvOnCompleted] | None => [] end).
Proof.
  unfold one_shot_callbacks. destruct a, b; simpl; eauto 6.
Qed.

Lemma onRequestSuccess_spec operation variables (observer : Observer) payload
  (s : State') :
  exists c s', onRequestSuccess' operation variables observer payload s = (c, s')
    /\ pending s' = pending s
    /\ shrinks (timers s') (timers s)
    /\ (isDisposed s = true -> isDisposed s' = true)
    /\ exists new, log s' = log s ++ new
         /\ fetches new = []
         /\ (isDisposed s = true -> new = [])
         /\ one_shot_callbacks (callbacks new).
Proof.
  unfold requestStream_onRequestSuccess, bind at 1, get_isDisposed.
  destruct (isDisposed s) eqn:Hdisposed.
  { exists (Normal tt), s. unfold ret. repeat split; auto using shrinks_refl.
    exists []. rewrite app_nil_r. repeat split; auto. now left. }
  destruct (normalizePayload ROOT_ID normalizeRelayPayload operation variables
              payload) as [relayPayload|err].
  - unfold call_onNext, call_onCompleted, bind.
    destruct (invoke_callbacks RequestStreamHandle (EvOnNext (Some relayPayload))
                (option_map (fun f => f (Some relayPayload)) (onNext observer)) s
                eq_refl)
      as (c1 & s1 & -> & Hp1 & Ht1 & Hd1 & new1 & Hl1 & Hf1 & Hc1).
    destruct c1 as [[]|e].
    + destruct (invoke_callbacks RequestStreamHandle EvOnCompleted
                  (onCompleted observer) s1 eq_refl)
        as (c2 & s2 & -> & Hp2 & Ht2 & Hd2 & new2 & Hl2 & Hf2 & Hc2).
      exists c2, s2. split; [reflexivity|].
      split; [congruence|]. split; [eauto using shrinks_trans|].
      split; [discriminate|].
      exists (new1 ++ new2). rewrite Hl2, Hl1, <- app_assoc.
      rewrite fetches_app, callbacks_app, Hf1, Hf2, Hc1, Hc2.
      repeat split; try discriminate.
      destruct (onNext observer); apply one_shot_after_onNext.
    + exists (Throw e), s1. split; [reflexivity|].
      split; [congruence|]. split; [auto|]. split; [discriminate|].
      exists new1. rewrite Hc1. repeat split; auto; try discriminate.
      pose proof (one_shot_after_onNext relayPayload
                    (option_map (fun f => f (Some relayPayload)) (onNext observer))
                    None) as H.
      now rewrite app_nil_r in H.
  - unfold call_onError.
    destruct (invoke_callbacks RequestStreamHandle (EvOnError err)
                (option_map (fun f => f err) (onError observer)) s eq_refl)
      as (c1 & s1 & -> & Hp1 & Ht1 & Hd1 & new1 & Hl1 & Hf1 & Hc1).
    exists c1, s1. repeat split; auto; try discriminate.
    exists new1. rewrite Hc1. repeat split; auto; try discriminate.
    unfold one_shot_callbacks.
    destruct (option_map (fun f => f err) (onError observer)); eauto 7.
Qed.

Lemma onRequestError_spec (observer : Observer) error (s : State') :
  exists c s', onRequestError' observer error s = (c, s')
    /\ pending s' = pending s
    /\ shrinks (timers s') (timers s)
    /\ (isDisposed s = true -> isDisposed s' = true)
    /\ exists new, log s' = log s ++ new
         /\ fetches new = []
         /\ (isDisposed s = true -> new = [])
         /\ one_shot_callbacks (callbacks new).
Proof.
  unfold requestStream_onRequestError, bind at 1, get_isDisposed.
  destruct (isDisposed s) eqn:Hdisposed.
  { exists (Normal tt), s. unfold ret. repeat split; auto using shrinks_refl.
    exists []. rewrite app_nil_r. repeat split; auto. now left. }
  unfold call_onError.
  destruct (invoke_callbacks RequestStreamHandle (EvOnError error)
              (option_map (fun f => f error) (onError observer)) s eq_refl)
    as (c1 & s1 & -> & Hp1 & Ht1 & Hd1 & new1 & Hl1 & Hf1 & Hc1).
  exists c1, s1. repeat split; auto; try discriminate.
  exists new1. rewrite Hc1. repeat split; auto; try discriminate.
  unfold one_shot_callbacks.
  destruct (option_map (fun f => f error) (onError observer)); eauto 7.
Qed.

(** The reaction of a one-shot stream, whichever of the three it is. *)
Lemma deliver_one_shot operation variables (observer : Observer)
  (reaction : Pending) original (s : State') :
  (forall pollInterval promise, reaction <> PollReaction pollInterval promise) ->
  exists s', deliver' operation variables observer reaction original s
             = (Normal tt, s')
    /\ pending s' = pending s
    /\ shrinks (timers s') (timers s)
    /\ (isDisposed s = true -> isDisposed s' = true)
    /\ exists new, log s' = log s ++ new
         /\ fetches new = []
         /\ (isDisposed s = true -> callbacks new = [])
         /\ one_shot_callbacks (callbacks new).
Proof.
  intros Hkind.
  assert (Hsuccess : forall payload,
    exists s', bind (then_ (Fulfilled payload)
                       (onRequestSuccess' operation variables observer) None)
                 (fun derived => unhandled derived) s = (Normal tt, s')
      /\ pending s' = pending s
      /\ shrinks (timers s') (timers s)
      /\ (isDisposed s = true -> isDisposed s' = true)
      /\ exists new, log s' = log s ++ new
           /\ fetches new = []
           /\ (isDisposed s = true -> callbacks new = [])
           /\ one_shot_callbacks (callbacks new)).
  { intros payload. unfold then_, bind, reaction_of.
    destruct (onRequestSuccess_spec operation variables observer payload s)
      as (c & s1 & -> & Hp & Ht & Hd & new & Hl & Hf & Hn & Hc).
    destruct c as [[]|e]; unfold unhandled, ret, emit; simpl;
      eexists; (split; [reflexivity|]); simpl; repeat split; auto.
    - exists new. repeat split; auto. intros H. now rewrite (Hn H).
    - exists (new ++ [EvUncaught e]). rewrite Hl, <- app_assoc.
      rewrite fetches_app, callbacks_app, Hf. simpl. rewrite app_nil_r.
      repeat split; auto. intros H. now rewrite (Hn H). }
  assert (Hfailure : forall error,
    exists s', bind (reaction_of (onRequestError' observer error))
                 (fun derived => unhandled derived) s = (Normal tt, s')
      /\ pending s' = pending s
      /\ shrinks (timers s') (timers s)
      /\ (isDisposed s = true -> isDisposed s' = true)
      /\ exists new, log s' = log s ++ new
           /\ fetches new = []
           /\ (isDisposed s = true -> callbacks new = [])
           /\ one_shot_callbacks (callbacks new)).
  { intros error. unfold bind, reaction_of.
    destruct (onRequestError_spec observer error s)
      as (c & s1 & -> & Hp & Ht & Hd & new & Hl & Hf & Hn & Hc).
    destruct c as [[]|e]; unfold unhandled, ret, emit; simpl;
      eexists; (split; [reflexivity|]); simpl; repeat split; auto.
    - exists new. repeat split; auto. intros H. now rewrite (Hn H).
    - exists (new ++ [EvUncaught e]). rewrite Hl, <- app_assoc.
      rewrite fetches_app, callbacks_app, Hf. simpl. rewrite app_nil_r.
      repeat split; auto. intros H. now rewrite (Hn H). }
  destruct reaction as [data|error|promise|pollInterval promise].
  - apply Hsuccess.
  - unfold deliver, then_, bind, ret, unhandled, emit. simpl.
    eexists; (split; [reflexivity|]); simpl; repeat split;
      auto using shrinks_refl.
    exists [EvUncaught error]. repeat split; auto. now left.
  - destruct original as [payload|reason].
    + apply Hsuccess.
    + apply Hfailure.
  - now elim (Hkind pollInterval promise).
Qed.

Lemma step_one_shot (fetch : Fetch) operation variables observer i (s : State') :
  one_shot s ->
  one_shot (step' fetch operation variables observer RequestStreamHandle i s)
  /\ (isDisposed s = true ->
      isDisposed (step' fetch operation variables observer RequestStreamHandle
                    i s) = true
      /\ callbacks (log (step' fetch operation variables observer
                           RequestStreamHandle i s))
         = callbacks (log s)).
Proof.
  intros [Htimers Hpending]. unfold step, turn. destruct i as [|original|id].
  - destruct (handle_dispose_spec RequestStreamHandle s)
      as (s' & -> & Hp & Hl & Ht & Hd & _).
    rewrite Htimers in Ht. apply shrinks_nil in Ht.
    assert (Hc : callbacks (log s') = callbacks (log s))
      by (rewrite Hl, callbacks_app; apply app_nil_r).
    split; [|auto].
    unfold one_shot. rewrite Ht, Hp, Hc. auto.
  - unfold bind, take_pending.
    destruct (pending s) as [reaction|] eqn:Hp.
    2:{ unfold ret, one_shot. simpl. auto. }
    match goal with |- context [deliver _ _ _ _ _ _ _ ?s0] => set (s1 := s0) end.
    destruct (deliver_one_shot operation variables observer reaction original s1)
      as (s' & -> & Hp' & Ht & Hd & new & Hl & Hf & Hn & Hc).
    { intros pollInterval promise ->. exact Hpending. }
    simpl in Hp', Ht, Hd, Hl, Hn.
    rewrite Htimers in Ht. apply shrinks_nil in Ht.
    assert (Hnone : callbacks (log s) = [])
      by (destruct reaction; [auto | auto | auto | contradiction]).
    split.
    + unfold one_shot. rewrite Ht, Hp', Hl, callbacks_app, Hnone. auto.
    + intros H. split; [auto|].
      rewrite Hl, callbacks_app, (Hn H). apply app_nil_r.
  - unfold bind, take_timer. rewrite Htimers. simpl. unfold one_shot. simpl.
    auto.
Qed.

Lemma run_one_shot (fetch : Fetch) operation variables observer inputs
  (s : State') :
  one_shot s ->
  one_shot (run' fetch operation variables observer RequestStreamHandle inputs s)
  /\ (isDisposed s = true ->
      callbacks (log (run' fetch operation variables observer
                        RequestStreamHandle inputs s))
      = callbacks (log s)).
Proof.
  revert s. induction inputs as [|i inputs IH]; intros s H; simpl; [auto|].
  destruct (step_one_shot fetch operation variables observer i s H)
    as (H1 & Hd1).
  destruct (IH _ H1) as (H2 & Hd2).
  split; [exact H2|].
  intros Hd. destruct (Hd1 Hd) as [Hd' Hc]. now rewrite (Hd2 Hd').
Qed.

Lemma requestStream_one_shot (fetch : Fetch) (subscribe : option Subscribe)
  operation variables cacheConfig observer (s : State') :
  query_operation (query operation) <> "subscription" ->
  pollInterval_of cacheConfig = None ->
  requestStream' fetch subscribe operation variables cacheConfig observer s
  = (Normal RequestStreamHandle,
     {| isDisposed := false; timeout := timeout s;
        pending :=
          match fetch (log s) operation variables cacheConfig None with
          | KindData data => Some (StreamData data)
          | KindError error => Some (StreamError error)
          | KindPromise promise => Some (StreamPromise promise)
          | KindOther _ => pending s
          end;
        timers := timers s; nextTimerId := nextTimerId s;
        log := log s ++ [EvFetch operation variables cacheConfig None] |}).
Proof.
  intros Hkind Hpoll. unfold requestStream.
  destruct (String.eqb_spec (query_operation (query operation)) "subscription");
    [contradiction|].
  rewrite Hpoll. unfold call_fetch. unfold_M. simpl.
  destruct (fetch (log s) operation variables cacheConfig None); reflexivity.
Qed.

Lemma one_shot_success operation variables (observer : Observer) raw r f g
  (s : State') :
  isDisposed s = false ->
  normalize' operation variables raw = Normal r ->
  onNext observer = Some f ->
  onCompleted observer = Some g ->
  disposes (f (Some r) (log s)) = false ->
  throws (f (Some r) (log s)) = None ->
  exists c s', onRequestSuccess' operation variables observer raw s = (c, s')
    /\ callbacks (log s') = callbacks (log s) ++ [EvOnNext (Some r); EvOnCompleted].
Proof.
  intros Hdisposed Hnormalize HonNext HonCompleted Hdisposes Hthrows.
  unfold requestStream_onRequestSuccess, bind at 1, get_isDisposed.
  rewrite Hdisposed, Hnormalize.
  unfold call_onNext, call_onCompleted, bind at 1.
  rewrite HonNext, HonCompleted. simpl option_map.
  destruct (invoke_spec RequestStreamHandle (EvOnNext (Some r))
              (Some (f (Some r))) s)
    as (c1 & s1 & -> & _ & _ & _ & -> & Hl1).
  rewrite Hthrows. rewrite Hdisposes in Hl1.
  destruct (invoke_spec RequestStreamHandle EvOnCompleted (Some g) s1)
    as (c2 & s2 & -> & _ & _ & _ & _ & Hl2).
  exists c2, s2. split; [reflexivity|].
  destruct (disposes (g (log s1)));
    rewrite Hl2, Hl1, <- app_assoc, !callbacks_app; reflexivity.
Qed.

(** C8, as the code has it.  In a one-shot stream (no subscription, no poll
    interval) the callbacks made so far are, at any time, none, [onNext]
    alone, [onNext] followed by [onCompleted], [onCompleted] alone (when there
    is no [onNext] handler), or [onError] alone: [onNext] comes before
    [onCompleted], and neither is called once [onError] has been.  The
    disposed flag is read once, when the reaction starts: a handle that is
    disposed before its reaction runs gets no callback at all, then or later.
    When the handle is not disposed, the payload normalizes and [onNext]
    returns without disposing, the reaction calls [onNext] with the
    normalized payload and then [onCompleted]. *)
Theorem one_shot_stream_delivery :
  forall (fetch : Fetch) (subscribe : option Subscribe) operation variables
         cacheConfig observer inputs (s : State'),
    query_operation (query operation) <> "subscription" ->
    pollInterval_of cacheConfig = None ->
    s = run' fetch operation variables observer RequestStreamHandle inputs
          (snd (requestStream' fetch subscribe operation variables cacheConfig
                  observer init)) ->
    one_shot_callbacks (callbacks (log s))
    /\ (isDisposed s = true ->
        forall more,
          callbacks (log (run' fetch operation variables observer
                            RequestStreamHandle more s))
          = callbacks (log s))
    /\ (forall raw r f g original,
          isDisposed s = false ->
          pending s = Some (StreamData raw)
          \/ (exists promise, pending s = Some (StreamPromise promise)
                /\ original = Fulfilled raw) ->
          normalize' operation variables raw = Normal r ->
          onNext observer = Some f ->
          onCompleted observer = Some g ->
          disposes (f (Some r) (log s)) = false ->
          throws (f (Some r) (log s)) = None ->
          callbacks (log (step' fetch operation variables observer
                            RequestStreamHandle (Settle original) s))
          = [EvOnNext (Some r); EvOnCompleted]).
Proof.
  intros fetch subscribe operation variables cacheConfig observer inputs s
    Hkind Hpoll Hs.
  assert (Hinv : one_shot s).
  { rewrite Hs, (requestStream_one_shot fetch subscribe operation variables
                   cacheConfig observer init Hkind Hpoll).
    apply run_one_shot. unfold one_shot. simpl. split; [reflexivity|].
    destruct (fetch [] operation variables cacheConfig None);
      simpl; try reflexivity. now left. }
  clear Hs. split; [|split].
  - destruct Hinv as [_ Hpending].
    destruct (pending s) as [[]|]; try contradiction; try exact Hpending;
      rewrite Hpending; now left.
  - intros Hdisposed more.
    now apply (run_one_shot fetch operation variables observer more s Hinv).
  - intros raw r f g original Hdisposed Hpending Hnormalize HonNext
      HonCompleted Hdisposes Hthrows.
    assert (Hnone : callbacks (log s) = []).
    { destruct Hinv as [_ Hinv].
      destruct Hpending as [Hp | (promise & Hp & _)]; now rewrite Hp in Hinv. }
    assert (Hreaction :
      exists reaction, pending s = Some reaction
        /\ deliver' operation variables observer reaction original
           = bind (then_ (Fulfilled raw)
                     (onRequestSuccess' operation variables observer) None)
               (fun derived => unhandled derived)).
    { destruct Hpending as [Hp | (promise & Hp & ->)]; eauto. }
    destruct Hreaction as (reaction & Hp & Hdeliver).
    unfold step, turn, bind at 1, take_pending. rewrite Hp, Hdeliver.
    unfold then_, bind, reaction_of.
    match goal with |- context [requestStream_onRequestSuccess _ _ _ _ _ _ ?s0] =>
      destruct (one_shot_success operation variables observer raw r f g s0)
        as (c & s' & -> & Hcallbacks); auto
    end.
    simpl in Hcallbacks. rewrite Hnone in Hcallbacks.
    destruct c as [[]|e]; unfold unhandled, ret, emit; simpl;
      [exact Hcallbacks|].
    rewrite callbacks_app, Hcallbacks. reflexivity.
Qed.

(** ** Nothing is delivered during the call *)

Lemma invoke_called (handle : @Disposable SubscriptionHandle) (ev : Event')
  (A : Type) (handler : option A) (callback : A -> list Event' -> Reaction)
  (s : State') :
  is_callback ev = true ->
  exists c s',
    invoke handle ev (option_map callback handler) s = (c, s')
    /\ c = match option_map (fun f => throws (callback f (log s))) handler with
           | Some (Some e) => Throw e
           | _ => Normal tt
           end
    /\ callbacks (log s') = callbacks (log s) ++ called handler ev.
Proof.
  intros Hev.
  destruct (invoke_spec handle ev (option_map callback handler) s)
    as (c & s' & Hinvoke & _ & _ & _ & Hlog).
  exists c, s'. split; [exact Hinvoke|].
  destruct handler as [f|]; simpl in *.
  - destruct Hlog as [-> ->]. split; [reflexivity|].
    rewrite callbacks_app. unfold callbacks at 2. simpl. rewrite Hev.
    destruct (disposes _); reflexivity.
  - destruct Hlog as [-> ->]. split; [reflexivity|]. now rewrite app_nil_r.
Qed.

(** What [onRequestSuccess] of a one-shot stream delivers when the handle is
    not disposed. *)
Lemma onRequestSuccess_delivers operation variables (observer : Observer) raw
  (s : State') :
  isDisposed s = false ->
  exists c s', onRequestSuccess' operation variables observer raw s = (c, s')
    /\ callbacks (log s')
       = callbacks (log s)
         ++ one_shot_delivery observer (log s)
              (normalize' operation variables raw).
Proof.
  intros Hdisposed.
  unfold requestStream_onRequestSuccess, bind at 1, get_isDisposed.
  rewrite Hdisposed.
  destruct (normalizePayload ROOT_ID normalizeRelayPayload operation variables
              raw) as [r|err]; unfold one_shot_delivery.
  - unfold call_onNext, call_onCompleted, bind.
    destruct (invoke_called RequestStreamHandle (EvOnNext (Some r)) _
                (onNext observer) (fun f => f (Some r)) s eq_refl)
      as (c1 & s1 & -> & Hc1 & Hl1).
    destruct (option_map (fun f => throws (f (Some r) (log s))) (onNext observer))
      as [[e|]|]; subst c1.
    + eexists _, _. split; [reflexivity|]. now rewrite app_nil_r.
    + destruct (invoke_called RequestStreamHandle EvOnCompleted _
                  (onCompleted observer) (fun g => g) s1 eq_refl)
        as (c2 & s2 & Hinvoke & _ & Hl2).
      replace (option_map (fun g => g) (onCompleted observer))
        with (onCompleted observer) in Hinvoke
        by (destruct (onCompleted observer); reflexivity).
      rewrite Hinvoke. eexists _, _. split; [reflexivity|].
      now rewrite Hl2, Hl1, <- app_assoc.
    + destruct (invoke_called RequestStreamHandle EvOnCompleted _
                  (onCompleted observer) (fun g => g) s1 eq_refl)
        as (c2 & s2 & Hinvoke & _ & Hl2).
      replace (option_map (fun g => g) (onCompleted observer))
        with (onCompleted observer) in Hinvoke
        by (destruct (onCompleted observer); reflexivity).
      rewrite Hinvoke. eexists _, _. split; [reflexivity|].
      now rewrite Hl2, Hl1, <- app_assoc.
  - unfold call_onError.
    destruct (invoke_called RequestStreamHandle (EvOnError err) _
                (onError observer) (fun f => f err) s eq_refl)
      as (c1 & s1 & -> & _ & Hl1).
    eexists _, _. split; [reflexivity|]. exact Hl1.
Qed.

(** What [onRequestError] of a one-shot stream delivers when the handle is
    not disposed. *)
Lemma onRequestError_delivers (observer : Observer) error (s : State') :
  isDisposed s = false ->
  exists c s', onRequestError' observer error s = (c, s')
    /\ callbacks (log s')
       = callbacks (log s) ++ called (onError observer) (EvOnError error).
Proof.
  intros Hdisposed.
  unfold requestStream_onRequestError, bind at 1, get_isDisposed.
  rewrite Hdisposed. unfold call_onError.
  destruct (invoke_called RequestStreamHandle (EvOnError error) _
              (onError observer) (fun f => f error) s eq_refl)
    as (c1 & s1 & -> & _ & Hl1).
  eexists _, _. split; [reflexivity|]. exact Hl1.
Qed.

(** The turn in which the reaction of a one-shot stream runs on a payload. *)
Lemma settle_one_shot_payload (fetch : Fetch) operation variables observer raw
  original (s : State') :
  isDisposed s = false ->
  pending s = Some (StreamData raw)
  \/ (exists promise, pending s = Some (StreamPromise promise)
                      /\ original = Fulfilled raw) ->
  callbacks (log (step' fetch operation variables observer RequestStreamHandle
                    (Settle original) s))
  = callbacks (log s)
    ++ one_shot_delivery observer (log s) (normalize' operation variables raw).
Proof.
  intros Hdisposed Hpending.
  assert (Hreaction :
    exists reaction, pending s = Some reaction
      /\ deliver' operation variables observer reaction original
         = bind (then_ (Fulfilled raw)
                   (onRequestSuccess' operation variables observer) None)
             (fun derived => unhandled derived)).
  { destruct Hpending as [Hp | (promise & Hp & ->)]; eauto. }
  destruct Hreaction as (reaction & Hp & Hdeliver).
  unfold step, turn, bind at 1, take_pending. rewrite Hp, Hdeliver.
  unfold then_, bind, reaction_of.
  match goal with |- context [requestStream_onRequestSuccess _ _ _ _ _ _ ?s0] =>
    destruct (onRequestSuccess_delivers operation variables observer raw s0
                Hdisposed) as (c & s' & -> & Hcallbacks)
  end.
  simpl in Hcallbacks.
  destruct c as [[]|e]; unfold unhandled, ret, emit; simpl;
    [exact Hcallbacks|].
  rewrite callbacks_app, Hcallbacks. simpl. apply app_nil_r.
Qed.

(** The turn in which the reaction of a one-shot stream runs on the
    rejection of the promise of the fetch. *)
Lemma settle_one_shot_rejection (fetch : Fetch) operation variables observer
  promise error (s : State') :
  isDisposed s = false ->
  pending s = Some (StreamPromise promise) ->
  callbacks (log (step' fetch operation variables observer RequestStreamHandle
                    (Settle (Rejected error)) s))
  = callbacks (log s) ++ called (onError observer) (EvOnError error).
Proof.
  intros Hdisposed Hp.
  unfold step, turn, bind at 1, take_pending. rewrite Hp.
  unfold deliver, then_, bind, reaction_of.
  match goal with |- context [requestStream_onRequestError _ _ ?s0] =>
    destruct (onRequestError_delivers observer error s0 Hdisposed)
      as (c & s' & -> & Hcallbacks)
  end.
  simpl in Hcallbacks.
  destruct c as [[]|e]; unfold unhandled, ret, emit; simpl;
    [exact Hcallbacks|].
  rewrite callbacks_app, Hcallbacks. simpl. apply app_nil_r.
Qed.

(** The turn in which the reaction of a poll tick runs. *)
Lemma settle_tick (fetch : Fetch) operation variables observer pollInterval
  promise original (s : State') :
  pending s = Some (PollReaction pollInterval promise) ->
  callbacks (log (step' fetch operation variables observer PollingHandle
                    (Settle original) s))
  = callbacks (log s) ++ delivered observer (settle_poll promise original).
Proof.
  intros Hp.
  unfold step, turn, bind at 1, take_pending. rewrite Hp. unfold deliver.
  destruct (settle_poll promise original) as [payload|reason]; unfold delivered.
  - unfold poll_reaction, then_, poll_onRequestSuccess, bind at 1, reaction_of,
      bind at 1, call_onNext.
    match goal with |- context [invoke _ _ _ ?s0] =>
      destruct (invoke_called PollingHandle (EvOnNext payload) _
                  (onNext observer) (fun f => f payload) s0 eq_refl)
        as (c1 & s1 & -> & _ & Hl1)
    end.
    simpl in Hl1.
    destruct c1 as [[]|e]; unfold rethrow; unfold_M; simpl; exact Hl1.
  - match goal with |- context [poll_reaction _ _ _ ?s0] =>
      destruct (poll_reaction_rejected observer pollInterval reason s0)
        as (s' & -> & _ & _ & _ & Hlog)
    end.
    simpl in Hlog. rewrite Hlog, callbacks_app. f_equal.
    destruct (onError observer) as [f|]; [|reflexivity].
    destruct (disposes _); reflexivity.
Qed.

(** The call of [doFetchWithPolling] with a positive interval, by the answer
    of the fetch primitive: the handle and the reaction of the first tick, or
    the exception of [request] and nothing registered. *)
Lemma doFetchWithPolling_answer (fetch : Fetch) operation variables interval
  (s : State') :
  (0 < interval)%Z ->
  exists c s',
    doFetchWithPolling' (request' fetch) operation variables interval s = (c, s')
    /\ log s' = log s ++ [EvFetch operation variables (Some force_true) None]
    /\ timers s' = timers s
    /\ match fetch (log s) operation variables (Some force_true) None with
       | KindData raw =>
           if truthy raw then
             match normalize' operation variables raw with
             | Normal r =>
                 c = Normal PollingHandle
                 /\ pending s'
                    = Some (PollReaction interval (Promise_resolve (Some r)))
             | Throw e => c = Throw e /\ pending s' = pending s
             end
           else
             c = Normal PollingHandle
             /\ pending s' = Some (PollReaction interval (Promise_resolve None))
       | KindError error =>
           c = Normal PollingHandle
           /\ pending s' = Some (PollReaction interval (Promise_reject error))
       | KindPromise q =>
           c = Normal PollingHandle
           /\ pending s'
              = Some (PollReaction interval
                        (RequestPromise
                           (promise_then q (normalize' operation variables))))
       | KindOther k =>
           c = Throw (invariant_violation
                        "RelayNetwork: unsupported response kind `%s`" [k])
           /\ pending s' = pending s
       end.
Proof.
  intros Hpos.
  unfold doFetchWithPolling, invariant, bind at 1.
  destruct (Z.ltb_spec 0 interval) as [_|Hle]; [|lia].
  unfold ret at 1, bind at 1, set_isDisposed at 1, bind at 1, set_timeout at 1, bind.
  match goal with |- context [poll _ _ _ _ ?s0] =>
    destruct (poll_answer fetch operation variables interval s0)
      as (c & s' & -> & Hlog & Htimers & _ & Hanswer)
  end.
  simpl in Hlog, Htimers, Hanswer.
  destruct (fetch (log s) operation variables (Some force_true) None)
    as [raw | error | q | k].
  - destruct (truthy raw).
    + destruct (normalize' operation variables raw) as [r|e];
        destruct Hanswer as [-> Hp]; eexists _, _; (split; [reflexivity|]);
        auto.
    + destruct Hanswer as [-> Hp]; eexists _, _; (split; [reflexivity|]); auto.
  - destruct Hanswer as [-> Hp]; eexists _, _; (split; [reflexivity|]); auto.
  - destruct Hanswer as [-> Hp]; eexists _, _; (split; [reflexivity|]); auto.
  - destruct Hanswer as [-> Hp]; eexists _, _; (split; [reflexivity|]); auto.
Qed.

(** C9, as the code has it.  For an operation that is not a subscription,
    [requestStream] calls no callback of the observer while it runs, whatever
    the fetch primitive answers and whether the call returns or throws.

    Without a poll interval the call returns the handle in every case and
    leaves the reaction for the envelope pending; the payload of a [data]
    envelope, or the outcome of the promise of a [promise] envelope, is
    delivered in the later turn in which that reaction runs: [onError] for
    a rejection or for a payload that does not normalize, otherwise [onNext]
    and then, unless [onNext] threw, [onCompleted].

    With a poll interval the call throws, and nothing is registered, when the
    interval is not positive, when the kind of the response is none of the
    three, or when the truthy payload of a [data] envelope does not normalize;
    otherwise it returns the handle and leaves the reaction of the first tick
    pending, and the turn in which that reaction runs calls [onNext] for a
    payload and [onError] for an [error] envelope or a rejection. *)
Theorem requestStream_defers_callbacks :
  forall (fetch : Fetch) (subscribe : option Subscribe) operation variables
         cacheConfig observer (s : State'),
    query_operation (query operation) <> "subscription" ->
    callbacks (log (snd (requestStream' fetch subscribe operation variables
                           cacheConfig observer s)))
    = callbacks (log s)
    /\ (pollInterval_of cacheConfig = None ->
        fst (requestStream' fetch subscribe operation variables cacheConfig
               observer s) = Normal RequestStreamHandle
        /\ pending (snd (requestStream' fetch subscribe operation variables
                           cacheConfig observer s))
           = match fetch (log s) operation variables cacheConfig None with
             | KindData data => Some (StreamData data)
             | KindError error => Some (StreamError error)
             | KindPromise promise => Some (StreamPromise promise)
             | KindOther _ => pending s
             end
        /\ (forall raw original,
              fetch (log s) operation variables cacheConfig None = KindData raw
              \/ (exists promise,
                    fetch (log s) operation variables cacheConfig None
                    = KindPromise promise
                    /\ original = Fulfilled raw) ->
              callbacks
                (log (step' fetch operation variables observer
                        RequestStreamHandle (Settle original)
                        (snd (requestStream' fetch subscribe operation variables
                                cacheConfig observer s))))
              = callbacks (log s)
                ++ one_shot_delivery observer
                     (log s ++ [EvFetch operation variables cacheConfig None])
                     (normalize' operation variables raw))
        /\ (forall promise error,
              fetch (log s) operation variables cacheConfig None
              = KindPromise promise ->
              callbacks
                (log (step' fetch operation variables observer
                        RequestStreamHandle (Settle (Rejected error))
                        (snd (requestStream' fetch subscribe operation variables
                                cacheConfig observer s))))
              = callbacks (log s)
                ++ called (onError observer) (EvOnError error)))
    /\ (forall interval,
          pollInterval_of cacheConfig = Some interval ->
          let returns promise :=
            fst (requestStream' fetch subscribe operation variables cacheConfig
                   observer s) = Normal PollingHandle
            /\ pending (snd (requestStream' fetch subscribe operation variables
                               cacheConfig observer s))
               = Some (PollReaction interval promise)
            /\ forall original,
                 callbacks
                   (log (step' fetch operation variables observer PollingHandle
                           (Settle original)
                           (snd (requestStream' fetch subscribe operation
                                   variables cacheConfig observer s))))
                 = callbacks (log s)
                   ++ delivered observer (settle_poll promise original) in
          let fails error :=
            fst (requestStream' fetch subscribe operation variables cacheConfig
                   observer s) = Throw error
            /\ pending (snd (requestStream' fetch subscribe operation variables
                               cacheConfig observer s))
               = pending s in
          if (0 <? interval)%Z then
            match fetch (log s) operation variables (Some force_true) None with
            | KindData raw =>
                if truthy raw then
                  match normalize' operation variables raw with
                  | Normal r => returns (Promise_resolve (Some r))
                  | Throw e => fails e
                  end
                else returns (Promise_resolve None)
            | KindError error => returns (Promise_reject error)
            | KindPromise q =>
                returns (RequestPromise
                           (promise_then q (normalize' operation variables)))
            | KindOther k =>
                fails (invariant_violation
                         "RelayNetwork: unsupported response kind `%s`" [k])
            end
          else
            exists message, fails (InvariantViolation message)).
Proof.
  intros fetch subscribe operation variables cacheConfig observer s Hkind.
  destruct (pollInterval_of cacheConfig) as [interval|] eqn:Hpoll.
  - rewrite (requestStream_polls fetch subscribe operation variables cacheConfig
               observer interval s Hkind Hpoll).
    assert (Hcases :
      callbacks (log (snd (doFetchWithPolling' (request' fetch) operation
                             variables interval s)))
      = callbacks (log s)
      /\ let returns promise :=
            fst (doFetchWithPolling' (request' fetch) operation variables
                   interval s) = Normal PollingHandle
            /\ pending (snd (doFetchWithPolling' (request' fetch) operation
                               variables interval s))
               = Some (PollReaction interval promise)
            /\ forall original,
                 callbacks
                   (log (step' fetch operation variables observer PollingHandle
                           (Settle original)
                           (snd (doFetchWithPolling' (request' fetch) operation
                                   variables interval s))))
                 = callbacks (log s)
                   ++ delivered observer (settle_poll promise original) in
          let fails error :=
            fst (doFetchWithPolling' (request' fetch) operation variables
                   interval s) = Throw error
            /\ pending (snd (doFetchWithPolling' (request' fetch) operation
                               variables interval s))
               = pending s in
          if (0 <? interval)%Z then
            match fetch (log s) operation variables (Some force_true) None with
            | KindData raw =>
                if truthy raw then
                  match normalize' operation variables raw with
                  | Normal r => returns (Promise_resolve (Some r))
                  | Throw e => fails e
                  end
                else returns (Promise_resolve None)
            | KindError error => returns (Promise_reject error)
            | KindPromise q =>
                returns (RequestPromise
                           (promise_then q (normalize' operation variables)))
            | KindOther k =>
                fails (invariant_violation
                         "RelayNetwork: unsupported response kind `%s`" [k])
            end
          else
            exists message, fails (InvariantViolation message)).
    { cbv zeta.
      destruct (Z.ltb_spec 0 interval) as [Hpos|Hle].
      - destruct (doFetchWithPolling_answer fetch operation variables interval s
                    Hpos) as (c & s' & -> & Hlog & _ & Hanswer).
        assert (Hcallbacks : callbacks (log s') = callbacks (log s))
          by (rewrite Hlog, callbacks_app; apply app_nil_r).
        split; [exact Hcallbacks|]. simpl fst. simpl snd.
        assert (Hreturns : forall promise,
                  c = Normal PollingHandle ->
                  pending s' = Some (PollReaction interval promise) ->
                  c = Normal PollingHandle
                  /\ pending s' = Some (PollReaction interval promise)
                  /\ forall original,
                       callbacks
                         (log (step' fetch operation variables observer
                                 PollingHandle (Settle original) s'))
                       = callbacks (log s)
                         ++ delivered observer (settle_poll promise original)).
        { intros promise Hc Hp. split; [exact Hc|]. split; [exact Hp|].
          intros original.
          now rewrite (settle_tick fetch operation variables observer interval
                         promise original s' Hp), Hcallbacks. }
        destruct (fetch (log s) operation variables (Some force_true) None)
          as [raw | error | q | k].
        + destruct (truthy raw).
          * destruct (normalize' operation variables raw) as [r|e];
              destruct Hanswer as [Hc Hp]; auto.
          * destruct Hanswer as [Hc Hp]; auto.
        + destruct Hanswer as [Hc Hp]; auto.
        + destruct Hanswer as [Hc Hp]; auto.
        + destruct Hanswer as [Hc Hp]; auto.
      - unfold doFetchWithPolling, invariant, bind at 1 2 3.
        destruct (Z.ltb_spec 0 interval) as [Hpos|_]; [lia|].
        unfold throw. simpl. split; [reflexivity|]. eexists. split; reflexivity. }
    destruct Hcases as [Hcallbacks Hcases].
    split; [exact Hcallbacks|]. split; [discriminate|].
    intros interval' [= <-]. exact Hcases.
  - rewrite (requestStream_one_shot fetch subscribe operation variables
               cacheConfig observer s Hkind Hpoll). simpl fst. simpl snd.
    match goal with |- context [step' _ _ _ _ _ _ ?s0] => set (s1 := s0) end.
    assert (Hcallbacks : callbacks (log s1) = callbacks (log s))
      by (simpl; rewrite callbacks_app; apply app_nil_r).
    split; [exact Hcallbacks|].
    split; [|intros interval H; discriminate H].
    intros _. split; [reflexivity|]. split; [reflexivity|]. split.
    + intros raw original Hanswer.
      rewrite (settle_one_shot_payload fetch operation variables observer raw
                 original s1 eq_refl), Hcallbacks; [reflexivity|].
      destruct Hanswer as [Hfetch | (promise & Hfetch & ->)]; simpl;
        rewrite Hfetch; eauto.
    + intros promise error Hfetch.
      rewrite (settle_one_shot_rejection fetch operation variables observer
                 promise error s1 eq_refl), Hcallbacks; [reflexivity|].
      simpl. now rewrite Hfetch.
Qed.

(** * Further properties of the code *)

(** ** Disposal *)

Lemma dispose_frame (s : State') :
  timeout (snd (dispose s)) = timeout s
  /\ nextTimerId (snd (dispose s)) = nextTimerId s
  /\ timers (snd (dispose s))
     = if isDisposed s then timers s
       else match timeout s with
            | Some id => without_timer id (timers s)
            | None => timers s
            end.
Proof.
  unfold dispose. unfold_M. destruct s as [dis tmo pend tms nxt lg]; simpl.
  destruct dis; simpl; [auto|]. destruct tmo; simpl; auto.
Qed.

Lemma handle_dispose_frame (handle : @Disposable SubscriptionHandle)
  (s : State') :
  timeout (snd (handle_dispose handle s)) = timeout s
  /\ nextTimerId (snd (handle_dispose handle s)) = nextTimerId s.
Proof.
  unfold handle_dispose, bind, emit. destruct handle as [| |d].
  - unfold requestStream_dispose, set_isDisposed. simpl. auto.
  - match goal with |- context [dispose ?s1] =>
      destruct (dispose_frame s1) as (Ht & Hn & _);
      destruct (dispose_spec s1) as (s' & Hd & _)
    end.
    rewrite Hd in *. simpl in *. auto.
  - unfold ret. simpl. auto.
Qed.

Lemma invoke_frame (handle : @Disposable SubscriptionHandle) (ev : Event')
  (callback : option (list Event' -> Reaction)) (s : State') :
  timeout (snd (invoke handle ev callback s)) = timeout s
  /\ nextTimerId (snd (invoke handle ev callback s)) = nextTimerId s.
Proof.
  unfold invoke. destruct callback as [f|]; [|unfold ret; simpl; auto].
  unfold bind, get_log, emit. simpl.
  destruct (disposes (f (log s))).
  - match goal with |- context [handle_dispose handle ?s1] =>
      destruct (handle_dispose_frame handle s1) as (Ht & Hn);
      destruct (handle_dispose_spec handle s1) as (s' & Hd & _)
    end.
    rewrite Hd in *. simpl in *.
    destruct (throws (f (log s))); unfold throw, ret; simpl; auto.
  - unfold ret at 1.
    destruct (throws (f (log s))); unfold throw, ret; simpl; auto.
Qed.


(** ** The poll interval *)

(** X2. A poll interval that is zero or a negative integer is refused at
    once: [requestStream] throws an invariant violation and leaves the state
    untouched, so the fetch primitive is not called, nothing is scheduled and
    no handle is returned.  For a safe integer the message names the
    interval. *)
Theorem nonpositive_poll_interval_is_refused :
  forall (fetch : Fetch) (subscribe : option Subscribe) operation variables
         cacheConfig observer interval (s : State'),
    query_operation (query operation) <> "subscription" ->
    pollInterval_of cacheConfig = Some interval ->
    (interval <= 0)%Z ->
    exists message,
      requestStream' fetch subscribe operation variables cacheConfig observer s
      = (Throw (InvariantViolation message), s)
      /\ ((MIN_SAFE_INTEGER <= interval)%Z ->
          message
          = ("RelayNetwork: Expected pollInterval to be positive, got `"
             ++ string_of_number interval ++ "`.")%string).
Proof.
  intros fetch subscribe operation variables cacheConfig observer interval s
    Hkind Hpoll Hle.
  rewrite (requestStream_polls fetch subscribe operation variables cacheConfig
             observer interval s Hkind Hpoll).
  unfold doFetchWithPolling, invariant, bind at 1.
  destruct (Z.ltb_spec 0 interval) as [Hlt|_]; [lia|].
  eexists. split; [reflexivity|]. intros _. reflexivity.
Qed.

(** ** The wrapped [onNext] of a subscription *)

(** X3. The [onNext] that [requestStream] hands to the subscribe primitive
    normalizes each raw payload first.  A payload that normalizes goes to the
    observer's [onNext] and to nothing else; a payload that does not goes to
    the observer's [onError] with the normalizer's error and never to
    [onNext].  The wrapper itself throws only what the observer's callback
    throws: with no [onError] handler a normalization error is dropped. *)
Theorem subscription_payloads_are_normalized :
  forall (handle : @Disposable SubscriptionHandle) operation variables
         (observer : Observer) payload (s : State'),
    match normalize' operation variables payload with
    | Normal relayPayload =>
        match onNext observer with
        | Some f =>
            fst (subscribe_onNext ROOT_ID normalizeRelayPayload handle operation
                   variables observer payload s)
            = match throws (f (Some relayPayload) (log s)) with
              | Some e => Throw e
              | None => Normal tt
              end
            /\ callbacks (log (snd (subscribe_onNext ROOT_ID
                   normalizeRelayPayload handle operation variables observer
                   payload s)))
               = callbacks (log s) ++ [EvOnNext (Some relayPayload)]
        | None =>
            subscribe_onNext ROOT_ID normalizeRelayPayload handle operation
              variables observer payload s = (Normal tt, s)
        end
    | Throw err =>
        match onError observer with
        | Some f =>
            fst (subscribe_onNext ROOT_ID normalizeRelayPayload handle operation
                   variables observer payload s)
            = match throws (f err (log s)) with
              | Some e => Throw e
              | None => Normal tt
              end
            /\ callbacks (log (snd (subscribe_onNext ROOT_ID
                   normalizeRelayPayload handle operation variables observer
                   payload s)))
               = callbacks (log s) ++ [EvOnError err]
        | None =>
            subscribe_onNext ROOT_ID normalizeRelayPayload handle operation
              variables observer payload s = (Normal tt, s)
        end
    end.
Proof.
  intros handle operation variables observer payload s.
  unfold subscribe_onNext.
  destruct (normalizePayload ROOT_ID normalizeRelayPayload operation variables
              payload) as [relayPayload|err].
  - unfold call_onNext. destruct (onNext observer) as [f|]; [|reflexivity].
    simpl option_map.
    destruct (invoke_spec handle (EvOnNext (Some relayPayload))
                (Some (f (Some relayPayload))) s)
      as (c & s' & -> & _ & _ & _ & -> & Hlog).
    simpl. split; [reflexivity|].
    rewrite Hlog, callbacks_app. destruct (disposes _); reflexivity.
  - unfold call_onError. destruct (onError observer) as [f|]; [|reflexivity].
    simpl option_map.
    destruct (invoke_spec handle (EvOnError err) (Some (f err)) s)
      as (c & s' & -> & _ & _ & _ & -> & Hlog).
    simpl. split; [reflexivity|].
    rewrite Hlog, callbacks_app. destruct (disposes _); reflexivity.
Qed.

(** ** More on the one-shot stream *)

Lemma step_one_shot_fetches (fetch : Fetch) operation variables observer i
  (s : State') :
  one_shot s ->
  fetches (log (step' fetch operation variables observer RequestStreamHandle
                  i s))
  = fetches (log s).
Proof.
  intros [Htimers Hpending]. unfold step, turn. destruct i as [|original|id].
  - destruct (handle_dispose_spec RequestStreamHandle s)
      as (s' & -> & _ & Hl & _).
    rewrite Hl, fetches_app. apply app_nil_r.
  - unfold bind, take_pending.
    destruct (pending s) as [reaction|] eqn:Hp; [|reflexivity].
    match goal with |- context [deliver _ _ _ _ _ _ _ ?s0] => set (s1 := s0) end.
    destruct (deliver_one_shot operation variables observer reaction original s1)
      as (s' & -> & _ & _ & _ & new & Hl & Hf & _).
    { intros pollInterval promise ->. exact Hpending. }
    simpl in Hl. rewrite Hl, fetches_app, Hf. apply app_nil_r.
  - unfold bind, take_timer. rewrite Htimers. reflexivity.
Qed.

Lemma run_one_shot_fetches (fetch : Fetch) operation variables observer inputs
  (s : State') :
  one_shot s ->
  fetches (log (run' fetch operation variables observer RequestStreamHandle
                  inputs s))
  = fetches (log s).
Proof.
  revert s. induction inputs as [|i inputs IH]; intros s H; simpl; [reflexivity|].
  rewrite IH by (now apply step_one_shot).
  now apply step_one_shot_fetches.
Qed.

Lemma requestStream_one_shot_start (fetch : Fetch) (subscribe : option Subscribe)
  operation variables cacheConfig observer :
  query_operation (query operation) <> "subscription" ->
  pollInterval_of cacheConfig = None ->
  one_shot (snd (requestStream' fetch subscribe operation variables cacheConfig
                   observer init)).
Proof.
  intros Hkind Hpoll.
  rewrite (requestStream_one_shot fetch subscribe operation variables
             cacheConfig observer init Hkind Hpoll).
  unfold one_shot. simpl. split; [reflexivity|].
  destruct (fetch [] operation variables cacheConfig None);
    simpl; try reflexivity. now left.
Qed.

(** X4. A one-shot stream calls the fetch primitive exactly once, during
    [requestStream], with the caller's own cache configuration and without
    uploadables; nothing that happens afterwards makes it call the fetch
    primitive again. *)
Theorem one_shot_fetches_once :
  forall (fetch : Fetch) (subscribe : option Subscribe) operation variables
         cacheConfig observer inputs,
    query_operation (query operation) <> "subscription" ->
    pollInterval_of cacheConfig = None ->
    fetches
      (log (run' fetch operation variables observer RequestStreamHandle inputs
              (snd (requestStream' fetch subscribe operation variables
                      cacheConfig observer init))))
    = [EvFetch operation variables cacheConfig None].
Proof.
  intros fetch subscribe operation variables cacheConfig observer inputs
    Hkind Hpoll.
  rewrite run_one_shot_fetches
    by (now apply requestStream_one_shot_start).
  rewrite (requestStream_one_shot fetch subscribe operation variables
             cacheConfig observer init Hkind Hpoll).
  reflexivity.
Qed.

Lemma step_one_shot_done (fetch : Fetch) operation variables observer i
  (s : State') :
  timers s = [] ->
  pending s = None ->
  timers (step' fetch operation variables observer RequestStreamHandle i s) = []
  /\ pending (step' fetch operation variables observer RequestStreamHandle i s)
     = None
  /\ callbacks (log (step' fetch operation variables observer
                       RequestStreamHandle i s))
     = callbacks (log s).
Proof.
  intros Htimers Hpending. unfold step, turn. destruct i as [|original|id].
  - destruct (handle_dispose_spec RequestStreamHandle s)
      as (s' & -> & Hp & Hl & Ht & _).
    rewrite Htimers in Ht. apply shrinks_nil in Ht.
    rewrite Hl, callbacks_app. simpl. rewrite app_nil_r.
    repeat split; congruence.
  - unfold bind, take_pending. rewrite Hpending. simpl. auto.
  - unfold bind, take_timer. rewrite Htimers. simpl. auto.
Qed.

Lemma run_one_shot_done (fetch : Fetch) operation variables observer inputs
  (s : State') :
  timers s = [] ->
  pending s = None ->
  callbacks (log (run' fetch operation variables observer RequestStreamHandle
                    inputs s))
  = callbacks (log s).
Proof.
  revert s. induction inputs as [|i inputs IH]; intros s Ht Hp; simpl;
    [reflexivity|].
  destruct (step_one_shot_done fetch operation variables observer i s Ht Hp)
    as (Ht' & Hp' & Hc).
  now rewrite IH.
Qed.

(** X5. A one-shot stream whose fetch answers with an [error] envelope never
    tells the observer: the rejected promise gets [onRequestError] as its
    fulfilment handler, which a rejection skips.  No callback is made at any
    time, and when the reaction runs the error goes to the host as an
    unhandled rejection. *)
Theorem one_shot_error_envelope_is_not_reported :
  forall (fetch : Fetch) (subscribe : option Subscribe) operation variables
         cacheConfig observer error inputs original,
    query_operation (query operation) <> "subscription" ->
    pollInterval_of cacheConfig = None ->
    fetch [] operation variables cacheConfig None = KindError error ->
    callbacks
      (log (run' fetch operation variables observer RequestStreamHandle inputs
              (snd (requestStream' fetch subscribe operation variables
                      cacheConfig observer init))))
    = []
    /\ log (step' fetch operation variables observer RequestStreamHandle
              (Settle original)
              (snd (requestStream' fetch subscribe operation variables
                      cacheConfig observer init)))
       = [EvFetch operation variables cacheConfig None; EvUncaught error].
Proof.
  intros fetch subscribe operation variables cacheConfig observer error inputs
    original Hkind Hpoll Hfetch.
  rewrite (requestStream_one_shot fetch subscribe operation variables
             cacheConfig observer init Hkind Hpoll).
  cbn [snd log init]. rewrite Hfetch. split; [|reflexivity].
  match goal with |- context [run _ _ _ _ _ _ _ _ ?s0] => set (s1 := s0) end.
  assert (Hinv : timers s1 = [] /\ callbacks (log s1) = []
                 /\ (pending s1 = None \/ pending s1 = Some (StreamError error)))
    by (subst s1; simpl; auto).
  clearbody s1. revert s1 Hinv.
  induction inputs as [|i inputs IH]; intros s1 (Ht & Hc & Hp); simpl;
    [exact Hc|].
  apply IH. destruct Hp as [Hp|Hp].
  - destruct (step_one_shot_done fetch operation variables observer i s1 Ht Hp)
      as (Ht' & Hp' & Hc').
    repeat split; auto. congruence.
  - unfold step, turn. destruct i as [|o|id].
    + destruct (handle_dispose_spec RequestStreamHandle s1)
        as (s' & -> & Hp' & Hl & Ht' & _).
      rewrite Ht in Ht'. apply shrinks_nil in Ht'.
      rewrite Hl, callbacks_app, Hc. simpl.
      repeat split; auto. right. congruence.
    + unfold bind, take_pending. rewrite Hp.
      unfold deliver, then_, bind, ret, unhandled, emit. simpl.
      rewrite callbacks_app, Hc. auto.
    + unfold bind, take_timer. rewrite Ht. simpl. auto.
Qed.

Lemma onRequestError_reports operation (observer : Observer) error handler
  (s : State') :
  isDisposed s = false ->
  onError observer = Some handler ->
  (forall c s', onRequestError' observer error s = (c, s') ->
     pending s' = pending s /\ shrinks (timers s') (timers s)
     /\ callbacks (log s') = callbacks (log s) ++ [EvOnError error])
  /\ forall variables payload c s',
       normalize' operation variables payload = Throw error ->
       onRequestSuccess' operation variables observer payload s = (c, s') ->
       pending s' = pending s /\ shrinks (timers s') (timers s)
       /\ callbacks (log s') = callbacks (log s) ++ [EvOnError error].
Proof.
  intros Hdisposed HonError.
  assert (Hcall : forall c s',
            call_onError (SubscriptionHandle := SubscriptionHandle)
              RequestStreamHandle observer error s = (c, s') ->
            pending s' = pending s /\ shrinks (timers s') (timers s)
            /\ callbacks (log s') = callbacks (log s) ++ [EvOnError error]).
  { intros c s'. unfold call_onError. rewrite HonError. simpl option_map.
    destruct (invoke_spec RequestStreamHandle (EvOnError error)
                (Some (handler error)) s)
      as (c1 & s1 & -> & Hp & Ht & _ & _ & Hl).
    intros [= <- <-]. repeat split; auto.
    rewrite Hl, callbacks_app. destruct (disposes _); reflexivity. }
  split.
  - intros c s'. unfold requestStream_onRequestError, bind, get_isDisposed.
    rewrite Hdisposed. apply Hcall.
  - intros variables payload c s' Hnormalize.
    unfold requestStream_onRequestSuccess, bind at 1, get_isDisposed.
    rewrite Hdisposed, Hnormalize. apply Hcall.
Qed.

(** X6. In a one-shot stream whose handle is not disposed, a failure reaches
    [onError] once and nothing else is ever called: this holds for a promise
    that is rejected (with the rejection reason) and for a payload, delivered
    in a [data] envelope or by the promise, that fails to normalize (with the
    normalizer's error, [onNext] and [onCompleted] being skipped). *)
Theorem one_shot_failure_reaches_onError :
  forall (fetch : Fetch) (subscribe : option Subscribe) operation variables
         cacheConfig observer before (s : State') original error handler,
    query_operation (query operation) <> "subscription" ->
    pollInterval_of cacheConfig = None ->
    s = run' fetch operation variables observer RequestStreamHandle before
          (snd (requestStream' fetch subscribe operation variables cacheConfig
                  observer init)) ->
    isDisposed s = false ->
    onError observer = Some handler ->
    (exists promise, pending s = Some (StreamPromise promise)
                     /\ original = Rejected error)
    \/ (exists raw,
          normalize' operation variables raw = Throw error
          /\ (pending s = Some (StreamData raw)
              \/ exists promise, pending s = Some (StreamPromise promise)
                                 /\ original = Fulfilled raw)) ->
    forall after,
      callbacks
        (log (run' fetch operation variables observer RequestStreamHandle
                (Settle original :: after) s))
      = [EvOnError error].
Proof.
  intros fetch subscribe operation variables cacheConfig observer before s
    original error handler Hkind Hpoll Hs Hdisposed HonError Hfailure after.
  assert (Hinv : one_shot s).
  { rewrite Hs. apply run_one_shot.
    now apply requestStream_one_shot_start. }
  clear Hs. destruct Hinv as [Htimers Hinv].
  destruct (onRequestError_reports operation observer error handler
              {| isDisposed := isDisposed s; timeout := timeout s;
                 pending := None; timers := timers s;
                 nextTimerId := nextTimerId s; log := log s |}
              Hdisposed HonError) as (Hreject & Hthrow).
  simpl run.
  assert (Hstep : exists s1,
    step' fetch operation variables observer RequestStreamHandle
      (Settle original) s = s1
    /\ timers s1 = [] /\ pending s1 = None
    /\ callbacks (log s1) = [EvOnError error]).
  { unfold step, turn, bind at 1, take_pending.
    destruct Hfailure as [(promise & Hp & ->) | (raw & Hnormalize & Hp)].
    - rewrite Hp in *. unfold deliver, then_, bind, reaction_of.
      match goal with |- context [requestStream_onRequestError _ _ ?s0] =>
        destruct (requestStream_onRequestError
                    (SubscriptionHandle := SubscriptionHandle) observer error s0)
          as [c s'] eqn:Hrun
      end.
      destruct (Hreject c s' eq_refl) as (Hp' & Ht' & Hc').
      simpl in Hp', Ht', Hc'.
      rewrite Htimers in Ht'. apply shrinks_nil in Ht'. rewrite Hinv in Hc'.
      destruct c as [[]|e]; unfold unhandled, ret, emit;
        (eexists; split; [reflexivity|]); cbn [timers pending log];
        rewrite ?callbacks_app, Hc'; auto.
    - assert (Hreaction :
        exists reaction, pending s = Some reaction
          /\ callbacks (log s) = []
          /\ deliver' operation variables observer reaction original
             = bind (then_ (Fulfilled raw)
                       (onRequestSuccess' operation variables observer) None)
                 (fun derived => unhandled derived)).
      { destruct Hp as [Hp | (promise & Hp & ->)]; rewrite Hp in Hinv; eauto. }
      destruct Hreaction as (reaction & Hp' & Hnone & Hdeliver).
      rewrite Hp', Hdeliver.
      unfold then_, bind, reaction_of.
      match goal with
      | |- context [requestStream_onRequestSuccess _ _ _ _ _ _ ?s0] =>
        destruct (requestStream_onRequestSuccess
                    (SubscriptionHandle := SubscriptionHandle) ROOT_ID
                    normalizeRelayPayload operation variables observer raw s0)
          as [c s'] eqn:Hrun
      end.
      destruct (Hthrow variables raw c s' Hnormalize Hrun) as (Hp'' & Ht' & Hc').
      simpl in Hp'', Ht', Hc'.
      rewrite Htimers in Ht'. apply shrinks_nil in Ht'. rewrite Hnone in Hc'.
      destruct c as [[]|e]; unfold unhandled, ret, emit;
        (eexists; split; [reflexivity|]); cbn [timers pending log];
        rewrite ?callbacks_app, Hc'; auto. }
  destruct Hstep as (s1 & -> & Ht & Hp & Hc).
  now rewrite run_one_shot_done.
Qed.

(** ** The poller's bookkeeping *)

Lemma invoke_facts (handle : @Disposable SubscriptionHandle) (ev : Event')
  (callback : option (list Event' -> Reaction)) (s : State') c1 s1 :
  invoke handle ev callback s = (c1, s1) ->
  pending s1 = pending s
  /\ shrinks (timers s1) (timers s)
  /\ timeout s1 = timeout s
  /\ nextTimerId s1 = nextTimerId s
  /\ (isDisposed s = true -> isDisposed s1 = true)
  /\ match callback with
     | None => c1 = Normal tt /\ log s1 = log s
     | Some f =>
         c1 = match throws (f (log s)) with
              | Some e => Throw e
              | None => Normal tt
              end
         /\ log s1 = log s ++ ev :: (if disposes (f (log s)) then [EvDispose] else [])
     end.
Proof.
  intros Hinvoke.
  destruct (invoke_spec handle ev callback s)
    as (c & s' & Hspec & Hp & Ht & Hd & Hlog).
  destruct (invoke_frame handle ev callback s) as (Htimeout & Hnext).
  rewrite Hinvoke in Hspec, Htimeout, Hnext.
  injection Hspec as <- <-. simpl in *. auto 7.
Qed.

Lemma poll_frame (fetch : Fetch) operation variables pollInterval (s : State') :
  timeout (snd (poll (request' fetch) operation variables pollInterval s))
  = timeout s
  /\ nextTimerId (snd (poll (request' fetch) operation variables pollInterval s))
     = nextTimerId s.
Proof.
  unfold poll, bind. rewrite request_unfold. cbv zeta.
  destruct (fetch (log s) operation variables (Some force_true) None)
    as [raw | error | promise | k]; try (simpl; auto; fail).
  destruct (truthy raw); [|simpl; auto].
  destruct (normalizePayload ROOT_ID normalizeRelayPayload operation variables raw);
    simpl; auto.
Qed.

(** The reaction of a tick that succeeded, spelled out: the observer is
    called, then either the next tick is scheduled or, when the observer
    threw, the rethrowing timer is. *)
Lemma poll_reaction_fulfilled_detail (observer : Observer) pollInterval payload
  (s : State') :
  exists c1 s1,
    call_onNext (SubscriptionHandle := SubscriptionHandle) PollingHandle
      observer payload s = (c1, s1)
    /\ poll_reaction' observer pollInterval (Fulfilled payload) s
       = (Normal tt,
          {| isDisposed := isDisposed s1;
             timeout := match c1 with
                        | Normal _ => Some (nextTimerId s1)
                        | Throw _ => timeout s1
                        end;
             pending := pending s1;
             timers := timers s1 ++
               [{| timer_id := nextTimerId s1;
                   timer_callback := match c1 with
                                     | Normal _ => TimerPoll pollInterval
                                     | Throw e => TimerThrow e
                                     end;
                   timer_delay := match c1 with
                                  | Normal _ => pollInterval
                                  | Throw _ => 0%Z
                                  end |}];
             nextTimerId := S (nextTimerId s1);
             log := log s1 |}).
Proof.
  unfold poll_reaction, then_, poll_onRequestSuccess, bind at 1, reaction_of,
    bind at 1.
  destruct (call_onNext PollingHandle observer payload s) as [c1 s1].
  exists c1, s1. split; [reflexivity|].
  destruct c1 as [[]|e]; unfold rethrow; unfold_M; reflexivity.
Qed.

(** The reaction of a tick that failed, spelled out: [dispose], then the
    observer, then the rethrowing timer when the observer threw. *)
Lemma poll_reaction_rejected_detail (observer : Observer) pollInterval reason
  (s : State') :
  exists c1 s1,
    call_onError (SubscriptionHandle := SubscriptionHandle) PollingHandle
      observer reason (snd (dispose s)) = (c1, s1)
    /\ poll_reaction' observer pollInterval (Rejected reason) s
       = (Normal tt,
          match c1 with
          | Normal _ => s1
          | Throw e =>
              {| isDisposed := isDisposed s1; timeout := timeout s1;
                 pending := pending s1;
                 timers := timers s1 ++
                   [{| timer_id := nextTimerId s1;
                       timer_callback := TimerThrow e;
                       timer_delay := 0%Z |}];
                 nextTimerId := S (nextTimerId s1);
                 log := log s1 |}
          end).
Proof.
  unfold poll_reaction, then_, poll_onRequestError, bind at 1, reaction_of,
    bind at 1.
  destruct (dispose_spec s) as (s0 & Hdispose & _). rewrite Hdispose.
  simpl snd.
  destruct (call_onError PollingHandle observer reason s0) as [c1 s1].
  exists c1, s1. split; [reflexivity|].
  destruct c1 as [[]|e]; unfold rethrow; unfold_M; reflexivity.
Qed.

Lemma Forall_shrinks (P : @Timer Variables -> Prop) (ts' ts : list Timer) :
  shrinks ts' ts -> Forall P ts -> Forall P ts'.
Proof.
  intros [keep ->] H. apply Forall_forall. intros t Hin.
  apply filter_In in Hin. destruct Hin as [Hin _].
  revert t Hin. now apply Forall_forall.
Qed.

Lemma no_poll_timers (ts : list (@Timer Variables)) :
  filter is_poll_timer ts = [] <-> Forall (fun t => is_poll_timer t = false) ts.
Proof.
  induction ts as [|t ts IH]; simpl; [split; auto|].
  destruct (is_poll_timer t) eqn:E; split; intros H.
  - discriminate H.
  - inversion H; congruence.
  - constructor; [exact E | now apply IH].
  - inversion H. now apply IH.
Qed.

Lemma shrinks_without (id : nat) (ts : list (@Timer Variables)) :
  shrinks (without_timer id ts) ts.
Proof. now exists (fun t => negb (Nat.eqb (timer_id t) id)). Qed.

(** A turn that clears at most some timers and leaves [timeout], the timer
    counter and the reaction alone (or drops the reaction) keeps the
    bookkeeping. *)
Lemma poll_schedule_frame interval (s s' : State') :
  poll_schedule interval s ->
  shrinks (timers s') (timers s) ->
  timeout s' = timeout s ->
  nextTimerId s' = nextTimerId s ->
  pending s' = pending s \/ pending s' = None ->
  poll_schedule interval s'.
Proof.
  intros (Hfresh & Hpoll & Hreaction) Ht Htimeout Hnext Hpending.
  unfold poll_schedule. rewrite Htimeout, Hnext.
  split; [now apply (Forall_shrinks _ _ _ Ht)|].
  split; [now apply (Forall_shrinks _ _ _ Ht)|].
  intros i p Hp. destruct Hpending as [H|H]; rewrite H in Hp;
    [eauto | discriminate].
Qed.

(** [setTimeout] for the next tick, or for a rethrow, keeps the bookkeeping. *)
Lemma poll_schedule_setTimeout interval (s1 : State') callback delay dis tmo
  (lg : list Event') :
  poll_schedule interval s1 ->
  pending s1 = None ->
  match callback with
  | TimerPoll i =>
      poll_timers s1 = [] /\ tmo = Some (nextTimerId s1)
      /\ i = interval /\ delay = interval
  | TimerThrow _ => tmo = timeout s1
  end ->
  poll_schedule interval
    ({| isDisposed := dis; timeout := tmo; pending := None;
        timers := timers s1 ++
          [{| timer_id := nextTimerId s1; timer_callback := callback;
              timer_delay := delay |}];
        nextTimerId := S (nextTimerId s1); log := lg |} : State').
Proof.
  intros (Hfresh & Hpoll & _) Hpending Hcallback.
  unfold poll_schedule. simpl. split; [|split].
  - apply Forall_app. split.
    + revert Hfresh. apply Forall_impl. intros t. lia.
    + repeat constructor.
  - apply Forall_app. split.
    + destruct callback as [i|e].
      * destruct Hcallback as (Hnone & _).
        apply no_poll_timers in Hnone.
        revert Hnone. apply Forall_impl. intros t Hfalse Htrue. congruence.
      * subst tmo. exact Hpoll.
    + constructor; [|constructor]. unfold is_poll_timer. simpl.
      destruct callback as [i|e]; [|discriminate].
      destruct Hcallback as (_ & -> & -> & ->). auto.
  - discriminate.
Qed.

Lemma step_poll_schedule (fetch : Fetch) operation variables observer interval i
  (s : State') :
  polling s ->
  poll_schedule interval s ->
  poll_schedule interval
    (step' fetch operation variables observer PollingHandle i s).
Proof.
  intros Hinv Hschedule. unfold step, turn. destruct i as [|original|id].
  - destruct (handle_dispose_spec PollingHandle s)
      as (s' & Hd & Hp & _ & Ht & _).
    destruct (handle_dispose_frame PollingHandle s) as (Htimeout & Hnext).
    rewrite Hd in *. simpl in Htimeout, Hnext.
    apply poll_schedule_frame with (s := s); auto.
  - unfold bind, take_pending.
    destruct (pending s) as [reaction|] eqn:Hpending.
    2:{ apply poll_schedule_frame with (s := s); simpl;
          auto using shrinks_refl. }
    unfold polling in Hinv. rewrite Hpending in Hinv.
    destruct reaction as [| | |pollInterval promise]; try contradiction.
    destruct Hinv as [Hnone _].
    assert (Hinterval : pollInterval = interval)
      by (destruct Hschedule as (_ & _ & H); eauto).
    subst pollInterval. unfold deliver.
    match goal with |- context [poll_reaction _ _ _ ?s0] => set (s_t := s0) end.
    assert (Hschedule_t : poll_schedule interval s_t)
      by (apply poll_schedule_frame with (s := s); simpl;
          auto using shrinks_refl).
    destruct (settle_poll promise original) as [payload|reason].
    + destruct (poll_reaction_fulfilled_detail observer interval payload s_t)
        as (c1 & s1 & Hcall & ->).
      apply invoke_facts in Hcall.
      destruct Hcall as (Hp1 & Ht1 & Htimeout1 & Hnext1 & _).
      assert (Hschedule1 : poll_schedule interval s1)
        by (apply poll_schedule_frame with (s := s_t); auto).
      simpl in Hp1. rewrite Hp1.
      apply poll_schedule_setTimeout; auto.
      destruct c1 as [[]|e]; [|reflexivity].
      repeat split; auto.
      apply shrinks_poll_timers in Ht1. simpl in Ht1.
      change (length (poll_timers s1) <= length (poll_timers s)) in Ht1.
      rewrite Hnone in Ht1. apply length_zero_iff_nil. simpl in Ht1. lia.
    + destruct (poll_reaction_rejected_detail observer interval reason s_t)
        as (c1 & s1 & Hcall & ->).
      destruct (dispose_spec s_t) as (s0 & Hdispose & Hp0 & _ & Ht0 & _).
      destruct (dispose_frame s_t) as (Htimeout0 & Hnext0 & _).
      rewrite Hdispose in *. simpl snd in *.
      assert (Hschedule0 : poll_schedule interval s0)
        by (apply poll_schedule_frame with (s := s_t); auto).
      apply invoke_facts in Hcall.
      destruct Hcall as (Hp1 & Ht1 & Htimeout1 & Hnext1 & _).
      assert (Hschedule1 : poll_schedule interval s1)
        by (apply poll_schedule_frame with (s := s0); auto).
      assert (Hnone1 : pending s1 = None) by (rewrite Hp1, Hp0; reflexivity).
      destruct c1 as [[]|e]; simpl; [exact Hschedule1|].
      rewrite Hnone1. now apply poll_schedule_setTimeout.
  - unfold bind, take_timer.
    match goal with |- context [without_timer id (timers s)] =>
      set (s_t := {| isDisposed := isDisposed s; timeout := timeout s;
                     pending := pending s;
                     timers := without_timer id (timers s);
                     nextTimerId := nextTimerId s; log := log s |})
    end.
    assert (Hschedule_t : poll_schedule interval s_t)
      by (apply poll_schedule_frame with (s := s); simpl;
          auto using shrinks_without).
    destruct (find (fun t => Nat.eqb (timer_id t) id) (timers s))
      as [t|] eqn:Hfind; simpl; [|exact Hschedule_t].
    destruct (timer_callback t) as [pollInterval|err] eqn:Hcallback.
    + assert (Hinterval : pollInterval = interval).
      { destruct Hschedule as (_ & Hpoll & _).
        apply find_some in Hfind. destruct Hfind as [Hin _].
        rewrite Forall_forall in Hpoll.
        destruct (Hpoll t Hin) as (_ & Hcb & _).
        - unfold is_poll_timer. now rewrite Hcallback.
        - congruence. }
      subst pollInterval.
      destruct (poll_spec fetch operation variables interval s_t)
        as (c & s' & Hpoll & _ & Htimers & _ & Hcases).
      destruct (poll_frame fetch operation variables interval s_t)
        as (Htimeout & Hnext).
      rewrite Hpoll in *. simpl snd in *.
      destruct Hschedule_t as (Hfresh & Hpolls & Hreaction).
      assert (Hschedule' : poll_schedule interval s').
      { unfold poll_schedule. rewrite Htimers, Htimeout, Hnext.
        split; [exact Hfresh|]. split; [exact Hpolls|].
        destruct Hcases as [(e & _ & Hp) | (promise & _ & Hp)]; rewrite Hp.
        - exact Hreaction.
        - intros i p [= <- _]. reflexivity. }
      destruct Hcases as [(e & -> & _) | (promise & -> & _)];
        [|exact Hschedule'].
      apply poll_schedule_frame with (s := s'); simpl;
        auto using shrinks_refl.
    + unfold throw, emit. simpl.
      apply poll_schedule_frame with (s := s_t); simpl;
        auto using shrinks_refl.
Qed.

Lemma doFetchWithPolling_started (fetch : Fetch) operation variables interval :
  (0 < interval)%Z ->
  snd (doFetchWithPolling' (request' fetch) operation variables interval init)
  = snd (poll (request' fetch) operation variables interval init).
Proof.
  intros Hpos.
  unfold doFetchWithPolling, invariant, bind at 1.
  destruct (Z.ltb_spec 0 interval) as [_|Hle]; [|lia].
  unfold ret at 1, bind at 1, set_isDisposed at 1, bind at 1, set_timeout at 1.
  unfold bind, init. simpl.
  match goal with |- context [poll ?a ?b ?c ?d ?s0] =>
    destruct (poll a b c d s0) as [[[]|e] s']
  end; reflexivity.
Qed.

Lemma doFetchWithPolling_schedule (fetch : Fetch) operation variables interval :
  poll_schedule interval
    (snd (doFetchWithPolling' (request' fetch) operation variables interval
            init)).
Proof.
  destruct (Z.ltb_spec 0 interval) as [Hpos|Hle].
  - rewrite doFetchWithPolling_started by exact Hpos.
    destruct (poll_spec fetch operation variables interval init)
      as (c & s' & Hpoll & _ & Htimers & _ & Hcases).
    destruct (poll_frame fetch operation variables interval init)
      as (Htimeout & Hnext).
    rewrite Hpoll in *. simpl snd in *.
    unfold poll_schedule. rewrite Htimers. simpl.
    split; [constructor|]. split; [constructor|].
    destruct Hcases as [(e & _ & Hp) | (promise & _ & Hp)]; rewrite Hp; simpl.
    + discriminate.
    + intros i p [= <- _]. reflexivity.
  - unfold doFetchWithPolling, invariant, bind at 1.
    destruct (Z.ltb_spec 0 interval) as [Hpos|_]; [lia|].
    unfold throw, poll_schedule. simpl.
    split; [constructor|]. split; [constructor|]. discriminate.
Qed.

Lemma run_poll_schedule (fetch : Fetch) operation variables observer interval
  inputs (s : State') :
  polling s ->
  poll_schedule interval s ->
  poll_schedule interval
    (run' fetch operation variables observer PollingHandle inputs s).
Proof.
  revert s. induction inputs as [|i inputs IH]; intros s H Hs; simpl; auto.
  apply IH; [now apply step_polling | now apply step_poll_schedule].
Qed.

(** X7. Polling is strictly sequential.  At any time of a polling execution
    at most one poll timer is set, and none while the reaction of a tick is
    pending, so two ticks are never under way together; a poll timer that is
    set waits for the poll interval of the execution and is the one whose
    identifier [timeout] holds (the one [dispose] would clear); a pending
    reaction is the reaction of a tick. *)
Theorem polling_is_sequential :
  forall (fetch : Fetch) (subscribe : option Subscribe) operation variables
         cacheConfig observer interval inputs (s : State'),
    query_operation (query operation) <> "subscription" ->
    pollInterval_of cacheConfig = Some interval ->
    s = run' fetch operation variables observer PollingHandle inputs
          (snd (requestStream' fetch subscribe operation variables cacheConfig
                  observer init)) ->
    length (poll_timers s) <= 1
    /\ (pending s <> None -> poll_timers s = [])
    /\ (forall t, In t (poll_timers s) ->
          timer_callback t = TimerPoll interval
          /\ timer_delay t = interval
          /\ timeout s = Some (timer_id t))
    /\ (forall reaction, pending s = Some reaction ->
          exists promise, reaction = PollReaction interval promise).
Proof.
  intros fetch subscribe operation variables cacheConfig observer interval
    inputs s Hkind Hpoll Hs.
  rewrite (requestStream_polls fetch subscribe operation variables cacheConfig
             observer interval init Hkind Hpoll) in Hs.
  assert (Hinv : polling s)
    by (rewrite Hs; apply run_polling, doFetchWithPolling_polling).
  assert (Hschedule : poll_schedule interval s).
  { rewrite Hs. apply run_poll_schedule.
    - apply doFetchWithPolling_polling.
    - apply doFetchWithPolling_schedule. }
  clear Hs. destruct Hschedule as (_ & Hpolls & Hreaction).
  unfold polling in Hinv. repeat split.
  - destruct (pending s) as [[]|]; try contradiction.
    + destruct Hinv as [-> _]. simpl. lia.
    + tauto.
  - intros Hsome. destruct (pending s) as [[]|]; try contradiction; tauto.
  - apply filter_In in H. destruct H as [Hin Hpoll_t].
    rewrite Forall_forall in Hpolls. now apply Hpolls.
  - apply filter_In in H. destruct H as [Hin Hpoll_t].
    rewrite Forall_forall in Hpolls. now apply Hpolls.
  - apply filter_In in H. destruct H as [Hin Hpoll_t].
    rewrite Forall_forall in Hpolls. now apply Hpolls.
  - intros reaction Hp. rewrite Hp in Hinv.
    destruct reaction as [| | |i promise]; try contradiction.
    exists promise. f_equal. eauto.
Qed.

(** X8. Disposing a poller between two ticks stops it.  When no reaction is
    pending and the handle has not been disposed before, [dispose()] clears
    the timer of the next tick: from then on the fetch primitive is never
    called and no callback is made, whatever happens. *)
Theorem dispose_between_ticks_stops_polling :
  forall (fetch : Fetch) (subscribe : option Subscribe) operation variables
         cacheConfig observer interval before (s : State'),
    query_operation (query operation) <> "subscription" ->
    pollInterval_of cacheConfig = Some interval ->
    s = run' fetch operation variables observer PollingHandle before
          (snd (requestStream' fetch subscribe operation variables cacheConfig
                  observer init)) ->
    pending s = None ->
    isDisposed s = false ->
    forall after,
      stopped (run' fetch operation variables observer PollingHandle
                 (Dispose :: after) s)
      /\ fetches (log (run' fetch operation variables observer PollingHandle
                         (Dispose :: after) s))
         = fetches (log s)
      /\ callbacks (log (run' fetch operation variables observer PollingHandle
                           (Dispose :: after) s))
         = callbacks (log s).
Proof.
  intros fetch subscribe operation variables cacheConfig observer interval
    before s Hkind Hpoll Hs Hpending Hdisposed after.
  rewrite (requestStream_polls fetch subscribe operation variables cacheConfig
             observer interval init Hkind Hpoll) in Hs.
  assert (Hschedule : poll_schedule interval s).
  { rewrite Hs. apply run_poll_schedule.
    - apply doFetchWithPolling_polling.
    - apply doFetchWithPolling_schedule. }
  clear Hs. destruct Hschedule as (_ & Hpolls & _).
  simpl run.
  assert (Hstep : exists s1,
            step' fetch operation variables observer PollingHandle Dispose s = s1
            /\ stopped s1 /\ log s1 = log s ++ [EvDispose]).
  { unfold step, turn.
    destruct (handle_dispose_spec PollingHandle s)
      as (s1 & Hd & Hp & Hl & _).
    rewrite Hd. exists s1. split; [reflexivity|]. split; [|exact Hl].
    split; [congruence|].
    assert (Htimers : timers s1 = match timeout s with
                                  | Some id => without_timer id (timers s)
                                  | None => timers s
                                  end).
    { unfold handle_dispose, bind, emit in Hd.
      match type of Hd with context [dispose ?s0] =>
        destruct (dispose_frame s0) as (_ & _ & Ht);
        destruct (dispose s0) as [c0 s0'] eqn:Hrun
      end.
      simpl in Ht. rewrite Hdisposed in Ht.
      destruct c0; injection Hd as _ <-; exact Ht. }
    unfold poll_timers. rewrite Htimers.
    apply no_poll_timers, Forall_forall. intros t Hin.
    destruct (is_poll_timer t) eqn:Hpoll_t; [|reflexivity].
    rewrite Forall_forall in Hpolls.
    destruct (timeout s) as [id|] eqn:Htimeout.
    - apply filter_In in Hin. destruct Hin as [Hin Hkeep].
      destruct (Hpolls t Hin Hpoll_t) as ([= Hid] & _).
      rewrite Hid, Nat.eqb_refl in Hkeep. discriminate Hkeep.
    - destruct (Hpolls t Hin Hpoll_t) as (H & _). discriminate H. }
  destruct Hstep as (s1 & -> & Hstopped & Hl).
  destruct (run_stopped fetch operation variables observer after s1 Hstopped)
    as (Hstopped' & _ & new & Hlog & Hsilent).
  destruct (silent_events new Hsilent) as (Hf & Hc & _).
  split; [exact Hstopped'|].
  rewrite Hlog, Hl, !fetches_app, !callbacks_app, Hf, Hc. simpl.
  now rewrite !app_nil_r.
Qed.

(** ** Ticks and deliveries *)

Lemma onNext_calls_app (l1 l2 : list Event') :
  onNext_calls (l1 ++ l2) = onNext_calls l1 ++ onNext_calls l2.
Proof. apply filter_app. Qed.

Lemma poll_progress_frame (s s' : State') :
  poll_progress s ->
  pending s' = pending s ->
  fetches (log s') = fetches (log s) ->
  onNext_calls (log s') = onNext_calls (log s) ->
  length (poll_timers s') <= length (poll_timers s) ->
  poll_progress s'.
Proof.
  unfold poll_progress. intros [Hcount Htimer] Hp Hf Hn Hlen.
  rewrite Hp, Hf, Hn. split; [exact Hcount|].
  intros Hne. apply Htimer. intros Hnil. rewrite Hnil in Hlen.
  apply Hne, length_zero_iff_nil. simpl in Hlen. lia.
Qed.

Lemma step_poll_progress (fetch : Fetch) operation variables observer f i
  (s : State') :
  onNext observer = Some f ->
  polling s ->
  poll_progress s ->
  poll_progress (step' fetch operation variables observer PollingHandle i s).
Proof.
  intros HonNext Hinv Hprogress. unfold step, turn.
  destruct i as [|original|id].
  - destruct (handle_dispose_spec PollingHandle s)
      as (s' & -> & Hp & Hl & Ht & _).
    apply poll_progress_frame with (s := s); auto.
    + rewrite Hl, fetches_app. apply app_nil_r.
    + rewrite Hl, onNext_calls_app. apply app_nil_r.
    + now apply shrinks_poll_timers.
  - unfold bind, take_pending.
    destruct (pending s) as [reaction|] eqn:Hpending.
    2:{ unfold poll_progress in *. simpl. now rewrite Hpending in Hprogress. }
    unfold polling in Hinv. rewrite Hpending in Hinv.
    destruct reaction as [| | |pollInterval promise]; try contradiction.
    destruct Hinv as [Hnone _].
    destruct Hprogress as [Hcount _]. rewrite Hpending in Hcount.
    unfold deliver.
    match goal with |- context [poll_reaction _ _ _ ?s0] => set (s_t := s0) end.
    destruct (settle_poll promise original) as [payload|reason].
    + destruct (poll_reaction_fulfilled_detail observer pollInterval payload s_t)
        as (c1 & s1 & Hcall & ->).
      apply invoke_facts in Hcall. rewrite HonNext in Hcall. simpl in Hcall.
      destruct Hcall as (Hp1 & _ & _ & _ & _ & _ & Hl1).
      unfold poll_progress. simpl. rewrite Hp1, Hl1.
      rewrite fetches_app, onNext_calls_app, !length_app.
      assert (Hf : fetches (EvOnNext payload ::
                     (if disposes (f payload (log s)) then [EvDispose] else [])
                     : list Event')
                   = [])
        by (destruct (disposes _); reflexivity).
      assert (Hn : onNext_calls (EvOnNext payload ::
                     (if disposes (f payload (log s)) then [EvDispose] else [])
                     : list Event')
                   = [EvOnNext payload])
        by (destruct (disposes _); reflexivity).
      rewrite Hf, Hn. simpl. split; [lia|]. intros _. lia.
    + destruct (poll_reaction_rejected observer pollInterval reason s_t)
        as (s' & -> & Hp & _ & Hlen & Hlog).
      simpl in Hp, Hlen, Hlog.
      change (length (poll_timers s') <= length (poll_timers s)) in Hlen.
      rewrite Hnone in Hlen. simpl in Hlen.
      assert (Hnone' : poll_timers s' = [])
        by (apply length_zero_iff_nil; lia).
      unfold poll_progress. rewrite Hp, Hlog, Hnone'.
      rewrite fetches_app, onNext_calls_app, !length_app.
      assert (Hf : fetches
                     (match onError observer with
                      | Some g => EvOnError reason ::
                          (if disposes (g reason (log s)) then [EvDispose] else [])
                      | None => []
                      end : list Event') = [])
        by (destruct (onError observer); [destruct (disposes _)|]; reflexivity).
      assert (Hn : onNext_calls
                     (match onError observer with
                      | Some g => EvOnError reason ::
                          (if disposes (g reason (log s)) then [EvDispose] else [])
                      | None => []
                      end : list Event') = [])
        by (destruct (onError observer); [destruct (disposes _)|]; reflexivity).
      rewrite Hf, Hn. simpl. split; [lia|]. intros Hne. now elim Hne.
  - unfold bind, take_timer.
    match goal with |- context [without_timer id (timers s)] =>
      set (s_t := {| isDisposed := isDisposed s; timeout := timeout s;
                     pending := pending s;
                     timers := without_timer id (timers s);
                     nextTimerId := nextTimerId s; log := log s |})
    end.
    assert (Hle : length (poll_timers s_t) <= length (poll_timers s))
      by apply poll_timers_without.
    assert (Hprogress_t : poll_progress s_t)
      by (apply poll_progress_frame with (s := s); auto).
    destruct (find (fun t => Nat.eqb (timer_id t) id) (timers s))
      as [t|] eqn:Hfind; simpl; [|exact Hprogress_t].
    destruct (timer_callback t) as [pollInterval|err] eqn:Hcallback.
    + assert (Hpoll : is_poll_timer t = true)
        by (unfold is_poll_timer; now rewrite Hcallback).
      pose proof (fired_poll_timer id (timers s) t Hfind Hpoll) as Hlt.
      change (length (poll_timers s_t) < length (poll_timers s)) in Hlt.
      unfold polling in Hinv.
      destruct (pending s) as [[]|] eqn:Hpending; try contradiction.
      { destruct Hinv as [Hnil _]. rewrite Hnil in Hlt. simpl in Hlt. lia. }
      destruct Hinv as [Hone _].
      destruct Hprogress as [_ Hanswered].
      assert (Hcount : length (fetches (log s)) = length (onNext_calls (log s))).
      { apply Hanswered. intros Hnil. rewrite Hnil in Hlt. simpl in Hlt. lia. }
      assert (Hnil_t : poll_timers s_t = [])
        by (apply length_zero_iff_nil; lia).
      destruct (poll_spec fetch operation variables pollInterval s_t)
        as (c & s' & -> & Hlog & Htimers & _ & Hcases).
      simpl in Hlog.
      assert (Hnil' : poll_timers s' = [])
        by (unfold poll_timers; rewrite Htimers; exact Hnil_t).
      assert (Hcount' : length (fetches (log s'))
                        = length (onNext_calls (log s')) + 1).
      { rewrite Hlog, fetches_app, onNext_calls_app, !length_app. simpl. lia. }
      destruct Hcases as [(e & -> & Hp) | (promise & -> & Hp)].
      * unfold poll_progress, poll_timers, emit. simpl.
        rewrite fetches_app, onNext_calls_app, !length_app. simpl.
        change (filter is_poll_timer (timers s')) with (poll_timers s').
        rewrite Hnil'. split; [|intros Hne; now elim Hne].
        destruct (pending s'); lia.
      * unfold poll_progress. rewrite Hp, Hnil'.
        split; [exact Hcount' | intros Hne; now elim Hne].
    + unfold throw, emit. simpl.
      apply poll_progress_frame with (s := s_t); simpl; auto.
      * rewrite fetches_app. apply app_nil_r.
      * rewrite onNext_calls_app. apply app_nil_r.
Qed.

Lemma doFetchWithPolling_progress (fetch : Fetch) operation variables interval :
  poll_progress
    (snd (doFetchWithPolling' (request' fetch) operation variables interval
            init)).
Proof.
  destruct (Z.ltb_spec 0 interval) as [Hpos|Hle].
  - rewrite doFetchWithPolling_started by exact Hpos.
    destruct (poll_spec fetch operation variables interval init)
      as (c & s' & Hpoll & Hlog & Htimers & _ & Hcases).
    rewrite Hpoll. simpl snd. simpl in Hlog.
    unfold poll_progress, poll_timers. rewrite Hlog, Htimers. simpl.
    split; [|intros Hne; now elim Hne].
    destruct (pending s'); simpl; lia.
  - unfold doFetchWithPolling, invariant, bind at 1.
    destruct (Z.ltb_spec 0 interval) as [Hpos|_]; [lia|].
    unfold throw, poll_progress. simpl. split; [lia|].
    intros Hne. now elim Hne.
Qed.

(** X9. A tick starts only after the one before it has been delivered.  In a
    polling execution whose observer has an [onNext] handler, at any time the
    calls of the fetch primitive outnumber the calls of [onNext] by one at
    most; by exactly one while the reaction of a tick is pending, and by none
    while the timer of the next tick is set. *)
Theorem ticks_follow_deliveries :
  forall (fetch : Fetch) (subscribe : option Subscribe) operation variables
         cacheConfig observer interval f inputs (s : State'),
    query_operation (query operation) <> "subscription" ->
    pollInterval_of cacheConfig = Some interval ->
    onNext observer = Some f ->
    s = run' fetch operation variables observer PollingHandle inputs
          (snd (requestStream' fetch subscribe operation variables cacheConfig
                  observer init)) ->
    length (fetches (log s)) <= length (onNext_calls (log s)) + 1
    /\ (pending s <> None ->
        length (fetches (log s)) = length (onNext_calls (log s)) + 1)
    /\ (poll_timers s <> [] ->
        length (fetches (log s)) = length (onNext_calls (log s))).
Proof.
  intros fetch subscribe operation variables cacheConfig observer interval f
    inputs s Hkind Hpoll HonNext Hs.
  rewrite (requestStream_polls fetch subscribe operation variables cacheConfig
             observer interval init Hkind Hpoll) in Hs.
  assert (H : polling s /\ poll_progress s).
  { rewrite Hs.
    pose proof (doFetchWithPolling_polling fetch operation variables interval)
      as Hinv.
    pose proof (doFetchWithPolling_progress fetch operation variables interval)
      as Hprogress.
    revert Hinv Hprogress.
    generalize (snd (doFetchWithPolling' (request' fetch) operation variables
                       interval init)).
    clear Hs. induction inputs as [|i inputs IH]; intros s0 Hinv Hprogress;
      simpl; [auto|].
    apply IH; [now apply step_polling|].
    now apply (step_poll_progress fetch operation variables observer f). }
  destruct H as [_ [Hcount Hanswered]].
  split; [destruct (pending s); lia|]. split; [|exact Hanswered].
  intros Hsome. destruct (pending s); [exact Hcount | now elim Hsome].
Qed.

(** ** What a poller never does, and what it does with failures *)

Lemma step_poller_events (fetch : Fetch) operation variables observer i
  (s : State') :
  polling s ->
  exists new,
    log (step' fetch operation variables observer PollingHandle i s)
    = log s ++ new
    /\ forallb poller_event new = true.
Proof.
  intros H. unfold step, turn. destruct i as [|original|id].
  - destruct (handle_dispose_spec PollingHandle s) as (s' & -> & _ & Hl & _).
    exists [EvDispose]. auto.
  - unfold bind, take_pending.
    destruct (pending s) as [reaction|] eqn:Hpending.
    2:{ exists []. simpl. now rewrite app_nil_r. }
    unfold polling in H. rewrite Hpending in H.
    destruct reaction as [| | |pollInterval promise]; try contradiction.
    unfold deliver.
    destruct (settle_poll promise original) as [payload|reason].
    + match goal with |- context [poll_reaction _ _ _ ?s1] =>
        destruct (poll_reaction_fulfilled observer pollInterval payload s1)
          as (s' & -> & _ & _ & _ & new & Hlog & Hnew)
      end.
      exists new. split; [exact Hlog|].
      destruct Hnew as [-> | [-> | ->]]; reflexivity.
    + match goal with |- context [poll_reaction _ _ _ ?s1] =>
        destruct (poll_reaction_rejected observer pollInterval reason s1)
          as (s' & -> & _ & _ & _ & Hlog)
      end.
      eexists. split; [exact Hlog|].
      destruct (onError observer) as [f|]; [|reflexivity].
      destruct (disposes _); reflexivity.
  - unfold bind, take_timer.
    destruct (find (fun t => Nat.eqb (timer_id t) id) (timers s))
      as [t|] eqn:Hfind; simpl.
    2:{ exists []. now rewrite app_nil_r. }
    destruct (timer_callback t) as [pollInterval|err].
    + match goal with |- context [poll _ _ _ _ ?s1] =>
        destruct (poll_spec fetch operation variables pollInterval s1)
          as (c & s' & -> & Hlog & _ & _ & Hcases)
      end.
      simpl in Hlog.
      destruct Hcases as [(e & -> & _) | (promise & -> & _)].
      * exists [EvFetch operation variables (Some force_true) None; EvUncaught e].
        unfold emit. simpl. rewrite Hlog, <- app_assoc. auto.
      * exists [EvFetch operation variables (Some force_true) None]. auto.
    + exists [EvUncaught err]. unfold throw, emit. simpl. auto.
Qed.

(** X10. A poll stream does not end by itself: in a polling execution
    [onCompleted] is never called, whatever the fetch primitive answers and
    whatever else happens (and the subscribe primitive is not called either). *)
Theorem poller_never_completes :
  forall (fetch : Fetch) (subscribe : option Subscribe) operation variables
         cacheConfig observer interval inputs,
    query_operation (query operation) <> "subscription" ->
    pollInterval_of cacheConfig = Some interval ->
    forallb poller_event
      (log (run' fetch operation variables observer PollingHandle inputs
              (snd (requestStream' fetch subscribe operation variables
                      cacheConfig observer init))))
    = true
    /\ ~ In EvOnCompleted
         (log (run' fetch operation variables observer PollingHandle inputs
                 (snd (requestStream' fetch subscribe operation variables
                         cacheConfig observer init)))).
Proof.
  intros fetch subscribe operation variables cacheConfig observer interval
    inputs Hkind Hpoll.
  rewrite (requestStream_polls fetch subscribe operation variables cacheConfig
             observer interval init Hkind Hpoll).
  assert (Hall : forallb poller_event
            (log (run' fetch operation variables observer PollingHandle inputs
                    (snd (doFetchWithPolling' (request' fetch) operation
                            variables interval init)))) = true).
  { pose proof (doFetchWithPolling_polling fetch operation variables interval)
      as Hinv.
    assert (Hstart : forallb poller_event
              (log (snd (doFetchWithPolling' (request' fetch) operation
                           variables interval init))) = true).
    { destruct (Z.ltb_spec 0 interval) as [Hpos|Hle].
      - rewrite doFetchWithPolling_started by exact Hpos.
        destruct (poll_spec fetch operation variables interval init)
          as (c & s' & -> & Hlog & _).
        simpl. rewrite Hlog. reflexivity.
      - unfold doFetchWithPolling, invariant, bind at 1.
        destruct (Z.ltb_spec 0 interval) as [Hpos|_]; [lia|]. reflexivity. }
    revert Hinv Hstart.
    generalize (snd (doFetchWithPolling' (request' fetch) operation variables
                       interval init)).
    induction inputs as [|i inputs IH]; intros s Hinv Hstart; simpl; [auto|].
    apply IH; [now apply step_polling|].
    destruct (step_poller_events fetch operation variables observer i s Hinv)
      as (new & -> & Hnew).
    now rewrite forallb_app, Hstart, Hnew. }
  split; [exact Hall|].
  intros Hin. rewrite forallb_forall in Hall.
  specialize (Hall _ Hin). discriminate Hall.
Qed.

Lemma find_fresh_timer (n : nat) (ts : list (@Timer Variables)) (t : Timer) :
  Forall (fun t => timer_id t < n) ts ->
  timer_id t = n ->
  find (fun t => Nat.eqb (timer_id t) n) (ts ++ [t]) = Some t.
Proof.
  intros Hfresh Hid. induction Hfresh as [|a ts Ha Hts IH]; simpl.
  - now rewrite Hid, Nat.eqb_refl.
  - destruct (Nat.eqb_spec (timer_id a) n); [lia | exact IH].
Qed.

(** X11. An observer whose [onNext] throws ends the polling, and the
    exception is thrown again outside the promise chain.  When the delivery
    of a tick's result makes [onNext] throw, the turn itself reports nothing
    and [onError] is not called; no further tick is scheduled, so the fetch
    primitive is never called again; a timer with delay 0 is set instead, and
    when it fires the exception reaches the host as an uncaught one. *)
Theorem throwing_onNext_ends_polling :
  forall (fetch : Fetch) (subscribe : option Subscribe) operation variables
         cacheConfig observer interval before (s : State') pollInterval promise
         original payload f e,
    query_operation (query operation) <> "subscription" ->
    pollInterval_of cacheConfig = Some interval ->
    s = run' fetch operation variables observer PollingHandle before
          (snd (requestStream' fetch subscribe operation variables cacheConfig
                  observer init)) ->
    pending s = Some (PollReaction pollInterval promise) ->
    settle_poll promise original = Fulfilled payload ->
    onNext observer = Some f ->
    throws (f payload (log s)) = Some e ->
    log (step' fetch operation variables observer PollingHandle
           (Settle original) s)
    = log s ++ EvOnNext payload ::
        (if disposes (f payload (log s)) then [EvDispose] else [])
    /\ stopped (step' fetch operation variables observer PollingHandle
                  (Settle original) s)
    /\ In {| timer_id := nextTimerId s; timer_callback := TimerThrow e;
             timer_delay := 0%Z |}
         (timers (step' fetch operation variables observer PollingHandle
                    (Settle original) s))
    /\ log (run' fetch operation variables observer PollingHandle
              [Settle original; Fire (nextTimerId s)] s)
       = log s ++ EvOnNext payload ::
           (if disposes (f payload (log s)) then [EvDispose] else [])
           ++ [EvUncaught e]
    /\ forall after,
         fetches (log (run' fetch operation variables observer PollingHandle
                         (Settle original :: after) s))
         = fetches (log s).
Proof.
  intros fetch subscribe operation variables cacheConfig observer interval
    before s pollInterval promise original payload f e Hkind Hpoll Hs Hpending
    Hsettle HonNext Hthrows.
  rewrite (requestStream_polls fetch subscribe operation variables cacheConfig
             observer interval init Hkind Hpoll) in Hs.
  assert (Hinv : polling s)
    by (rewrite Hs; apply run_polling, doFetchWithPolling_polling).
  assert (Hschedule : poll_schedule interval s).
  { rewrite Hs. apply run_poll_schedule.
    - apply doFetchWithPolling_polling.
    - apply doFetchWithPolling_schedule. }
  clear Hs. unfold polling in Hinv. rewrite Hpending in Hinv.
  destruct Hinv as [Hnone _]. destruct Hschedule as (Hfresh & _ & _).
  assert (Hstep : exists s1 ts,
            step' fetch operation variables observer PollingHandle
              (Settle original) s = s1
            /\ pending s1 = None
            /\ timers s1 = ts ++ [{| timer_id := nextTimerId s;
                                     timer_callback := TimerThrow e;
                                     timer_delay := 0%Z |}]
            /\ shrinks ts (timers s)
            /\ log s1 = log s ++ EvOnNext payload ::
                 (if disposes (f payload (log s)) then [EvDispose] else [])).
  { unfold step, turn, bind, take_pending. rewrite Hpending.
    unfold deliver. rewrite Hsettle.
    match goal with |- context [poll_reaction _ _ _ ?s0] =>
      destruct (poll_reaction_fulfilled_detail observer pollInterval payload s0)
        as (c1 & s1 & Hcall & ->)
    end.
    apply invoke_facts in Hcall. rewrite HonNext in Hcall. simpl in Hcall.
    destruct Hcall as (Hp1 & Ht1 & _ & Hn1 & _ & -> & Hl1).
    rewrite Hthrows. simpl. rewrite Hn1.
    eexists _, (timers s1). repeat split; auto. }
  destruct Hstep as (s1 & ts & Hstep & Hp1 & Ht1 & Hshrinks & Hl1).
  assert (Hstopped : stopped s1).
  { split; [exact Hp1|]. unfold poll_timers. rewrite Ht1, filter_app. simpl.
    apply shrinks_poll_timers in Hshrinks.
    change (length (filter is_poll_timer ts) <= length (poll_timers s))
      in Hshrinks.
    rewrite Hnone in Hshrinks. simpl in Hshrinks.
    rewrite app_nil_r. apply length_zero_iff_nil. lia. }
  simpl run. rewrite Hstep.
  split; [exact Hl1|]. split; [exact Hstopped|].
  split; [rewrite Ht1; apply in_or_app; right; now left|].
  split.
  - unfold step at 1, turn, bind, take_timer. rewrite Ht1.
    rewrite find_fresh_timer;
      [| now apply (Forall_shrinks _ _ _ Hshrinks) | reflexivity].
    unfold throw, emit. simpl. rewrite Hl1, <- app_assoc. reflexivity.
  - intros after.
    destruct (run_stopped fetch operation variables observer after s1 Hstopped)
      as (_ & _ & new & Hlog & Hsilent).
    destruct (silent_events new Hsilent) as (Hf & _).
    rewrite Hlog, Hl1, !fetches_app, Hf.
    destruct (disposes _); simpl; now rewrite !app_nil_r.
Qed.

(** X12. A [data] envelope whose payload fails to normalize does not reach
    [onError] when it answers a poll tick: [request] throws inside [poll],
    before any promise exists.  On the first tick the error is thrown out of
    [requestStream], with no handle returned; on a later tick, started by its
    timer, it reaches the host as an uncaught exception.  Either way no
    callback is made and the polling is over. *)
Theorem tick_normalization_failure_is_thrown :
  forall (fetch : Fetch) (subscribe : option Subscribe) operation variables
         cacheConfig observer interval raw e,
    query_operation (query operation) <> "subscription" ->
    pollInterval_of cacheConfig = Some interval ->
    truthy raw = true ->
    normalize' operation variables raw = Throw e ->
    ((0 < interval)%Z ->
     fetch [] operation variables (Some force_true) None = KindData raw ->
     requestStream' fetch subscribe operation variables cacheConfig observer init
     = (Throw e,
        {| isDisposed := false; timeout := None; pending := None; timers := [];
           nextTimerId := 1;
           log := [EvFetch operation variables (Some force_true) None] |}))
    /\ forall before (s : State') id pollInterval,
         s = run' fetch operation variables observer PollingHandle before
               (snd (requestStream' fetch subscribe operation variables
                       cacheConfig observer init)) ->
         option_map timer_callback
           (find (fun t => Nat.eqb (timer_id t) id) (timers s))
         = Some (TimerPoll pollInterval) ->
         fetch (log s) operation variables (Some force_true) None
         = KindData raw ->
         log (step' fetch operation variables observer PollingHandle (Fire id) s)
         = log s ++ [EvFetch operation variables (Some force_true) None;
                     EvUncaught e]
         /\ stopped (step' fetch operation variables observer PollingHandle
                       (Fire id) s).
Proof.
  intros fetch subscribe operation variables cacheConfig observer interval raw
    e Hkind Hpoll Htruthy Hnormalize.
  assert (Hthrow : forall i (s : State'),
            fetch (log s) operation variables (Some force_true) None
            = KindData raw ->
            poll (request' fetch) operation variables i s
            = (Throw e, snd (emit (EvFetch operation variables
                                     (Some force_true) None) s))).
  { intros i s Hfetch. unfold poll, bind.
    rewrite request_unfold, Hfetch. cbv zeta.
    now rewrite Htruthy, Hnormalize. }
  split.
  - intros Hpos Hfetch.
    rewrite (requestStream_polls fetch subscribe operation variables
               cacheConfig observer interval init Hkind Hpoll).
    unfold doFetchWithPolling, invariant, bind at 1.
    destruct (Z.ltb_spec 0 interval) as [_|Hle]; [|lia].
    unfold ret at 1, bind at 1, set_isDisposed at 1, bind at 1,
      set_timeout at 1, bind at 1.
    rewrite Hthrow by exact Hfetch. reflexivity.
  - intros before s id pollInterval Hs Htimer Hfetch.
    rewrite (requestStream_polls fetch subscribe operation variables
               cacheConfig observer interval init Hkind Hpoll) in Hs.
    assert (Hinv : polling s)
      by (rewrite Hs; apply run_polling, doFetchWithPolling_polling).
    clear Hs.
    destruct (find (fun t => Nat.eqb (timer_id t) id) (timers s))
      as [t|] eqn:Hfind; [|discriminate Htimer].
    injection Htimer as Hcallback.
    assert (Hpoll_t : is_poll_timer t = true)
      by (unfold is_poll_timer; now rewrite Hcallback).
    pose proof (fired_poll_timer id (timers s) t Hfind Hpoll_t) as Hlt.
    assert (Hpending : pending s = None /\ length (poll_timers s) <= 1).
    { unfold polling in Hinv.
      destruct (pending s) as [[]|]; try contradiction; [|tauto].
      destruct Hinv as [Hnil _]. unfold poll_timers in Hnil.
      rewrite Hnil in Hlt. simpl in Hlt. lia. }
    destruct Hpending as [Hpending Hone].
    unfold step, turn, bind, take_timer. rewrite Hfind. cbn [option_map].
    rewrite Hcallback. rewrite Hthrow by exact Hfetch.
    unfold emit, stopped, poll_timers. simpl.
    split; [now rewrite <- app_assoc|]. split; [exact Hpending|].
    apply length_zero_iff_nil. unfold poll_timers in Hone. lia.
Qed.

(** X13. On the one-shot path of [requestStream] a response of an unknown
    kind is ignored without a word: the switch has no default branch.  The
    handle is returned, no reaction is left pending, and no callback and no
    error report ever follows. *)
Theorem one_shot_unknown_kind_is_ignored :
  forall (fetch : Fetch) (subscribe : option Subscribe) operation variables
         cacheConfig observer k inputs,
    query_operation (query operation) <> "subscription" ->
    pollInterval_of cacheConfig = None ->
    fetch [] operation variables cacheConfig None = KindOther k ->
    requestStream' fetch subscribe operation variables cacheConfig observer init
    = (Normal RequestStreamHandle,
       {| isDisposed := false; timeout := None; pending := None; timers := [];
          nextTimerId := 1;
          log := [EvFetch operation variables cacheConfig None] |})
    /\ callbacks
         (log (run' fetch operation variables observer RequestStreamHandle
                 inputs
                 (snd (requestStream' fetch subscribe operation variables
                         cacheConfig observer init))))
       = []
    /\ forall e,
         ~ In (EvUncaught e)
             (log (run' fetch operation variables observer RequestStreamHandle
                     inputs
                     (snd (requestStream' fetch subscribe operation variables
                             cacheConfig observer init)))).
Proof.
  intros fetch subscribe operation variables cacheConfig observer k inputs
    Hkind Hpoll Hfetch.
  rewrite (requestStream_one_shot fetch subscribe operation variables
             cacheConfig observer init Hkind Hpoll).
  cbn [snd log init pending timers timeout nextTimerId]. rewrite Hfetch.
  split; [reflexivity|].
  match goal with |- context [run _ _ _ _ _ _ _ _ ?s0] => set (s1 := s0) end.
  assert (Hinv : timers s1 = [] /\ pending s1 = None
                 /\ Forall (fun ev => is_callback ev = false
                                      /\ forall e, ev <> EvUncaught e) (log s1)).
  { subst s1. simpl. repeat split; auto. constructor; [|constructor].
    split; [reflexivity | discriminate]. }
  clearbody s1.
  assert (Hrun : Forall (fun ev => is_callback ev = false
                                   /\ forall e, ev <> EvUncaught e)
                   (log (run' fetch operation variables observer
                           RequestStreamHandle inputs s1))).
  { revert s1 Hinv.
    induction inputs as [|i inputs IH]; intros s1 (Ht & Hp & Hlog); simpl;
      [exact Hlog|].
    apply IH. unfold step, turn. destruct i as [|o|id].
    - destruct (handle_dispose_spec RequestStreamHandle s1)
        as (s' & -> & Hp' & Hl & Ht' & _).
      rewrite Ht in Ht'. apply shrinks_nil in Ht'.
      repeat split; auto; [congruence|].
      rewrite Hl. apply Forall_app. split; [exact Hlog|].
      constructor; [|constructor]. split; [reflexivity | discriminate].
    - unfold bind, take_pending. rewrite Hp. simpl. auto.
    - unfold bind, take_timer. rewrite Ht. simpl. auto. }
  split.
  - unfold callbacks. induction Hrun as [|ev l [Hev _] _ IH]; simpl;
      [reflexivity|]. now rewrite Hev.
  - intros e Hin. rewrite Forall_forall in Hrun.
    destruct (Hrun _ Hin) as [_ Hne]. now apply (Hne e).
Qed.

(** X14. A failing tick of a poller whose observer has no [onError] handler
    ends the polling without telling anyone: nothing is added to the log, the
    handle is disposed, and the fetch primitive is never called again. *)
Theorem poll_error_without_onError_is_silent :
  forall (fetch : Fetch) (subscribe : option Subscribe) operation variables
         cacheConfig observer interval before (s : State') pollInterval promise
         original reason,
    query_operation (query operation) <> "subscription" ->
    pollInterval_of cacheConfig = Some interval ->
    s = run' fetch operation variables observer PollingHandle before
          (snd (requestStream' fetch subscribe operation variables cacheConfig
                  observer init)) ->
    pending s = Some (PollReaction pollInterval promise) ->
    settle_poll promise original = Rejected reason ->
    onError observer = None ->
    log (step' fetch operation variables observer PollingHandle
           (Settle original) s) = log s
    /\ isDisposed (step' fetch operation variables observer PollingHandle
                     (Settle original) s) = true
    /\ forall after,
         stopped (run' fetch operation variables observer PollingHandle
                    (Settle original :: after) s)
         /\ fetches (log (run' fetch operation variables observer PollingHandle
                            (Settle original :: after) s))
            = fetches (log s)
         /\ callbacks (log (run' fetch operation variables observer
                              PollingHandle (Settle original :: after) s))
            = callbacks (log s).
Proof.
  intros fetch subscribe operation variables cacheConfig observer interval
    before s pollInterval promise original reason Hkind Hpoll Hs Hpending
    Hsettle HonError.
  rewrite (requestStream_polls fetch subscribe operation variables cacheConfig
             observer interval init Hkind Hpoll) in Hs.
  assert (Hinv : polling s)
    by (rewrite Hs; apply run_polling, doFetchWithPolling_polling).
  clear Hs. unfold polling in Hinv. rewrite Hpending in Hinv.
  destruct Hinv as [Hnil _].
  assert (Hstep : exists s1,
            step' fetch operation variables observer PollingHandle
              (Settle original) s = s1
            /\ stopped s1 /\ isDisposed s1 = true /\ log s1 = log s).
  { unfold step, turn, bind, take_pending. rewrite Hpending.
    unfold deliver. rewrite Hsettle.
    match goal with |- context [poll_reaction _ _ _ ?s0] =>
      destruct (poll_reaction_rejected observer pollInterval reason s0)
        as (s' & -> & Hp & Hd & Hlen & Hlog)
    end.
    simpl in Hp, Hlen, Hlog. rewrite HonError, app_nil_r in Hlog.
    exists s'. repeat split; auto.
    change (length (poll_timers s') <= length (poll_timers s)) in Hlen.
    rewrite Hnil in Hlen. apply length_zero_iff_nil. simpl in Hlen. lia. }
  destruct Hstep as (s1 & Hstep & Hstopped & Hd & Hl).
  simpl run. rewrite Hstep.
  split; [exact Hl|]. split; [exact Hd|]. intros after.
  destruct (run_stopped fetch operation variables observer after s1 Hstopped)
    as (Hstopped' & _ & new & Hlog & Hsilent).
  destruct (silent_events new Hsilent) as (Hf & Hc & _).
  split; [exact Hstopped'|].
  rewrite Hlog, Hl, fetches_app, callbacks_app, Hf, Hc.
  now rewrite !app_nil_r.
Qed.

(** X15. In a one-shot stream an [onNext] that throws keeps [onCompleted]
    from being called: the exception leaves [onRequestSuccess] at once.
    Nothing catches it (the one-shot path has no [catch(rethrow)]), so the
    host reports it as an unhandled rejection in the same turn, and [onError]
    is not called. *)
Theorem one_shot_throwing_onNext_skips_onCompleted :
  forall (fetch : Fetch) (subscribe : option Subscribe) operation variables
         cacheConfig observer before (s : State') original raw r f e,
    query_operation (query operation) <> "subscription" ->
    pollInterval_of cacheConfig = None ->
    s = run' fetch operation variables observer RequestStreamHandle before
          (snd (requestStream' fetch subscribe operation variables cacheConfig
                  observer init)) ->
    isDisposed s = false ->
    pending s = Some (StreamData raw)
    \/ (exists promise, pending s = Some (StreamPromise promise)
                        /\ original = Fulfilled raw) ->
    normalize' operation variables raw = Normal r ->
    onNext observer = Some f ->
    throws (f (Some r) (log s)) = Some e ->
    log (step' fetch operation variables observer RequestStreamHandle
           (Settle original) s)
    = log s ++ EvOnNext (Some r) ::
        (if disposes (f (Some r) (log s)) then [EvDispose] else [])
        ++ [EvUncaught e]
    /\ forall after,
         callbacks (log (run' fetch operation variables observer
                           RequestStreamHandle (Settle original :: after) s))
         = [EvOnNext (Some r)].
Proof.
  intros fetch subscribe operation variables cacheConfig observer before s
    original raw r f e Hkind Hpoll Hs Hdisposed Hpending Hnormalize HonNext
    Hthrows.
  assert (Hinv : one_shot s).
  { rewrite Hs. apply run_one_shot.
    now apply requestStream_one_shot_start. }
  clear Hs. destruct Hinv as [Htimers Hinv].
  assert (Hreaction :
    exists reaction, pending s = Some reaction
      /\ callbacks (log s) = []
      /\ deliver' operation variables observer reaction original
         = bind (then_ (Fulfilled raw)
                   (onRequestSuccess' operation variables observer) None)
             (fun derived => unhandled derived)).
  { destruct Hpending as [Hp | (promise & Hp & ->)]; rewrite Hp in Hinv; eauto. }
  destruct Hreaction as (reaction & Hp & Hnone & Hdeliver).
  assert (Hstep : exists s1,
    step' fetch operation variables observer RequestStreamHandle
      (Settle original) s = s1
    /\ timers s1 = [] /\ pending s1 = None
    /\ log s1 = log s ++ EvOnNext (Some r) ::
         (if disposes (f (Some r) (log s)) then [EvDispose] else [])
         ++ [EvUncaught e]).
  { unfold step, turn, bind at 1, take_pending. rewrite Hp, Hdeliver.
    unfold then_, bind at 1, reaction_of.
    unfold requestStream_onRequestSuccess, bind at 1, get_isDisposed.
    cbn [isDisposed]. rewrite Hdisposed, Hnormalize.
    unfold call_onNext, bind at 1. rewrite HonNext. cbn [option_map].
    match goal with
    | |- context [invoke ?h ?ev ?cb ?s0] =>
        destruct (invoke h ev cb s0) as [c1 s1] eqn:Hinvoke
    end.
    apply invoke_facts in Hinvoke. cbn [log pending timers] in Hinvoke.
    destruct Hinvoke as (Hp1 & Ht1 & _ & _ & _ & -> & Hl1).
    rewrite Hthrows. unfold unhandled, emit. cbn.
    rewrite Htimers in Ht1. apply shrinks_nil in Ht1.
    eexists. split; [reflexivity|]. cbn [timers pending log].
    rewrite Hl1, <- app_assoc. auto. }
  destruct Hstep as (s1 & Hstep & Ht & Hp1 & Hl).
  simpl run. rewrite Hstep. split; [exact Hl|]. intros after.
  rewrite run_one_shot_done by assumption.
  rewrite Hl, callbacks_app, Hnone.
  destruct (disposes _); reflexivity.
Qed.

End Properties.

(** * The scenarios, run *)

Import Scenario.

(** C1.  A poller whose handle is disposed while the first tick's promise is
    still pending: when the promise is fulfilled afterwards, [onNext] is
    called all the same and the next tick is scheduled; when its timer fires
    the fetch primitive is called again.  A promise that is rejected after
    the disposal reaches [onError] in the same way. *)
Theorem poll_delivers_after_dispose :
  log (run fetch_deferred Q vars listener PollingHandle
         [Dispose; Settle (Fulfilled payload_A)] polling_start)
  = [EvFetch Q vars (Some force_true) None; EvDispose;
     EvOnNext (Some "normalized A")]
  /\ isDisposed (run fetch_deferred Q vars listener PollingHandle
                   [Dispose] polling_start) = true
  /\ poll_timers (run fetch_deferred Q vars listener PollingHandle
                    [Dispose; Settle (Fulfilled payload_A)] polling_start)
     = [{| timer_id := 1; timer_callback := TimerPoll 1000;
           timer_delay := 1000 |}]
  /\ log (run fetch_deferred Q vars listener PollingHandle
            [Dispose; Settle (Fulfilled payload_A); Fire 1] polling_start)
     = [EvFetch Q vars (Some force_true) None; EvDispose;
        EvOnNext (Some "normalized A");
        EvFetch Q vars (Some force_true) None]
  /\ log (run fetch_deferred Q vars listener PollingHandle
            [Dispose; Settle (Rejected offline)] polling_start)
     = [EvFetch Q vars (Some force_true) None; EvDispose; EvOnError offline].
Proof. repeat split. Qed.

(** Against C2 as stated: a [data] envelope whose payload has no data does not
    come back as a [data] envelope; [request] throws. *)
Lemma request_throws_on_data_envelope :
  fetch_data payload_boom [] Q vars None None = KindData payload_boom
  /\ (exists error,
        fst (request (fetch_data payload_boom) Q vars None None init)
        = Throw (RelayErr error))
  /\ forall normalized,
       fst (request (fetch_data payload_boom) Q vars None None init)
       <> Normal (KindData normalized).
Proof.
  split; [reflexivity|]. split.
  - eexists. reflexivity.
  - intros normalized H. discriminate H.
Qed.

(** The synthesized message of the [boom] payload, checked by running. *)
Example boom_message_includes_boom :
  includes "boom"
    (error_message
       (@no_data_error string Q vars (Defined [{| message := "boom" |}])))
  = true.
Proof. reflexivity. Qed.

Lemma request_maps_envelope_witness :
  fst (request (fetch_data payload_A) Q vars None None init)
  = Normal (KindData (Some "normalized A"))
  /\ fst (request (fetch_data RawNull) Q vars None None init)
     = Normal (KindData None)
  /\ fst (request fetch_error Q vars None None init)
     = Normal (KindError offline).
Proof.
  destruct (request_maps_envelope ROOT_ID normalizeRelayPayload
              (fetch_data payload_A) Q vars None None init)
    as (Hdata & _).
  destruct (request_maps_envelope ROOT_ID normalizeRelayPayload
              (fetch_data RawNull) Q vars None None init)
    as (_ & Hnull & _).
  destruct (request_maps_envelope ROOT_ID normalizeRelayPayload
              fetch_error Q vars None None init)
    as (_ & _ & _ & Herror & _).
  split; [|split].
  - apply (Hdata payload_A); reflexivity.
  - apply (Hnull RawNull); reflexivity.
  - apply (Herror offline); reflexivity.
Defined.

(** Against C3 as stated: the first tick of a poller started with the cache
    configuration [{poll: 1000, metadata: "meta"}] calls the fetch primitive
    with [{force: true}], which is not that configuration with [force] set. *)
Lemma poll_tick_drops_cache_config :
  fetches (log polling_start) = [EvFetch Q vars (Some force_true) None]
  /\ Some (@force_true string) <> Some (merge_force_true poll_1000).
Proof.
  split; [reflexivity|]. intros H. discriminate H.
Qed.

Lemma poll_tick_forces_fetch_witness :
  length (fetches (log (run fetch_deferred Q vars listener PollingHandle
                          [Settle (Fulfilled payload_A); Fire 1]
                          polling_start))) = 2
  /\ Forall (tick_fetch Q vars)
       (log (run fetch_deferred Q vars listener PollingHandle
               [Settle (Fulfilled payload_A); Fire 1] polling_start)).
Proof.
  split; [reflexivity|].
  apply (@poll_tick_forces_fetch string string unit string string nat
           ROOT_ID normalizeRelayPayload fetch_deferred
           None Q vars (Some poll_1000) listener 1000%Z
           [Settle (Fulfilled payload_A); Fire 1]).
  - discriminate.
  - reflexivity.
Defined.

Lemma unknown_kind_fails_loudly_witness :
  fst (request fetch_bogus Q vars None None init)
  = Throw (invariant_violation
             "RelayNetwork: unsupported response kind `%s`" ["stream"])
  /\ fst (poll (request fetch_bogus) Q vars 1000 init)
     = Throw (invariant_violation
                "RelayNetwork: unsupported response kind `%s`" ["stream"]).
Proof.
  destruct (@unknown_kind_fails_loudly string string unit string string nat
              ROOT_ID normalizeRelayPayload (KindOther "stream"))
    as (Hrequest & Hpoll & _); try discriminate.
  split.
  - apply (Hrequest fetch_bogus Q vars None None init). reflexivity.
  - apply (Hpoll fetch_bogus Q vars 1000%Z init). reflexivity.
Defined.

Lemma poll_error_stops_polling_witness :
  log second_tick_pending
  = [EvFetch Q vars (Some force_true) None; EvOnNext (Some "normalized A");
     EvFetch Q vars (Some force_true) None; EvDispose]
  /\ onError_calls
       (log (run fetch_flaky Q vars listener PollingHandle
               [Settle (Fulfilled RawNull); Fire 2; Dispose]
               second_tick_pending))
     = [EvOnError offline]
  /\ fetches
       (log (run fetch_flaky Q vars listener PollingHandle
               [Settle (Fulfilled RawNull); Fire 2; Dispose]
               second_tick_pending))
     = fetches (log second_tick_pending)
  /\ isDisposed (run fetch_flaky Q vars listener PollingHandle
                   [Settle (Fulfilled RawNull); Fire 2; Dispose]
                   second_tick_pending)
     = true
  /\ onError_calls
       (log (run fetch_deferred Q vars listener PollingHandle
               [Settle (Rejected offline); Fire 1; Dispose] polling_start))
     = [EvOnError offline]
  /\ fetches
       (log (run fetch_deferred Q vars listener PollingHandle
               [Settle (Rejected offline); Fire 1; Dispose] polling_start))
     = fetches (log polling_start).
Proof.
  destruct (@poll_error_stops_polling string string unit string string nat
              ROOT_ID normalizeRelayPayload
              fetch_flaky None Q vars (Some poll_1000) listener 1000%Z
              [Settle (Fulfilled RawNull); Fire 1; Dispose]
              second_tick_pending
              (PollReaction 1000 (Promise_reject offline))
              [EvFetch Q vars (Some force_true) None;
               EvOnNext (Some "normalized A")]
              Q vars (Some force_true) None [EvDispose]
              (Fulfilled RawNull) offline (fun _ _ => quiet))
    with (after := [@Fire string string 2; Dispose])
    as (Honce & _ & Hfetches & Hdisposed & _).
  - discriminate.
  - reflexivity.
  - reflexivity.
  - reflexivity.
  - reflexivity.
  - reflexivity.
  - left. reflexivity.
  - reflexivity.
  - destruct (@poll_error_stops_polling string string unit string string nat
                ROOT_ID normalizeRelayPayload
                fetch_deferred None Q vars (Some poll_1000) listener 1000%Z []
                polling_start (PollReaction 1000 (RequestPromise request_promise))
                [] Q vars (Some force_true) None []
                (Rejected offline) offline (fun _ _ => quiet))
      with (after := [@Fire string string 1; Dispose])
      as (Honce' & _ & Hfetches' & _).
    + discriminate.
    + reflexivity.
    + reflexivity.
    + reflexivity.
    + reflexivity.
    + reflexivity.
    + right. exists fetch_promise. split; reflexivity.
    + reflexivity.
    + split; [reflexivity|]. split; [exact Honce|]. split; [exact Hfetches|].
      split; [exact Hdisposed|]. split; [exact Honce' | exact Hfetches'].
Defined.

Lemma normalizePayload_without_data_witness :
  exists error,
    fst (request (fetch_data payload_boom) Q vars None None init)
    = Throw (RelayErr error)
    /\ Contains "boom" (error_message error)
    /\ error_source error
       = Some {| source_errors := Defined [{| message := "boom" |}];
                 source_operation := Q; source_variables := vars |}.
Proof.
  destruct (normalizePayload_without_data (UploadableMap := unit)
              (Metadata := string) ROOT_ID normalizeRelayPayload Q vars
              {| data := Undefined; errors := Defined [{| message := "boom" |}] |})
    as (error & _ & _ & Herrors & _ & Hsource & Hrequest).
  - left. reflexivity.
  - exists error. split; [|split].
    + apply (Hrequest (fetch_data payload_boom) None None init). reflexivity.
    + destruct (Herrors [{| message := "boom" |}] eq_refl) as [_ Hcontains].
      apply (Hcontains {| message := "boom" |}). left. reflexivity.
    + exact Hsource.
Defined.

Lemma subscription_needs_subscribe_witness :
  requestStream fetch_deferred None Sub vars None listener init
  = (Throw (invariant_violation subscriptions_unsupported []), init)
  /\ fst (requestStream fetch_deferred (Some subscribe_fn) Sub vars None
            listener init)
     = Normal (SubscriptionDisposable 7).
Proof.
  destruct (@subscription_needs_subscribe string string unit string string nat ROOT_ID
              normalizeRelayPayload fetch_deferred Sub vars None listener init)
    as (Hnone & Hsome).
  - reflexivity.
  - split; [exact Hnone|]. apply (Hsome subscribe_fn).
Defined.

(** Against C8 as stated: when the observer's [onNext] disposes the handle,
    [onCompleted] is called nevertheless, after the disposal. *)
Lemma onCompleted_follows_disposing_onNext :
  log (run fetch_deferred Q vars one_and_done RequestStreamHandle
         [Settle (Fulfilled payload_A)] (one_shot_start one_and_done))
  = [EvFetch Q vars None None; EvOnNext (Some "normalized A"); EvDispose;
     EvOnCompleted].
Proof. reflexivity. Qed.

Lemma one_shot_stream_delivery_witness :
  one_shot_callbacks (callbacks (log (one_shot_start listener)))
  /\ callbacks
       (log (step ROOT_ID normalizeRelayPayload fetch_deferred Q vars listener
               (@RequestStreamHandle nat) (Settle (Fulfilled payload_A))
               (one_shot_start listener)))
     = [EvOnNext (Some "normalized A"); EvOnCompleted].
Proof.
  destruct (@one_shot_stream_delivery string string unit string string nat ROOT_ID
              normalizeRelayPayload fetch_deferred None Q vars None listener []
              (one_shot_start listener))
    as (Hshape & _ & Hsuccess).
  - discriminate.
  - reflexivity.
  - reflexivity.
  - split; [exact Hshape|].
    apply (Hsuccess payload_A "normalized A" (fun _ _ => quiet) (fun _ => quiet)
             (Fulfilled payload_A)); try reflexivity.
    right. exists fetch_promise. split; reflexivity.
Defined.

(** Against C9 as stated.  A one-shot stream whose fetch answers with an
    [error] envelope: the handle is returned and the reaction runs in a later
    turn, but [onError] is not called then, and nothing is left that could
    call it; the error is reported as an unhandled rejection.  And a poll
    interval of zero: [requestStream] throws, so that no handle is
    returned. *)
Lemma error_envelope_is_not_delivered_later :
  fetch_error [] Q vars None None = KindError offline
  /\ requestStream fetch_error None Q vars None listener init
     = (Normal RequestStreamHandle,
        {| isDisposed := false; timeout := None;
           pending := Some (StreamError offline); timers := [];
           nextTimerId := 1; log := [EvFetch Q vars None None] |})
  /\ run fetch_error Q vars listener RequestStreamHandle
       [Settle (Fulfilled RawNull)]
       (snd (requestStream fetch_error None Q vars None listener init))
     = {| isDisposed := false; timeout := None; pending := None; timers := [];
          nextTimerId := 1;
          log := [EvFetch Q vars None None; EvUncaught offline] |}
  /\ (exists error,
        fst (requestStream fetch_deferred None Q vars (Some poll_0) listener
               init)
        = Throw error).
Proof.
  split; [reflexivity|]. split; [reflexivity|]. split; [reflexivity|].
  eexists. reflexivity.
Qed.

Lemma requestStream_defers_callbacks_witness :
  callbacks
    (log (snd (requestStream (fetch_data payload_A) None Q vars None listener
                 init)))
  = []
  /\ fst (requestStream (fetch_data payload_A) None Q vars None listener init)
     = Normal RequestStreamHandle
  /\ callbacks
       (log (step ROOT_ID normalizeRelayPayload (fetch_data payload_A) Q vars
               listener (@RequestStreamHandle nat) (Settle (Fulfilled RawNull))
               (snd (requestStream (fetch_data payload_A) None Q vars None
                       listener init))))
     = [EvOnNext (Some "normalized A"); EvOnCompleted]
  /\ callbacks
       (log (snd (requestStream fetch_error None Q vars (Some poll_1000)
                    listener init)))
     = []
  /\ fst (requestStream fetch_error None Q vars (Some poll_1000) listener init)
     = Normal PollingHandle
  /\ callbacks
       (log (step ROOT_ID normalizeRelayPayload fetch_error Q vars listener
               (@PollingHandle nat) (Settle (Fulfilled RawNull))
               (snd (requestStream fetch_error None Q vars (Some poll_1000)
                       listener init))))
     = [EvOnError offline].
Proof.
  destruct (@requestStream_defers_callbacks string string unit string string
              nat ROOT_ID normalizeRelayPayload (fetch_data payload_A) None Q
              vars None listener init)
    as (Hcallbacks & Hone_shot & _); [discriminate|].
  destruct (Hone_shot eq_refl) as (Hhandle & _ & Hpayload & _).
  destruct (@requestStream_defers_callbacks string string unit string string
              nat ROOT_ID normalizeRelayPayload fetch_error None Q vars
              (Some poll_1000) listener init)
    as (Hcallbacks' & _ & Hpolling); [discriminate|].
  destruct (Hpolling 1000%Z eq_refl) as (Hhandle' & _ & Htick).
  split; [exact Hcallbacks|]. split; [exact Hhandle|].
  split; [exact (Hpayload payload_A (Fulfilled RawNull) (or_introl eq_refl))|].
  split; [exact Hcallbacks'|]. split; [exact Hhandle'|].
  exact (Htick (Fulfilled RawNull)).
Defined.

Lemma request_falsy_data_is_null_witness :
  fst (request (fetch_data RawNull) Q vars None None init)
  = Normal (KindData None).
Proof.
  destruct (request_falsy_data_is_null ROOT_ID normalizeRelayPayload
              (fetch_data RawNull) Q vars None None init RawNull)
    as (Hnull & _).
  - reflexivity.
  - apply Hnull. reflexivity.
Defined.

(** ** The further properties, run *)


Lemma nonpositive_poll_interval_is_refused_witness :
  requestStream fetch_deferred None Q vars (Some poll_0) listener init
  = (Throw (InvariantViolation
              "RelayNetwork: Expected pollInterval to be positive, got `0`."),
     init).
Proof.
  destruct (@nonpositive_poll_interval_is_refused string string unit string
              string nat ROOT_ID normalizeRelayPayload fetch_deferred None Q
              vars (Some poll_0) listener 0%Z init)
    as (message & Hthrow & Hmessage).
  - discriminate.
  - reflexivity.
  - reflexivity.
  - unfold requestStream. rewrite Hthrow, Hmessage; [reflexivity|]. discriminate.
Defined.

Lemma one_shot_fetches_once_witness :
  fetches (log (run fetch_deferred Q vars listener RequestStreamHandle
                  [Settle (Fulfilled payload_A); Dispose; Fire 1]
                  (one_shot_start listener)))
  = [EvFetch Q vars None None].
Proof.
  apply (@one_shot_fetches_once string string unit string string nat ROOT_ID
           normalizeRelayPayload fetch_deferred None Q vars None listener
           [Settle (Fulfilled payload_A); Dispose; Fire 1]).
  - discriminate.
  - reflexivity.
Defined.

Lemma one_shot_error_envelope_is_not_reported_witness :
  callbacks
    (log (run fetch_error Q vars listener RequestStreamHandle
            [Settle (Fulfilled payload_A); Dispose]
            (snd (requestStream fetch_error None Q vars None listener init))))
  = []
  /\ log (step ROOT_ID normalizeRelayPayload fetch_error Q vars listener
            (@RequestStreamHandle nat) (Settle (Fulfilled payload_A))
            (snd (requestStream fetch_error None Q vars None listener init)))
     = [EvFetch Q vars None None; EvUncaught offline].
Proof.
  apply (@one_shot_error_envelope_is_not_reported string string unit string
           string nat ROOT_ID normalizeRelayPayload fetch_error None Q vars None
           listener offline [Settle (Fulfilled payload_A); Dispose]
           (Fulfilled payload_A)).
  - discriminate.
  - reflexivity.
  - reflexivity.
Defined.

Lemma one_shot_failure_reaches_onError_witness :
  callbacks (log (run fetch_deferred Q vars listener RequestStreamHandle
                    [Settle (Rejected offline); Dispose]
                    (one_shot_start listener)))
  = [EvOnError offline].
Proof.
  apply (@one_shot_failure_reaches_onError string string unit string string nat
           ROOT_ID normalizeRelayPayload fetch_deferred None Q vars None
           listener [] (one_shot_start listener) (Rejected offline) offline
           (fun _ _ => quiet)).
  - discriminate.
  - reflexivity.
  - reflexivity.
  - reflexivity.
  - reflexivity.
  - left. exists fetch_promise. split; reflexivity.
Defined.

Lemma polling_is_sequential_witness :
  poll_timers between_ticks
  = [{| timer_id := 1; timer_callback := TimerPoll 1000; timer_delay := 1000 |}]
  /\ length (poll_timers between_ticks) <= 1
  /\ forall t, In t (poll_timers between_ticks) ->
       timer_callback t = TimerPoll 1000 /\ timer_delay t = 1000%Z
       /\ timeout between_ticks = Some (timer_id t).
Proof.
  split; [reflexivity|].
  destruct (@polling_is_sequential string string unit string string nat ROOT_ID
              normalizeRelayPayload fetch_deferred None Q vars (Some poll_1000)
              listener 1000%Z [Settle (Fulfilled payload_A)] between_ticks)
    as (Hone & _ & Htimer & _).
  - discriminate.
  - reflexivity.
  - reflexivity.
  - split; [exact Hone | exact Htimer].
Defined.

Lemma dispose_between_ticks_stops_polling_witness :
  fetches (log (run fetch_deferred Q vars listener PollingHandle
                  [Dispose; Fire 1; Settle (Fulfilled payload_A)] between_ticks))
  = fetches (log between_ticks)
  /\ callbacks (log (run fetch_deferred Q vars listener PollingHandle
                       [Dispose; Fire 1; Settle (Fulfilled payload_A)]
                       between_ticks))
     = [EvOnNext (Some "normalized A")].
Proof.
  destruct (@dispose_between_ticks_stops_polling string string unit string
              string nat ROOT_ID normalizeRelayPayload fetch_deferred None Q
              vars (Some poll_1000) listener 1000%Z
              [Settle (Fulfilled payload_A)] between_ticks)
    with (after := [@Fire string string 1; Settle (Fulfilled payload_A)])
    as (_ & Hfetches & Hcallbacks).
  - discriminate.
  - reflexivity.
  - reflexivity.
  - reflexivity.
  - reflexivity.
  - split; [exact Hfetches | exact Hcallbacks].
Defined.

Lemma ticks_follow_deliveries_witness :
  length (fetches (log (run fetch_deferred Q vars listener PollingHandle
                          [Settle (Fulfilled payload_A); Fire 1]
                          polling_start))) = 2
  /\ length (fetches (log (run fetch_deferred Q vars listener PollingHandle
                             [Settle (Fulfilled payload_A); Fire 1]
                             polling_start)))
     <= length (onNext_calls
                  (log (run fetch_deferred Q vars listener PollingHandle
                          [Settle (Fulfilled payload_A); Fire 1]
                          polling_start))) + 1.
Proof.
  split; [reflexivity|].
  destruct (@ticks_follow_deliveries string string unit string string nat
              ROOT_ID normalizeRelayPayload fetch_deferred None Q vars
              (Some poll_1000) listener 1000%Z (fun _ _ => quiet)
              [Settle (Fulfilled payload_A); Fire 1]
              (run fetch_deferred Q vars listener PollingHandle
                 [Settle (Fulfilled payload_A); Fire 1] polling_start))
    as (Hle & _).
  - discriminate.
  - reflexivity.
  - reflexivity.
  - reflexivity.
  - exact Hle.
Defined.

Lemma poller_never_completes_witness :
  ~ In EvOnCompleted
      (log (run fetch_deferred Q vars listener PollingHandle
              [Settle (Fulfilled payload_A); Fire 1;
               Settle (Fulfilled payload_A); Dispose]
              polling_start)).
Proof.
  apply (@poller_never_completes string string unit string string nat ROOT_ID
           normalizeRelayPayload fetch_deferred None Q vars (Some poll_1000)
           listener 1000%Z
           [Settle (Fulfilled payload_A); Fire 1;
            Settle (Fulfilled payload_A); Dispose]).
  - discriminate.
  - reflexivity.
Defined.

Lemma throwing_onNext_ends_polling_witness :
  log (run fetch_deferred Q vars thrower PollingHandle
         [Settle (Fulfilled payload_A); Fire 1] (polling_from thrower))
  = [EvFetch Q vars (Some force_true) None; EvOnNext (Some "normalized A");
     EvUncaught handler_error].
Proof.
  destruct (@throwing_onNext_ends_polling string string unit string string nat
              ROOT_ID normalizeRelayPayload fetch_deferred None Q vars
              (Some poll_1000) thrower 1000%Z [] (polling_from thrower) 1000%Z
              (RequestPromise request_promise) (Fulfilled payload_A)
              (Some "normalized A") (fun _ _ => throwing) handler_error)
    as (_ & _ & _ & Hrethrown & _).
  - discriminate.
  - reflexivity.
  - reflexivity.
  - reflexivity.
  - reflexivity.
  - reflexivity.
  - reflexivity.
  - exact Hrethrown.
Defined.

Lemma tick_normalization_failure_is_thrown_witness :
  requestStream (fetch_data payload_boom) None Q vars (Some poll_1000) listener
    init
  = (Throw (RelayErr (@no_data_error string Q vars
                        (Defined [{| message := "boom" |}]))),
     {| isDisposed := false; timeout := None; pending := None; timers := [];
        nextTimerId := 1;
        log := [EvFetch Q vars (Some force_true) None] |}).
Proof.
  destruct (@tick_normalization_failure_is_thrown string string unit string
              string nat ROOT_ID normalizeRelayPayload
              (fetch_data payload_boom) None Q vars (Some poll_1000) listener
              1000%Z payload_boom
              (RelayErr (@no_data_error string Q vars
                           (Defined [{| message := "boom" |}]))))
    as (Hfirst & _).
  - discriminate.
  - reflexivity.
  - reflexivity.
  - reflexivity.
  - apply Hfirst; reflexivity.
Defined.

Lemma one_shot_unknown_kind_is_ignored_witness :
  callbacks (log (run fetch_bogus Q vars listener RequestStreamHandle
                    [Settle (Fulfilled payload_A); Dispose]
                    (snd (requestStream fetch_bogus None Q vars None listener
                            init))))
  = []
  /\ fst (requestStream fetch_bogus None Q vars None listener init)
     = Normal RequestStreamHandle.
Proof.
  destruct (@one_shot_unknown_kind_is_ignored string string unit string string
              nat ROOT_ID normalizeRelayPayload fetch_bogus None Q vars None
              listener "stream" [Settle (Fulfilled payload_A); Dispose])
    as (Hreturn & Hcallbacks & _).
  - discriminate.
  - reflexivity.
  - reflexivity.
  - split; [exact Hcallbacks | exact (f_equal fst Hreturn)].
Defined.

Lemma poll_error_without_onError_is_silent_witness :
  log (run fetch_deferred Q vars next_only PollingHandle
         [Settle (Rejected offline); Fire 1] (polling_from next_only))
  = log (polling_from next_only)
  /\ isDisposed (run fetch_deferred Q vars next_only PollingHandle
                   [Settle (Rejected offline)] (polling_from next_only))
     = true.
Proof.
  destruct (@poll_error_without_onError_is_silent string string unit string
              string nat ROOT_ID normalizeRelayPayload fetch_deferred None Q
              vars (Some poll_1000) next_only 1000%Z []
              (polling_from next_only) 1000%Z (RequestPromise request_promise)
              (Rejected offline) offline)
    as (_ & Hdisposed & _).
  - discriminate.
  - reflexivity.
  - reflexivity.
  - reflexivity.
  - reflexivity.
  - reflexivity.
  - split; [reflexivity | exact Hdisposed].
Defined.

Lemma one_shot_throwing_onNext_skips_onCompleted_witness :
  log (run fetch_deferred Q vars thrower RequestStreamHandle
         [Settle (Fulfilled payload_A)] (one_shot_start thrower))
  = [EvFetch Q vars None None; EvOnNext (Some "normalized A");
     EvUncaught handler_error].
Proof.
  destruct (@one_shot_throwing_onNext_skips_onCompleted string string unit
              string string nat ROOT_ID normalizeRelayPayload fetch_deferred
              None Q vars None thrower [] (one_shot_start thrower)
              (Fulfilled payload_A) payload_A "normalized A"
              (fun _ _ => throwing) handler_error)
    as (Hlog & _).
  - discriminate.
  - reflexivity.
  - reflexivity.
  - reflexivity.
  - right. exists fetch_promise. split; reflexivity.
  - reflexivity.
  - reflexivity.
  - reflexivity.
  - exact Hlog.
Defined.
